(** * xspect-build/packages: artifact resolution and delivery

    A shallow embedding of the JavaScript sources that locate, fetch,
    unpack and expose the prebuilt binaries:

    - [Python]          packages/python index.js
                        ([getPlatformPackageName], [download], [extract],
                        [getPythonPath], [fixPermissions]);
    - [Patchelf]        packages/patchelf index.js
                        ([findBinaryPath], [getPatchelfPath],
                        [isPatchelfAvailable], [getBinDir]);
    - [Postinstall]     packages/patchelf postinstall script
                        ([findPackageDir], [fixPermissions], the script body);
    - [BuildPython]     scripts/build-python.js ([replaceSymlinks], the scan
                        of [bin] in [buildPythonPackage], the argument
                        loop);
    - [BuildPlatform]   scripts/build-platform.js ([ensureDir], [copyFile],
                        [copyDir]).

    The host (file system, temporary directory, registry, process
    constants) is an explicit state; a JavaScript function becomes a
    function from the host to an outcome that carries the host reached,
    also when an exception is thrown: effects performed before a throw
    persist, as they do in Node. *)

From Stdlib Require Import NArith Ascii Sorted.
From Stdlib Require OrderedTypeEx.
From stdpp Require Import base option list strings.

Set Warnings "-register-all".

(** ** Strings and paths *)

(** [s.startsWith(pre)] *)
Definition startsWith (pre s : string) : bool := String.prefix pre s.

(** [s.endsWith(suf)] *)
Definition endsWith (suf s : string) : bool :=
  let n := String.length s in
  let k := String.length suf in
  if decide (k ≤ n) then
    bool_decide (String.substring (n - k) k s = suf)
  else false.

(** A path is the list of its components below the root directory. The
    strings Node passes around ("/a/b/c") are kept in split form; only link
    targets, which are data read back from the disk, stay raw strings. *)
Definition path := list string.

Fixpoint split_slash (s : string) : list string :=
  match s with
  | EmptyString => [""]
  | String c s' =>
      if bool_decide (c = "/"%char) then "" :: split_slash s'
      else match split_slash s' with
           | h :: t => String c h :: t
           | [] => [String c ""]
           end
  end.

Definition is_absolute (s : string) : bool := startsWith "/" s.

(** Lexical normalisation of "", "." and "..", as [path.normalize] does for
    an absolute path: ".." at the root stays at the root. *)
Fixpoint normalize_go (acc : list string) (p : list string) : path :=
  match p with
  | [] => rev acc
  | c :: r =>
      if bool_decide (c = "") then normalize_go acc r
      else if bool_decide (c = ".") then normalize_go acc r
      else if bool_decide (c = "..") then normalize_go (tail acc) r
      else normalize_go (c :: acc) r
  end.

Definition normalize (p : list string) : path := normalize_go [] p.

(** [path.join(a, b, ...)] on an absolute first argument: the arguments
    are given already split. *)
Definition path_join (parts : list (list string)) : path :=
  normalize (concat parts).

(** [path.resolve(dir, target)] for an absolute [dir]. *)
Definition path_resolve (dir : path) (target : string) : path :=
  if is_absolute target then normalize (split_slash target)
  else normalize (dir ++ split_slash target).

(** [path.dirname] of a non-root path. *)
Definition path_dirname (p : path) : path := removelast p.

Fixpoint join_slash (p : path) : string :=
  match p with
  | [] => ""
  | c :: r => "/" +:+ c +:+ join_slash r
  end.

(** The string of an absolute path; the root is "/". *)
Definition path_string (p : path) : string :=
  match p with [] => "/" | _ => join_slash p end.

(** ** File contents, archives and the directory tree *)

(** One member of a tar archive. [ECorrupt] stands for a header the reader
    cannot parse (a damaged or truncated archive): the members before it
    are readable, the reader fails when it reaches it. *)
Inductive entry :=
  | EFile (p : path) (content : string) (mode : N)
  | EDir (p : path)
  | ELink (p : path) (target : string)
  | ECorrupt.

(** File contents, with the two container formats the code opens kept
    symbolic: [Gz d] is the gzip compression of [d], [Tar es] the tar
    serialisation of the members [es]. *)
Inductive data :=
  | Raw (s : string)
  | Tar (es : list entry)
  | Gz (d : data).

Inductive node :=
  | File (content : data) (mode : N)
  | Symlink (target : string)
  | Dir (children : list (string * node)).

(** The kind a [fs.Dirent] reports: that of the entry itself, links are
    not followed. *)
Inductive kind := KFile | KLink | KDir.

Definition kind_of (n : node) : kind :=
  match n with
  | File _ _ => KFile
  | Symlink _ => KLink
  | Dir _ => KDir
  end.

(** [stats.isDirectory()] and [stats.mode]; directories and links carry no
    mode of their own in the model. *)
Definition isDirectory (n : node) : bool :=
  match n with Dir _ => true | _ => false end.

Definition mode_of (n : node) : N :=
  match n with File _ m => m | _ => 511 end.

Definition mode_755 : N := 493.  (* 0o755 *)
Definition mode_644 : N := 420.  (* 0o644 *)

Section Assoc.
Context {V : Type}.

(** A directory keeps its entries in listing order; a name is looked up
    at its first occurrence. *)
Fixpoint assoc (k : string) (l : list (string * V)) : option V :=
  match l with
  | [] => None
  | (k', v) :: r => if decide (k = k') then Some v else assoc k r
  end.

Fixpoint replace (k : string) (v : V) (l : list (string * V)) : list (string * V) :=
  match l with
  | [] => []
  | (k', v') :: r =>
      if decide (k = k') then (k', v) :: r else (k', v') :: replace k v r
  end.

Fixpoint remove (k : string) (l : list (string * V)) : list (string * V) :=
  match l with
  | [] => []
  | (k', v') :: r => if decide (k = k') then remove k r else (k', v') :: remove k r
  end.

(** Writing a name: in place when it is listed, at the end otherwise. *)
Definition upsert (k : string) (v : V) (l : list (string * V)) : list (string * V) :=
  match assoc k l with
  | Some _ => replace k v l
  | None => l ++ [(k, v)]
  end.
End Assoc.

(** The node at a path, walking real directories only. *)
Fixpoint get (n : node) (p : path) : option node :=
  match p with
  | [] => Some n
  | c :: p' =>
      match n with
      | Dir cs => match assoc c cs with
                  | Some ch => get ch p'
                  | None => None
                  end
      | _ => None
      end
  end.

(** Put a node at a path whose parent is a real directory. *)
Fixpoint put (n : node) (p : path) (x : node) : option node :=
  match p with
  | [] => Some x
  | c :: p' =>
      match n with
      | Dir cs =>
          match p' with
          | [] => Some (Dir (upsert c x cs))
          | _ => match assoc c cs with
                 | Some ch => match put ch p' x with
                              | Some ch' => Some (Dir (replace c ch' cs))
                              | None => None
                              end
                 | None => None
                 end
          end
      | _ => None
      end
  end.

(** Remove the entry at a path. *)
Fixpoint del (n : node) (p : path) : option node :=
  match p with
  | [] => None
  | c :: p' =>
      match n with
      | Dir cs =>
          match p' with
          | [] => match assoc c cs with
                  | Some _ => Some (Dir (remove c cs))
                  | None => None
                  end
          | _ => match assoc c cs with
                 | Some ch => match del ch p' with
                              | Some ch' => Some (Dir (replace c ch' cs))
                              | None => None
                              end
                 | None => None
                 end
          end
      | _ => None
      end
  end.

(** The kernel gives up after this many links in one resolution (ELOOP). *)
Definition MAXSYMLINKS : nat := 40.

(** Resolution of a path to the real location it names, following every
    link on the way, the last component included. A link's target is
    resolved against the directory that holds the link. *)
Fixpoint realpath_from (links : nat) (fs : node) (cur : path) (rest : path) : option path :=
  (fix walk (cur : path) (rest : path) {struct rest} : option path :=
     match rest with
     | [] => Some cur
     | c :: rest' =>
         match get fs (cur ++ [c]) with
         | Some (Symlink t) =>
             match links with
             | O => None
             | S l => realpath_from l fs [] (path_resolve cur t ++ rest')
             end
         | Some _ => walk (cur ++ [c]) rest'
         | None => None
         end
     end) cur rest.

Definition realpath (fs : node) (p : path) : option path :=
  realpath_from MAXSYMLINKS fs [] p.

(** [fs.statSync]: the node a path names, links followed. *)
Definition stat (fs : node) (p : path) : option node :=
  match realpath fs p with
  | Some q => get fs q
  | None => None
  end.

(** The real location of an entry: its directory resolved, its own name
    kept. *)
Definition location (fs : node) (p : path) : option path :=
  match p with
  | [] => Some []
  | _ => match realpath fs (removelast p) with
         | Some d => Some (d ++ [List.last p ""])
         | None => None
         end
  end.

(** [fs.lstatSync]: the entry itself. *)
Definition lstat (fs : node) (p : path) : option node :=
  match location fs p with
  | Some q => get fs q
  | None => None
  end.

(** ** The host and the outcome of a call *)

Inductive errno :=
  ENOENT | ENOTDIR | EISDIR | EEXIST | EINVAL | ELOOP | EPERM | EACCES.

(** What the code throws. JavaScript has one [Error] class here, told apart
    by its message; each message gets a constructor. *)
Inductive exn :=
  | VersionRequired            (* 'version is required' *)
  | OptionsVersionRequired     (* 'options.version is required' *)
  | UnsupportedPlatform (key : string)   (* 'Unsupported platform: ...' *)
  | PackageNotDownloaded       (* 'Failed to find downloaded package' *)
  | BinaryNotFound (key : string)        (* 'patchelf binary not found for platform ...' *)
  | ExecFailed (cmd : string)  (* execSync: the command exited with an error *)
  | ZlibError                  (* gunzipSync: not gzip data *)
  | TarError                   (* Archive.unpack failed *)
  | InvalidArchive             (* new Archive(...): the bytes are not a tar archive *)
  | ModuleNotFound (name : string)       (* require.resolve *)
  | FsError (code : errno) (p : path).

Record host := {
  platform : string;                 (* process.platform *)
  arch : string;                     (* process.arch *)
  homedir : path;                    (* os.homedir() *)
  dirname : path;                    (* __dirname of the module that runs *)
  fs : node;                         (* the root directory *)
  tmp : list (string * data);        (* the files of os.tmpdir() *)
  registry : string -> string -> option (string * data);
                                     (* npm: package, version or tag to the
                                        version resolved and its tarball *)
  npm_log : list (string * string);  (* the [npm pack] calls made so far *)
  chmod_denied : path -> bool;       (* files whose mode this process may not change *)
  resolvable : string -> option path (* require.resolve *)
}.

Definition with_fs (h : host) (f : node) : host :=
  {| platform := platform h; arch := arch h; homedir := homedir h;
     dirname := dirname h; fs := f; tmp := tmp h; registry := registry h;
     npm_log := npm_log h; chmod_denied := chmod_denied h;
     resolvable := resolvable h |}.

Definition with_tmp (h : host) (t : list (string * data)) : host :=
  {| platform := platform h; arch := arch h; homedir := homedir h;
     dirname := dirname h; fs := fs h; tmp := t; registry := registry h;
     npm_log := npm_log h; chmod_denied := chmod_denied h;
     resolvable := resolvable h |}.

Definition with_npm_log (h : host) (l : list (string * string)) : host :=
  {| platform := platform h; arch := arch h; homedir := homedir h;
     dirname := dirname h; fs := fs h; tmp := tmp h; registry := registry h;
     npm_log := l; chmod_denied := chmod_denied h;
     resolvable := resolvable h |}.

(** A call returns or throws, and then carries the host it leaves behind;
    or the model has no outcome for it: the recursion bound was reached,
    or the call ran a command line that the shell does not pass on as it
    stands (see [npm_pack]). *)
Inductive outcome (A : Type) :=
  | Ret (a : A) (h : host)
  | Throw (e : exn) (h : host)
  | OutOfFuel.
Arguments Ret {A} a h.
Arguments Throw {A} e h.
Arguments OutOfFuel {A}.

Definition M (A : Type) := host -> outcome A.

Definition ret {A} (a : A) : M A := fun h => Ret a h.
Definition throw {A} (e : exn) : M A := fun h => Throw e h.
Definition bind {A B} (m : M A) (k : A -> M B) : M B :=
  fun h => match m h with
           | Ret a h' => k a h'
           | Throw e h' => Throw e h'
           | OutOfFuel => OutOfFuel
           end.

(** [try { m } catch (e) { handler }] *)
Definition try_catch {A} (m : M A) (handler : exn -> M A) : M A :=
  fun h => match m h with
           | Throw e h' => handler e h'
           | r => r
           end.

Notation "'let*' x := m 'in' k" := (bind m (fun x => k))
  (at level 10, x binder, m at level 100, k at level 200).
Notation "m ;; k" := (bind m (fun _ => k))
  (at level 100, right associativity).

(** [for (const x of l) body(x)] *)
Fixpoint for_of {A} (l : list A) (body : A -> M unit) : M unit :=
  match l with
  | [] => ret tt
  | x :: r => body x ;; for_of r body
  end.

Definition returned {A} (o : outcome A) : option (A * host) :=
  match o with Ret a h => Some (a, h) | _ => None end.

(** The host an outcome leaves behind. *)
Definition host_after {A} (o : outcome A) : option host :=
  match o with Ret _ h => Some h | Throw _ h => Some h | OutOfFuel => None end.

(** ** Node's [fs] module over the tree *)

(** [fs.existsSync]: links are followed, every error is [false]. *)
Definition existsSync (p : path) : M bool :=
  fun h => Ret (bool_decide (is_Some (stat (fs h) p))) h.

(** [fs.statSync] *)
Definition statSync (p : path) : M node :=
  fun h => match stat (fs h) p with
           | Some n => Ret n h
           | None => Throw (FsError ENOENT p) h
           end.

(** [fs.readdirSync(p, { withFileTypes: true })] *)
Definition readdirSync (p : path) : M (list (string * kind)) :=
  fun h => match stat (fs h) p with
           | Some (Dir cs) => Ret (map (fun e => (fst e, kind_of (snd e))) cs) h
           | Some _ => Throw (FsError ENOTDIR p) h
           | None => Throw (FsError ENOENT p) h
           end.

(** [fs.readlinkSync] *)
Definition readlinkSync (p : path) : M string :=
  fun h => match lstat (fs h) p with
           | Some (Symlink t) => Ret t h
           | Some _ => Throw (FsError EINVAL p) h
           | None => Throw (FsError ENOENT p) h
           end.

(** Store [x] at the real location [q]. *)
Definition store (q : path) (x : node) (blame : path) : M unit :=
  fun h => match put (fs h) q x with
           | Some f => Ret tt (with_fs h f)
           | None => Throw (FsError ENOTDIR blame) h
           end.

(** [fs.unlinkSync]: removes a file or a link, not a directory. *)
Definition unlinkSync (p : path) : M unit :=
  fun h => match location (fs h) p with
           | Some q =>
               match get (fs h) q with
               | Some (Dir _) => Throw (FsError EISDIR p) h
               | Some _ => match del (fs h) q with
                           | Some f => Ret tt (with_fs h f)
                           | None => Throw (FsError ENOENT p) h
                           end
               | None => Throw (FsError ENOENT p) h
               end
           | None => Throw (FsError ENOENT p) h
           end.

(** Where a write to [p] lands: at the entry's location, or at the file an
    existing link there resolves to. Creating the missing target of a
    dangling link is left out of the model (ENOENT). *)
Definition write_location (f : node) (p : path) : errno + path :=
  match location f p with
  | Some q =>
      match get f q with
      | Some (Dir _) => inl EISDIR
      | Some (Symlink _) =>
          match realpath f p with
          | Some q' => match get f q' with
                       | Some (Dir _) => inl EISDIR
                       | _ => inr q'
                       end
          | None => inl ENOENT
          end
      | _ => inr q
      end
  | None => inl ENOENT
  end.

(** [fs.copyFileSync(src, dst)]: contents and mode of the file [src] names. *)
Definition copyFileSync (src dst : path) : M unit :=
  fun h => match stat (fs h) src with
           | Some (File c m) =>
               match write_location (fs h) dst with
               | inr q => store q (File c m) dst h
               | inl e => Throw (FsError e dst) h
               end
           | Some _ => Throw (FsError EISDIR src) h
           | None => Throw (FsError ENOENT src) h
           end.

(** [fs.chmodSync]: the mode of the file the path names. Directories carry
    no mode in the model. *)
Definition chmodSync (p : path) (m : N) : M unit :=
  fun h => if chmod_denied h p then Throw (FsError EPERM p) h
           else match realpath (fs h) p with
                | Some q =>
                    match get (fs h) q with
                    | Some (File c _) => store q (File c m) p h
                    | Some _ => Ret tt h
                    | None => Throw (FsError ENOENT p) h
                    end
                | None => Throw (FsError ENOENT p) h
                end.

(** The target [fs.cpSync] gives the copy of a link that is found in the
    directory [dir]: an absolute target is kept as it is, a relative one
    is resolved against [dir]. *)
Definition absolute_target (dir : path) (t : string) : string :=
  if is_absolute t then t else path_string (path_resolve dir t).

(** The copy [fs.cpSync] makes of what it finds at the path [from]: files
    and directories are copied, a link stays a link. *)
Fixpoint copy_tree (from : path) (n : node) : node :=
  match n with
  | File c m => File c m
  | Symlink t => Symlink (absolute_target (removelast from) t)
  | Dir cs =>
      Dir ((fix copy_children (l : list (string * node)) : list (string * node) :=
              match l with
              | [] => []
              | (nm, ch) :: r => (nm, copy_tree (from ++ [nm]) ch) :: copy_children r
              end) cs)
  end.

(** [fs.cpSync(src, dst, { recursive: true })] to a destination that does
    not exist yet (the only use the code makes of it; merging into an
    existing destination is left out of the model, EEXIST). The source is
    taken as it is found, a link that ends the path is not followed:
    such a source gives a link. Copying a directory into itself is
    refused. *)
Definition cpSync (src dst : path) : M unit :=
  fun h => match location (fs h) src with
           | Some ls =>
               match get (fs h) ls with
               | Some n =>
                   match location (fs h) dst with
                   | Some q =>
                       match get (fs h) q with
                       | Some _ => Throw (FsError EEXIST dst) h
                       | None =>
                           if isDirectory n && bool_decide (ls `prefix_of` q)
                           then Throw (FsError EINVAL dst) h
                           else store q (copy_tree src n) dst h
                       end
                   | None => Throw (FsError ENOENT dst) h
                   end
               | None => Throw (FsError ENOENT src) h
               end
           | None => Throw (FsError ENOENT src) h
           end.

(** [fs.symlinkSync(target, p)]: a new link at [p], which must not name
    anything yet; the target is stored as given. *)
Definition symlinkSync (target : string) (p : path) : M unit :=
  fun h => match location (fs h) p with
           | Some q =>
               match get (fs h) q with
               | Some _ => Throw (FsError EEXIST p) h
               | None => store q (Symlink target) p h
               end
           | None => Throw (FsError ENOENT p) h
           end.

(** [fs.readdirSync(p)]: the names only. *)
Definition readdirSync_names (p : path) : M (list string) :=
  let* entries := readdirSync p in
  ret (map fst entries).

(** [fs.mkdirSync(p, { recursive: true })], component by component. *)
Fixpoint mkdir_from (done : path) (rest : path) : M unit :=
  match rest with
  | [] => ret tt
  | c :: r =>
      fun h =>
        match stat (fs h) (done ++ [c]) with
        | Some (Dir _) => mkdir_from (done ++ [c]) r h
        | Some _ => Throw (FsError EEXIST (done ++ [c])) h
        | None =>
            match lstat (fs h) (done ++ [c]) with
            | Some _ => Throw (FsError EEXIST (done ++ [c])) h
            | None =>
                match location (fs h) (done ++ [c]) with
                | Some q => (store q (Dir []) (done ++ [c]) ;;
                             mkdir_from (done ++ [c]) r) h
                | None => Throw (FsError ENOENT (done ++ [c])) h
                end
            end
        end
  end.

Definition mkdirSync (p : path) : M unit := mkdir_from [] p.

(** [fs.accessSync(p, fs.constants.X_OK)]: some execute bit is set. *)
Definition accessSync_X (p : path) : M unit :=
  fun h => match stat (fs h) p with
           | Some (File _ m) =>
               if bool_decide (N.land m 73 = 0%N)  (* 0o111 *)
               then Throw (FsError EACCES p) h else Ret tt h
           | Some _ => Ret tt h
           | None => Throw (FsError ENOENT p) h
           end.

(** [require.resolve(name)] *)
Definition require_resolve (name : string) : M path :=
  fun h => match resolvable h name with
           | Some p => Ret p h
           | None => Throw (ModuleNotFound name) h
           end.

(** [path.join(dir, entry.name)] for the name of a directory entry, which
    is never "", "." or ".." and holds no separator. *)
Definition join_name (dir : path) (name : string) : path := dir ++ [name].

(** ** The temporary directory, npm and the archive reader *)

(** [fs.readdirSync] returns the names sorted, byte by byte. *)
Fixpoint insert_name (x : string) (l : list string) : list string :=
  match l with
  | [] => [x]
  | y :: r => if String.leb x y then x :: y :: r else y :: insert_name x r
  end.

Fixpoint sort_names (l : list string) : list string :=
  match l with
  | [] => []
  | x :: r => insert_name x (sort_names r)
  end.

(** [fs.readdirSync(os.tmpdir())] *)
Definition tmp_readdirSync : M (list string) :=
  fun h => Ret (sort_names (map fst (tmp h))) h.

(** [fs.readFileSync(path.join(os.tmpdir(), name))] *)
Definition tmp_readFileSync (name : string) : M data :=
  fun h => match assoc name (tmp h) with
           | Some d => Ret d h
           | None => Throw (FsError ENOENT [name]) h
           end.

(** [fs.rmSync(path.join(os.tmpdir(), name))] *)
Definition tmp_rmSync (name : string) : M unit :=
  fun h => match assoc name (tmp h) with
           | Some _ => Ret tt (with_tmp h (remove name (tmp h)))
           | None => Throw (FsError ENOENT [name]) h
           end.

Fixpoint dash_slashes (s : string) : string :=
  match s with
  | EmptyString => EmptyString
  | String c r =>
      String (if bool_decide (c = "/"%char) then "-"%char else c) (dash_slashes r)
  end.

(** The file name [npm pack] gives a tarball: the package name without its
    leading "@" and with "/" turned into "-", then the version. *)
Definition tarball_name (name ver : string) : string :=
  dash_slashes (match name with
                | String "@"%char r => r
                | _ => name
                end) +:+ "-" +:+ ver +:+ ".tgz".

(** A character the shell passes on as it stands wherever it occurs in a
    word: a letter, a digit, or one of [. _ - + @ /]. *)
Definition shell_char (c : ascii) : bool :=
  let n := N_of_ascii c in
  ((48 <=? n) && (n <=? 57) || (65 <=? n) && (n <=? 90)
   || (97 <=? n) && (n <=? 122))%N
  || bool_decide (c ∈ ["."; "_"; "-"; "+"; "@"; "/"]%char).

Fixpoint shell_word (s : string) : bool :=
  match s with
  | EmptyString => true
  | String c r => shell_char c && shell_word r
  end.

(** [execSync(`npm pack ${name}@${version}`, { cwd: os.tmpdir() })]: one
    transport call. The command line goes through a shell: when the
    argument is a plain word, [npm pack] gets it as it stands, the
    registry resolves the version or tag and the tarball is written to
    the working directory, and a failing command throws. For an argument
    with any other character (white space, quotes, [;], [$], ...) what
    runs is up to the shell, and the model has no outcome. *)
Definition npm_pack (name version : string) : M unit :=
  fun h =>
    if negb (shell_word (name +:+ "@" +:+ version)) then OutOfFuel
    else
      let h1 := with_npm_log h (npm_log h ++ [(name, version)]) in
      match registry h name version with
      | Some (ver, d) => Ret tt (with_tmp h1 (upsert (tarball_name name ver) d (tmp h1)))
      | None => Throw (ExecFailed ("npm pack " +:+ name +:+ "@" +:+ version)) h1
      end.

(** [zlib.gunzipSync] *)
Definition gunzipSync (d : data) : M data :=
  match d with
  | Gz d' => ret d'
  | _ => throw ZlibError
  end.

(** [new Archive(tarData)] of @napi-rs/tar looks at the bytes and throws
    when they are not a tar archive; the members are read when the
    archive is unpacked. *)
Definition Archive := data.

Definition newArchive (tarData : data) : M Archive :=
  match tarData with
  | Tar es => ret (Tar es)
  | _ => throw InvalidArchive
  end.

(** Directories the reader creates on the way to a member, below the real
    location [at]: an existing directory is entered, anything else in the
    way is an error. *)
Fixpoint tar_mkdirs (at_ : path) (rel : path) : M unit :=
  match rel with
  | [] => ret tt
  | c :: r =>
      fun h =>
        match get (fs h) (at_ ++ [c]) with
        | Some (Dir _) => tar_mkdirs (at_ ++ [c]) r h
        | Some _ => Throw TarError h
        | None =>
            match put (fs h) (at_ ++ [c]) (Dir []) with
            | Some f => tar_mkdirs (at_ ++ [c]) r (with_fs h f)
            | None => Throw TarError h
            end
        end
  end.

(** A file or link member replaces what is at its place, except a
    directory. *)
Definition tar_write (q : path) (x : node) : M unit :=
  fun h =>
    match get (fs h) q with
    | Some (Dir _) => Throw TarError h
    | _ => match put (fs h) q x with
           | Some f => Ret tt (with_fs h f)
           | None => Throw TarError h
           end
    end.

(** The path of a member as the reader takes it: the components "" and
    "." count for nothing. *)
Definition clean_path (p : path) : path :=
  filter (λ c, c ≠ "" ∧ c ≠ ".") p.

(** The permission bits of a header mode: the low nine bits. *)
Definition perm_bits (m : N) : N := N.land m 511.  (* 0o777 *)

(** One member, unpacked below the real location [root]. A member whose
    path holds ".." is skipped, and so is one whose path names the
    destination itself; of the mode in the header the permission bits are
    kept. *)
Definition unpack_entry (root : path) (e : entry) : M unit :=
  match e with
  | EFile p c m =>
      if bool_decide (".." ∈ p) then ret tt
      else match clean_path p with
           | [] => ret tt
           | q => tar_mkdirs root (removelast q) ;;
                  tar_write (root ++ q) (File (Raw c) (perm_bits m))
           end
  | EDir p =>
      if bool_decide (".." ∈ p) then ret tt
      else tar_mkdirs root (clean_path p)
  | ELink p t =>
      if bool_decide (".." ∈ p) then ret tt
      else match clean_path p with
           | [] => ret tt
           | q => tar_mkdirs root (removelast q) ;;
                  tar_write (root ++ q) (Symlink t)
           end
  | ECorrupt => throw TarError
  end.

(** [archive.unpack(dest)]: the members in archive order; the first failure
    ends the call and leaves what was unpacked before it. *)
Definition unpack (archive : Archive) (dest : path) : M unit :=
  match archive with
  | Tar es =>
      fun h => match realpath (fs h) dest with
               | Some root =>
                   match get (fs h) root with
                   | Some (Dir _) => for_of es (unpack_entry root) h
                   | _ => Throw TarError h
                   end
               | None => Throw TarError h
               end
  | _ => throw TarError
  end.

(** ** packages/python: index.js *)

Module Python.

Definition SCOPE : string := "@xspect-build".

(** [path.join(os.homedir(), '.xspect-build', 'python')] *)
Definition CACHE_DIR (h : host) : path :=
  path_join [homedir h; [".xspect-build"]; ["python"]].

(** The keys hold a "-", so a lookup never reaches a property inherited
    from [Object.prototype]. *)
Definition platformPackageMap : list (string * string) :=
  [ ("linux-arm64", SCOPE +:+ "/python-linux-arm64");
    ("linux-x64", SCOPE +:+ "/python-linux-x64") ].

Definition platformKey (h : host) : string := platform h +:+ "-" +:+ arch h.

(** [platformPackageMap[platformKey] || null] *)
Definition getPlatformPackageName : M (option string) :=
  fun h => Ret (assoc (platformKey h) platformPackageMap) h.

Definition is_tarball (f : string) : bool :=
  startsWith "xspect-build-python-" f && endsWith ".tgz" f.

(** The first half of [download]: up to the choice of [tgzFileName]. *)
Definition download_locate (version : string) : M string :=
  if bool_decide (version = "") then throw VersionRequired
  else
    let* packageName := getPlatformPackageName in
    match packageName with
    | None => fun h => Throw (UnsupportedPlatform (platformKey h)) h
    | Some packageName =>
        npm_pack packageName version ;;
        let* files := tmp_readdirSync in
        match find is_tarball files with
        | None => throw PackageNotDownloaded
        | Some tgzFileName => ret tgzFileName
        end
    end.

(** The second half of [download]: read, decompress, clean up. *)
Definition download_read (tgzFileName : string) : M Archive :=
  let* tgzData := tmp_readFileSync tgzFileName in
  let* tarData := gunzipSync tgzData in
  tmp_rmSync tgzFileName ;;
  newArchive tarData.

Definition download (version : string) : M Archive :=
  if bool_decide (version = "") then throw VersionRequired
  else
    let* packageName := getPlatformPackageName in
    match packageName with
    | None => fun h => Throw (UnsupportedPlatform (platformKey h)) h
    | Some packageName =>
        npm_pack packageName version ;;
        let* files := tmp_readdirSync in
        match find is_tarball files with
        | None => throw PackageNotDownloaded
        | Some tgzFileName =>
            let* tgzData := tmp_readFileSync tgzFileName in
            let* tarData := gunzipSync tgzData in
            tmp_rmSync tgzFileName ;;
            newArchive tarData
        end
    end.

Fixpoint fixPermissions (fuel : nat) (dir : path) : M unit :=
  match fuel with
  | O => fun _ => OutOfFuel
  | S k =>
      let* present := existsSync dir in
      if negb present then ret tt
      else
        let* entries := readdirSync dir in
        for_of entries (fun entry =>
          let fullPath := join_name dir (fst entry) in
          match snd entry with
          | KDir => fixPermissions k fullPath
          | KFile => try_catch (chmodSync fullPath mode_755) (fun _ => ret tt)
          | KLink => ret tt
          end)
  end.

Definition destPath_of (h : host) (dest : option path) (version : string) : path :=
  match dest with
  | Some d => d
  | None => path_join [CACHE_DIR h; split_slash version]
  end.

Definition pythonDir_of (destPath : path) : path :=
  path_join [destPath; ["package"]; ["python"]].

Definition markerFile_of (destPath : path) : path :=
  path_join [destPath; ["package.json"]].

Definition extract (fuel : nat) (dest : option path) (version : string) : M path :=
  if bool_decide (version = "") then throw OptionsVersionRequired
  else fun h =>
    let destPath := destPath_of h dest version in
    let pythonDir := pythonDir_of destPath in
    let markerFile := markerFile_of destPath in
    (let* marked := existsSync markerFile in
     if marked then ret pythonDir
     else
       let* archive := download version in
       mkdirSync destPath ;;
       unpack archive destPath ;;
       fixPermissions fuel (path_join [pythonDir; ["bin"]]) ;;
       ret pythonDir) h.

Record options := { version : string; dest : option path }.

Definition getPythonPath (fuel : nat) (o : options) : M path :=
  if bool_decide (version o = "") then throw OptionsVersionRequired
  else extract fuel (dest o) (version o).

End Python.

(** ** packages/patchelf: index.js *)

Module Patchelf.

Definition platformPackageMap : list (string * string) :=
  [ ("darwin-arm64", "@xspect-build/patchelf-darwin-arm64");
    ("darwin-x64", "@xspect-build/patchelf-darwin-x64");
    ("linux-arm64", "@xspect-build/patchelf-linux-arm64");
    ("linux-arm", "@xspect-build/patchelf-linux-arm");
    ("linux-x64", "@xspect-build/patchelf-linux-x64") ].

Definition platformKey (h : host) : string := platform h +:+ "-" +:+ arch h.

Definition possiblePaths (h : host) (packageName : string) : list path :=
  [ path_join [dirname h; [".."]; ["node_modules"]; split_slash packageName; ["bin"]; ["patchelf"]];
    path_join [dirname h; [".."]; [".."]; split_slash packageName; ["bin"]; ["patchelf"]];
    path_join [dirname h; [".."]; [".."]; [".pnpm"]; ["node_modules"]; split_slash packageName; ["bin"]; ["patchelf"]] ].

(** The [for] loop over [possiblePaths], its [return] included: the first
    path that exists. *)
Fixpoint first_existing (l : list path) : M (option path) :=
  match l with
  | [] => ret None
  | binPath :: r =>
      let* present := existsSync binPath in
      if present then ret (Some binPath) else first_existing r
  end.

Definition findBinaryPath : M (option path) :=
  fun h =>
    match assoc (platformKey h) platformPackageMap with
    | None => Ret None h
    | Some packageName =>
        (let* found := first_existing (possiblePaths h packageName) in
         match found with
         | Some binPath => ret (Some binPath)
         | None =>
             try_catch
               (let* packagePath := require_resolve (packageName +:+ "/package.json") in
                let binPath := path_join [path_dirname packagePath; ["bin"]; ["patchelf"]] in
                let* present := existsSync binPath in
                if present then ret (Some binPath) else ret None)
               (fun _ => ret None)
         end) h
    end.

Definition getPatchelfPath : M path :=
  let* binaryPath := findBinaryPath in
  match binaryPath with
  | None => fun h => Throw (BinaryNotFound (platformKey h)) h
  | Some binaryPath => ret binaryPath
  end.

Definition isPatchelfAvailable : M bool :=
  try_catch
    (let* binaryPath := getPatchelfPath in
     accessSync_X binaryPath ;;
     ret true)
    (fun _ => ret false).

Definition getBinDir : M path :=
  let* binaryPath := getPatchelfPath in
  ret (path_dirname binaryPath).

End Patchelf.

(** ** packages/patchelf: the postinstall script *)

Module Postinstall.

Definition findPackageDir : M (option path) :=
  fun h =>
    match assoc (Patchelf.platformKey h) Patchelf.platformPackageMap with
    | None => Ret None h
    | Some packageName =>
        try_catch
          (let* packagePath := require_resolve (packageName +:+ "/package.json") in
           ret (Some (path_dirname packagePath)))
          (fun _ => ret None) h
    end.

Fixpoint fixPermissions (fuel : nat) (dir : path) : M unit :=
  match fuel with
  | O => fun _ => OutOfFuel
  | S k =>
      let* present := existsSync dir in
      if negb present then ret tt
      else
        let* entries := readdirSync dir in
        for_of entries (fun entry =>
          let fullPath := join_name dir (fst entry) in
          match snd entry with
          | KDir => fixPermissions k fullPath
          | KFile => try_catch (chmodSync fullPath mode_755) (fun _ => ret tt)
          | KLink => ret tt
          end)
  end.

(** The body of the script. *)
Definition main (fuel : nat) : M unit :=
  let* packageDir := findPackageDir in
  match packageDir with
  | Some packageDir =>
      fixPermissions fuel (path_join [packageDir; ["bin"]]) ;;
      fixPermissions fuel (path_join [packageDir; ["libexec"]])
  | None => ret tt
  end.

End Postinstall.

(** ** scripts/build-python.js *)

Module BuildPython.

Fixpoint replaceSymlinks (fuel : nat) (dir : path) : M unit :=
  match fuel with
  | O => fun _ => OutOfFuel
  | S k =>
      let* entries := readdirSync dir in
      for_of entries (fun entry =>
        let fullPath := join_name dir (fst entry) in
        match snd entry with
        | KLink =>
            let* target := readlinkSync fullPath in
            let targetPath := path_resolve dir target in
            unlinkSync fullPath ;;
            let* present := existsSync targetPath in
            if present then
              let* st := statSync targetPath in
              if isDirectory st then cpSync targetPath fullPath
              else
                copyFileSync targetPath fullPath ;;
                chmodSync fullPath (mode_of st)
            else ret tt
        | KDir => replaceSymlinks k fullPath
        | KFile => ret tt
        end)
  end.

(** [obj[key] = value] on a plain object kept as the list of its own
    properties: an assignment to a name already there replaces its value,
    and an assignment of a string to [__proto__] is dropped by the setter
    that [Object.prototype] has for that name. *)
Definition set_property (key value : string) (obj : list (string * string))
    : list (string * string) :=
  if bool_decide (key = "__proto__") then obj else upsert key value obj.

(** The loop of [buildPythonPackage] that fills [binEntries] from the
    names in [binDir]: a name is kept when it is a regular file with some
    execute bit whose name does not end in [-config]. *)
Fixpoint scanBin (binDir : path) (binFiles : list string)
    (binEntries : list (string * string)) : M (list (string * string)) :=
  match binFiles with
  | [] => ret binEntries
  | file :: r =>
      let filePath := join_name binDir file in
      let* st := statSync filePath in
      if match st with File _ _ => true | _ => false end
         && negb (bool_decide (N.land (mode_of st) 73 = 0%N))   (* 0o111 *)
         && negb (endsWith "-config" file)
      then scanBin binDir r (set_property file ("python/bin/" +:+ file) binEntries)
      else scanBin binDir r binEntries
  end.

(** [binEntries] as [buildPythonPackage] computes it for [pythonDir]. *)
Definition binEntries (pythonDir : path) : M (list (string * string)) :=
  let binDir := path_join [pythonDir; ["bin"]] in
  let* present := existsSync binDir in
  if present then
    let* binFiles := readdirSync_names binDir in
    scanBin binDir binFiles []
  else ret [].

(** The argument loop at the end of the script: [--release] takes the
    next argument when there is one and it is not empty; any other
    argument that does not start with "-" is the platform, the last one
    wins. *)
Fixpoint parseArgs (args : list string) (platform release : option string)
    : option string * option string :=
  match args with
  | [] => (platform, release)
  | a :: r =>
      if bool_decide (a = "--release")
      then match r with
           | v :: r' =>
               if bool_decide (v = "") then parseArgs r platform release
               else parseArgs r' platform (Some v)
           | [] => (platform, release)
           end
      else if negb (startsWith "-" a) then parseArgs r (Some a) release
      else parseArgs r platform release
  end.

(** What the script goes on with: the two arguments of
    [buildPythonPackage], or [None] when it prints the usage and exits
    with status 1. *)
Definition cli (args : list string) : option (string * string) :=
  match parseArgs args None None with
  | (Some platform, Some release) =>
      if bool_decide (platform = "") || bool_decide (release = "") then None
      else Some (platform, release)
  | _ => None
  end.

End BuildPython.

(** ** scripts/build-platform.js *)

Module BuildPlatform.

Definition ensureDir (dir : path) : M unit :=
  let* present := existsSync dir in
  if negb present then mkdirSync dir else ret tt.

Definition copyFile (src dest : path) : M unit :=
  ensureDir (path_dirname dest) ;;
  copyFileSync src dest.

Fixpoint copyDir (fuel : nat) (src dest : path) : M unit :=
  match fuel with
  | O => fun _ => OutOfFuel
  | S k =>
      ensureDir dest ;;
      let* entries := readdirSync src in
      for_of entries (fun entry =>
        let srcPath := join_name src (fst entry) in
        let destPath := join_name dest (fst entry) in
        match snd entry with
        | KDir => copyDir k srcPath destPath
        | KLink =>
            let* linkTarget := readlinkSync srcPath in
            symlinkSync linkTarget destPath
        | KFile =>
            copyFileSync srcPath destPath ;;
            let* stats := statSync srcPath in
            chmodSync destPath (mode_of stats)
        end)
  end.

(** [s.split('-')] *)
Fixpoint split_dash (s : string) : list string :=
  match s with
  | EmptyString => [""]
  | String c s' =>
      if bool_decide (c = "-"%char) then "" :: split_dash s'
      else match split_dash s' with
           | h :: t => String c h :: t
           | [] => [String c ""]
           end
  end.

(** The platform argument of [buildPlatformPackage]:
    [const [os, cpu] = platform.split('-')], refused when one of the two
    is missing or empty ([None]: the script prints 'Invalid platform
    format' and exits). *)
Definition parsePlatform (platform : string) : option (string * string) :=
  match split_dash platform with
  | os :: cpu :: _ =>
      if bool_decide (os = "") || bool_decide (cpu = "") then None
      else Some (os, cpu)
  | _ => None
  end.

End BuildPlatform.


(** ** Definitions used by the statements *)

Fixpoint has_dash (s : string) : bool :=
  match s with
  | EmptyString => false
  | String c r => bool_decide (c = "-"%char) || has_dash r
  end.

(** The pairs of the interpreter's platform table. *)
Definition supported : list (string * string) :=
  [ ("linux", "arm64"); ("linux", "x64") ].

(** [fs.existsSync] as a test on the tree. *)
Definition exists_at (f : node) (p : path) : bool :=
  bool_decide (is_Some (stat f p)).

(** The install locations the resolver probes, in order: the direct
    dependency, the hoisted one, the pnpm store, and last the directory
    module resolution finds, when it finds one. Empty for a platform
    outside the table. *)
Definition candidates (h : host) : list path :=
  match assoc (Patchelf.platformKey h) Patchelf.platformPackageMap with
  | None => []
  | Some packageName =>
      Patchelf.possiblePaths h packageName
      ++ match resolvable h (packageName +:+ "/package.json") with
         | Some packagePath =>
             [path_join [path_dirname packagePath; ["bin"]; ["patchelf"]]]
         | None => []
         end
  end.

(** A host with nothing installed. *)
Definition bare_host (os cpu : string) (root : node) : host :=
  {| platform := os; arch := cpu; homedir := ["home"; "u"];
     dirname := ["app"; "node_modules"; "@xspect-build"; "patchelf"; "lib"];
     fs := root; tmp := []; registry := fun _ _ => None; npm_log := [];
     chmod_denied := fun _ => false; resolvable := fun _ => None |}.

(** The direct install location holds a directory named [patchelf]. *)
Definition host_bin_is_dir : host :=
  bare_host "linux" "x64"
    (Dir [("app", Dir [("node_modules", Dir [("@xspect-build", Dir
       [("patchelf", Dir [("lib", Dir []);
          ("node_modules", Dir [("@xspect-build", Dir
             [("patchelf-linux-x64", Dir [("bin", Dir
                [("patchelf", Dir [])])])])])])])])])]).

(** A registry that serves one tarball for each version of a list. *)
Definition registry_of (l : list (string * data)) : string → string → option (string * data) :=
  fun _ version =>
    match assoc version l with
    | Some d => Some (version, d)
    | None => None
    end.

(** A linux-x64 host over the tree [root], with the temporary directory
    [files] and the registry [reg]. *)
Definition linux_host (root : node) (files : list (string * data))
    (reg : list (string * data)) : host :=
  {| platform := "linux"; arch := "x64"; homedir := ["home"; "u"];
     dirname := ["app"; "node_modules"; "@xspect-build"; "python"];
     fs := root; tmp := files; registry := registry_of reg; npm_log := [];
     chmod_denied := fun _ => false; resolvable := fun _ => None |}.

(** The tarball [npm pack] makes of a platform package: everything lives
    under [package/]. *)
Definition npm_tarball (payload : string) : data :=
  Gz (Tar [ EFile ["package"; "package.json"] "{ }" mode_644;
            EDir ["package"; "python"];
            EDir ["package"; "python"; "bin"];
            EFile ["package"; "python"; "bin"; "python3"] payload mode_644 ]).

Definition home_tree : node := Dir [("home", Dir [("u", Dir [])])].


(** The registry serves bytes that are not gzip data. *)
Definition host_corrupt : host :=
  linux_host home_tree [] [("1.0.0", Raw "garbage")].


(** The registry serves gzip data that holds no tar archive. *)
Definition host_not_tar : host :=
  linux_host home_tree [] [("1.0.0", Gz (Raw "garbage"))].

(** Two versions are published; nothing is in the temporary directory. *)
Definition host_two_versions : host :=
  linux_host home_tree []
    [("1.0.0", npm_tarball "one"); ("2.0.0", npm_tarball "two")].

Definition is_link (n : node) : bool :=
  match n with Symlink _ => true | _ => false end.

(** The tree with every file mode forgotten: what stays the same when only
    modes change. *)
Fixpoint erase (n : node) : node :=
  match n with
  | File c _ => File c 0
  | Symlink t => Symlink t
  | Dir cs =>
      Dir ((fix erase_children (l : list (string * node)) : list (string * node) :=
              match l with
              | [] => []
              | (nm, ch) :: r => (nm, erase ch) :: erase_children r
              end) cs)
  end.

(** A relation between the host before a call and the host it leaves,
    whether the call returns or throws. *)
Definition preserves {A} (R : host → host → Prop) (m : M A) : Prop :=
  ∀ h, match m h with
       | Ret _ h' => R h h'
       | Throw _ h' => R h h'
       | OutOfFuel => True
       end.

(** Only the tree changed. *)
Definition same_env (h h' : host) : Prop := h' = with_fs h (fs h').

(** Only file modes changed, and each either stayed or became 0o755. *)
Definition pushed (f f' : node) : Prop :=
  erase f = erase f'
  ∧ ∀ q c m0 c' m, get f q = Some (File c m0) → get f' q = Some (File c' m) →
                   m = m0 ∨ m = mode_755.

Definition modes_only (h h' : host) : Prop :=
  same_env h h' ∧ pushed (fs h) (fs h').

(** The body of the loop of [fixPermissions], for one directory entry. *)
Definition fix_entry (k : nat) (dir : path) (entry : string * kind) : M unit :=
  let fullPath := join_name dir (fst entry) in
  match snd entry with
  | KDir => Python.fixPermissions k fullPath
  | KFile => try_catch (chmodSync fullPath mode_755) (fun _ => ret tt)
  | KLink => ret tt
  end.

(** How a call ended, without the host or the value. *)
Inductive verdict := Returned | Thrown (e : exn) | CutOff.

Definition verdict_of {A} (o : outcome A) : verdict :=
  match o with
  | Ret _ _ => Returned
  | Throw e _ => Thrown e
  | OutOfFuel => CutOff
  end.

(** The same host with another set of files whose mode may not change. *)
Definition with_chmod_denied (h : host) (d : path → bool) : host :=
  {| platform := platform h; arch := arch h; homedir := homedir h;
     dirname := dirname h; fs := fs h; tmp := tmp h; registry := registry h;
     npm_log := npm_log h; chmod_denied := d; resolvable := resolvable h |}.

(** Only the temporary directory and the log of transport calls changed. *)
Definition tmp_log_only (h h' : host) : Prop :=
  h' = with_npm_log (with_tmp h (tmp h')) (npm_log h').

Definition redeny {A} (d : path → bool) (o : outcome A) : outcome A :=
  match o with
  | Ret a h => Ret a (with_chmod_denied h d)
  | Throw e h => Throw e (with_chmod_denied h d)
  | OutOfFuel => OutOfFuel
  end.

(** A call that never looks at which files refuse a change of mode. *)
Definition denial_blind {A} (m : M A) : Prop :=
  ∀ d h, m (with_chmod_denied h d) = redeny d (m h).

(** The tarball of a payload with a [libexec] directory next to [bin]. *)
Definition tarball_with_libexec : data :=
  Gz (Tar [ EFile ["package"; "package.json"] "{ }" mode_644;
            EFile ["package"; "python"; "bin"; "python3"] "ELF" mode_644;
            EFile ["package"; "python"; "libexec"; "helper"] "ELF" mode_644 ]).

Definition host_libexec : host :=
  linux_host home_tree [] [("1.0.0", tarball_with_libexec)].

(** The same, on a host where no mode may be changed. *)
Definition host_all_denied : host :=
  with_chmod_denied host_libexec (fun _ => true).

(** Walking [p] from [n] meets real directories only, up to its end or up
    to the first name that does not exist: the path names a directory, or
    [mkdir -p] can create it. *)
Fixpoint dir_or_fresh (n : node) (p : path) : bool :=
  match p with
  | [] => isDirectory n
  | c :: r =>
      match n with
      | Dir cs => match assoc c cs with
                  | Some ch => dir_or_fresh ch r
                  | None => true
                  end
      | _ => false
      end
  end.

(** The first component of a member's path, as the reader takes it. *)
Definition entry_head (e : entry) : option string :=
  match e with
  | EFile p _ _ => head (clean_path p)
  | EDir p => head (clean_path p)
  | ELink p _ => head (clean_path p)
  | ECorrupt => None
  end.

(** The directory [root] stays a directory and its entry [nm] is left
    alone. *)
Definition keeps (root : path) (nm : string) (h h' : host) : Prop :=
  ((∃ cs, get (fs h) root = Some (Dir cs)) → ∃ cs', get (fs h') root = Some (Dir cs'))
  ∧ get (fs h') (root ++ [nm]) = get (fs h) (root ++ [nm]).

(** A component that normalisation keeps. *)
Definition plain_name (c : string) : Prop := c ≠ "" ∧ c ≠ "." ∧ c ≠ "..".

(** What [extract] does when it finds no marker: fetch, create the
    destination, unpack, fix the permissions. *)
Definition materialize (fuel : nat) (destPath : path) (version : string) : M path :=
  let pythonDir := Python.pythonDir_of destPath in
  let* archive := Python.download version in
  mkdirSync destPath ;;
  unpack archive destPath ;;
  Python.fixPermissions fuel (path_join [pythonDir; ["bin"]]) ;;
  ret pythonDir.

(** The registry serves the tarball [npm pack] makes. *)
Definition host_npm : host :=
  linux_host home_tree [] [("1.0.0", npm_tarball "ELF")].



(** The registry is unreachable. *)
Definition host_offline : host := linux_host home_tree [] [].

(** The body of the loop of [replaceSymlinks] for a link entry. *)
Definition replace_link (dir : path) (fullPath : path) : M unit :=
  let* target := readlinkSync fullPath in
  let targetPath := path_resolve dir target in
  unlinkSync fullPath ;;
  let* present := existsSync targetPath in
  if present then
    let* st := statSync targetPath in
    if isDirectory st then cpSync targetPath fullPath
    else
      copyFileSync targetPath fullPath ;;
      chmodSync fullPath (mode_of st)
  else ret tt.

(** The body of the loop of [replaceSymlinks], for one directory entry. *)
Definition replace_entry (k : nat) (dir : path) (entry : string * kind) : M unit :=
  let fullPath := join_name dir (fst entry) in
  match snd entry with
  | KLink => replace_link dir fullPath
  | KDir => BuildPython.replaceSymlinks k fullPath
  | KFile => ret tt
  end.

(** No directory of the tree lists a name twice. *)
Fixpoint wf (n : node) : bool :=
  match n with
  | Dir cs =>
      bool_decide (NoDup (map fst cs))
      && (fix wf_children (l : list (string * node)) : bool :=
            match l with
            | [] => true
            | (_, ch) :: r => wf ch && wf_children r
            end) cs
  | _ => true
  end.

(** Some real directory on the way along [p] lacks the next name: the
    path names nothing, and no link is involved. *)
Fixpoint lacks (n : node) (p : path) : bool :=
  match p with
  | [] => false
  | c :: r =>
      match n with
      | Dir cs => match assoc c cs with
                  | Some ch => lacks ch r
                  | None => true
                  end
      | _ => false
      end
  end.

(** Nothing changed at the paths that are neither below one of the
    entries [names] of [d] nor on the way to [d]. *)
Definition outside (d : path) (names : list string) (f f' : node) : Prop :=
  ∀ q, (∀ nm, nm ∈ names → ¬ (d ++ [nm]) `prefix_of` q) → ¬ q `prefix_of` d →
       get f' q = get f q.

(** Nothing changed at the paths that are neither below [d] nor on the way
    to it. *)
Definition apart (d : path) (f f' : node) : Prop :=
  ∀ q, ¬ d `prefix_of` q → ¬ q `prefix_of` d → get f' q = get f q.

(** Regular files stay as they are, directories stay directories, and a
    name a directory lacks stays absent. *)
Definition persists (f f' : node) : Prop :=
  (∀ q c m, get f q = Some (File c m) → get f' q = Some (File c m))
  ∧ (∀ q cs, get f q = Some (Dir cs) → ∃ cs', get f' q = Some (Dir cs'))
  ∧ (∀ q c cs, get f q = Some (Dir cs) → assoc c cs = None → get f' (q ++ [c]) = None).

(** A payload tree: [bin/python] and [bin/python3] are links, the first
    to a file that is gone; [lib64] links to the directory [lib]. *)
Definition python_tree : node :=
  Dir [("dist", Dir [("python", Dir
    [ ("bin", Dir [ ("python", Symlink "python2.7");
                    ("python3", Symlink "python3.9");
                    ("python3.9", File (Raw "ELF") mode_755) ]);
      ("lib", Dir [ ("libpython3.9.so", File (Raw "SO") mode_644) ]);
      ("lib64", Symlink "lib") ])])].

(** A payload tree with links to links: [bin/python] leads to the
    interpreter through [bin/python3], [bin/idle3] leads to [bin/idle],
    whose target is gone;
    [inc] links to the directory
    [include], which holds a link of its own; [lib32] links to [lib64],
    itself a link to the directory [lib]. *)
Definition python_dist : node :=
  Dir [("dist", Dir [("python", Dir
    [ ("bin", Dir [ ("idle", Symlink "idle3.8");
                    ("idle3", Symlink "idle");
                    ("python", Symlink "python3");
                    ("python3", Symlink "python3.9");
                    ("python3.9", File (Raw "ELF") mode_755) ]);
      ("inc", Symlink "include");
      ("include", Dir [ ("Python.h", File (Raw "H") mode_644);
                        ("python.h", Symlink "Python.h") ]);
      ("lib", Dir [ ("libpython3.9.so", File (Raw "SO") mode_644) ]);
      ("lib32", Symlink "lib64");
      ("lib64", Symlink "lib") ])])].

Definition host_python_dist : host := bare_host "linux" "x64" python_dist.

(** Where a chain of links leads: from the path [p], reached through real
    directories, each link followed to the path its target names, itself
    reached through real directories; at most [links] links. *)
Fixpoint chase (links : nat) (f : node) (p : path) : option node :=
  match get f p with
  | Some (Symlink t) =>
      match links with
      | O => None
      | S l => chase l f (path_resolve (removelast p) t)
      end
  | o => o
  end.

(** A chain of links that leads nowhere: followed as [chase] follows it,
    it ends at a path that names nothing, some real directory on the way
    lacking the next name. *)
Fixpoint dangles (links : nat) (f : node) (p : path) : bool :=
  match get f p with
  | Some (Symlink t) =>
      match links with
      | O => false
      | S l => dangles l f (path_resolve (removelast p) t)
      end
  | Some _ => false
  | None => lacks f p
  end.

Definition host_python_tree : host := bare_host "linux" "x64" python_tree.

(** The change happened at [L] or below it; the directories on the way to
    [L] are still directories. *)
Definition touched (L : path) (f f' : node) : Prop :=
  apart L f f'
  ∧ ∀ q c r, L = q ++ c :: r → ∃ cs', get f' q = Some (Dir cs').

(** The place [p] of a link whose target path was [tp] in the tree [f0],
    as the tree [f'] has it. When a chain of links led from the target path
    to a regular file: a regular file with its bytes and mode. When the
    target path named a directory: a directory that holds every regular
    file of the target, with its bytes and mode, and every directory of
    it, and nothing under a name the target lacks. When the target path
    named nothing, or a chain of links led from it to a path that named
    nothing: nothing. Whatever the target was, a link that is at the place
    or below it has an absolute target. *)
Definition link_replaced (f0 : node) (tp : path) (f' : node) (p : path) : Prop :=
  (∀ c m, chase MAXSYMLINKS f0 tp = Some (File c m) → get f' p = Some (File c m))
  ∧ ((∃ cs, get f0 tp = Some (Dir cs)) →
       (∃ cs', get f' p = Some (Dir cs'))
       ∧ (∀ x c m, get f0 (tp ++ x) = Some (File c m) →
                   get f' (p ++ x) = Some (File c m))
       ∧ (∀ x cs1, get f0 (tp ++ x) = Some (Dir cs1) →
                   ∃ cs', get f' (p ++ x) = Some (Dir cs'))
       ∧ (∀ x, lacks f0 (tp ++ x) = true → get f' (p ++ x) = None))
  ∧ (dangles MAXSYMLINKS f0 tp = true → get f' p = None)
  ∧ (∀ x t, get f' (p ++ x) = Some (Symlink t) → is_absolute t = true).

(** A chain of links that led to a regular file still leads to it, and
    one that led nowhere still does. *)
Definition chains (f f' : node) : Prop :=
  ∀ l p, l ≤ MAXSYMLINKS →
    (∀ c m, chase l f p = Some (File c m) → chase l f' p = Some (File c m))
    ∧ (dangles l f p = true → dangles l f' p = true).

(** The entries [l] are in the directory [d] of [f], as listed. *)
Definition listed (d : path) (l : list (string * node)) (f : node) : Prop :=
  (∃ cs, get f d = Some (Dir cs))
  ∧ ∀ nm ch, (nm, ch) ∈ l → get f (d ++ [nm]) = Some ch ∧ wf ch = true.

(** The depth of directories in a tree. *)
Fixpoint height (n : node) : nat :=
  match n with
  | Dir cs =>
      S ((fix height_children (l : list (string * node)) : nat :=
            match l with
            | [] => 0
            | (_, ch) :: r => Nat.max (height ch) (height_children r)
            end) cs)
  | _ => 0
  end.

(** A call the recursion bound never cuts off. *)
Definition bounded {A} (m : M A) : Prop := ∀ h, m h ≠ OutOfFuel.

(** The platform package of patchelf installed beside the main package,
    its files unpacked without execute bits. *)
Definition patchelf_installed : node :=
  Dir [("app", Dir [("node_modules", Dir [("@xspect-build", Dir
    [ ("patchelf", Dir [("lib", Dir [])]);
      ("patchelf-linux-x64", Dir
         [ ("bin", Dir [("patchelf", File (Raw "ELF") mode_644)]);
           ("libexec", Dir [("helper", File (Raw "ELF") mode_644)]);
           ("package.json", File (Raw "{ }") mode_644) ]) ])])])].

Definition host_postinstall : host :=
  {| platform := "linux"; arch := "x64"; homedir := ["home"; "u"];
     dirname := ["app"; "node_modules"; "@xspect-build"; "patchelf"];
     fs := patchelf_installed; tmp := []; registry := fun _ _ => None; npm_log := [];
     chmod_denied := fun _ => false;
     resolvable := fun name =>
       if bool_decide (name = "@xspect-build/patchelf-linux-x64/package.json")
       then Some ["app"; "node_modules"; "@xspect-build"; "patchelf-linux-x64";
                  "package.json"]
       else None |}.

(** A [bin] directory that holds a link to a file outside it. *)
Definition tree_link_out : node :=
  Dir [ ("outside", File (Raw "DATA") mode_644);
        ("pkg", Dir [("bin", Dir [ ("ext", Symlink "../../outside");
                                   ("tool", File (Raw "ELF") mode_644) ])]) ].

(** The registry serves an archive with a [package.json] at its top beside
    the [package/] directory, written as tar writes the members of the
    current directory. *)
Definition host_top_manifest : host :=
  linux_host home_tree []
    [("1.0.0", Gz (Tar [ EFile ["."; "package.json"] "{ }" mode_644;
                         EFile ["."; "package"; "python"; "bin"; "python3"] "ELF"
                           mode_644 ]))].

(** The same archive, with one more member under the name of the first: a
    link. *)
Definition host_manifest_then_link : host :=
  linux_host home_tree []
    [("1.0.0", Gz (Tar [ EFile ["package.json"] "{ }" mode_644;
                         EFile ["package"; "python"; "bin"; "python3"] "ELF" mode_644;
                         ELink ["."; "package.json"] "nowhere" ]))].

(** The path [p] does not name a link in [f]. *)
Definition no_link_at (f : node) (p : path) : Prop :=
  ∀ t, get f p ≠ Some (Symlink t).


(** A [bin] directory with an executable named [__proto__]. *)
Definition tree_proto : node :=
  Dir [("pkg", Dir [("bin", Dir [ ("__proto__", File (Raw "ELF") mode_755);
                                  ("python3", File (Raw "ELF") mode_755) ])])].

(** The body of the loop of [copyDir], for one directory entry. *)
Definition copy_entry (k : nat) (src dest : path) (entry : string * kind) : M unit :=
  let srcPath := join_name src (fst entry) in
  let destPath := join_name dest (fst entry) in
  match snd entry with
  | KDir => BuildPlatform.copyDir k srcPath destPath
  | KLink =>
      let* linkTarget := readlinkSync srcPath in
      symlinkSync linkTarget destPath
  | KFile =>
      copyFileSync srcPath destPath ;;
      let* stats := statSync srcPath in
      chmodSync destPath (mode_of stats)
  end.

(** The unpacked xpack next to the package under construction: [libexec]
    holds a library, a link to it and a directory. *)
Definition tree_xpack : node :=
  Dir [ ("dist", Dir [("pkg", Dir [("bin", Dir [])])]);
        ("tmp", Dir [("libexec", Dir
          [ ("libfoo.so", Symlink "libfoo.so.1");
            ("libfoo.so.1", File (Raw "SO") mode_755);
            ("plugins", Dir [("p.cfg", File (Raw "cfg") mode_644)]) ])]) ].

Fixpoint has_slash (s : string) : bool :=
  match s with
  | EmptyString => false
  | String c r => bool_decide (c = "/"%char) || has_slash r
  end.

(** A payload that holds a link to its own directory. *)
Definition tree_self_link : node :=
  Dir [("py", Dir [ ("bin", Dir [("python3", File (Raw "ELF") mode_755)]);
                    ("self", Symlink ".") ])].
(** * Properties *)

Example normalize_dotdot :
  path_join [["a"; "lib"]; [".."]; ["node_modules"]; split_slash "@s/pkg"; ["bin"]]
  = ["a"; "node_modules"; "@s"; "pkg"; "bin"].
Proof. reflexivity. Qed.

Example resolve_relative : path_resolve ["opt"; "py"; "bin"] "../lib/x" = ["opt"; "py"; "lib"; "x"].
Proof. reflexivity. Qed.

Example endsWith_tgz : endsWith ".tgz" "xspect-build-python-linux-x64-1.0.0.tgz" = true.
Proof. reflexivity. Qed.

(** ** Strings *)

Lemma append_cons c s t : String c s +:+ t = String c (s +:+ t).
Proof. reflexivity. Qed.

Lemma append_nil t : "" +:+ t = t.
Proof. reflexivity. Qed.

Lemma has_dash_middle x y : has_dash (x +:+ String "-" y) = true.
Proof.
  induction x as [|c x IH]; [reflexivity|].
  rewrite append_cons. simpl. rewrite IH. apply orb_true_r.
Qed.

Ltac push_append :=
  repeat first [ rewrite append_cons in * | rewrite append_nil in * ].

(** A key with a single dash splits in one way only. *)
Lemma key_split a : ∀ os cpu b,
  has_dash a = false → has_dash b = false →
  os +:+ "-" +:+ cpu = a +:+ "-" +:+ b → os = a ∧ cpu = b.
Proof.
  induction a as [|c a IH]; intros os cpu b Ha Hb E.
  - destruct os as [|c' os]; push_append; simplify_eq; [done|].
    pose proof (has_dash_middle os cpu) as Hd. congruence.
  - simpl in Ha. apply orb_false_iff in Ha as [Hc Ha].
    apply bool_decide_eq_false in Hc.
    destruct os as [|c' os]; push_append; simplify_eq.
    destruct (IH os cpu b Ha Hb) as [-> ->]; done.
Qed.








(** ** The platform gate *)

Lemma python_key_lookup os cpu :
  assoc (os +:+ "-" +:+ cpu) Python.platformPackageMap
  = if bool_decide ((os, cpu) ∈ supported)
    then Some ("@xspect-build/python-" +:+ os +:+ "-" +:+ cpu)
    else None.
Proof.
  unfold Python.platformPackageMap, supported. simpl assoc.
  destruct (decide (os +:+ "-" +:+ cpu = "linux-arm64")) as [E|N1].
  { apply (key_split "linux" os cpu "arm64") in E as [-> ->]; done. }
  destruct (decide (os +:+ "-" +:+ cpu = "linux-x64")) as [E|N2].
  { apply (key_split "linux" os cpu "x64") in E as [-> ->]; done. }
  rewrite bool_decide_eq_false_2; [done|].
  intros Hin. repeat (apply elem_of_cons in Hin as [Hin|Hin]; [simplify_eq; done|]).
  by apply elem_of_nil in Hin.
Qed.

(** C3. Platform gate: on a supported (os, cpu) pair the lookup returns
    the downstream package name of that pair; on every other pair it
    returns null, [download] throws 'Unsupported platform' for every
    version given, and neither [download] nor [extract] touches the host:
    no [npm pack] is run, nothing is written. *)
Theorem platform_gate (h : host) :
  ((platform h, arch h) ∈ supported →
     Python.getPlatformPackageName h
     = Ret (Some ("@xspect-build/python-" +:+ platform h +:+ "-" +:+ arch h)) h)
  ∧ ((platform h, arch h) ∉ supported →
     Python.getPlatformPackageName h = Ret None h
     ∧ (∀ v, v ≠ "" →
          Python.download v h = Throw (UnsupportedPlatform (Python.platformKey h)) h)
     ∧ (∀ fuel dest v,
          host_after (Python.extract fuel dest v h) = Some h)).
Proof.
  split; intros Hs.
  - unfold Python.getPlatformPackageName, Python.platformKey.
    rewrite python_key_lookup. by rewrite bool_decide_eq_true_2.
  - assert (Hk : assoc (Python.platformKey h) Python.platformPackageMap = None).
    { unfold Python.platformKey. rewrite python_key_lookup.
      by rewrite bool_decide_eq_false_2. }
    assert (Hd : ∀ v, v ≠ "" →
      Python.download v h = Throw (UnsupportedPlatform (Python.platformKey h)) h).
    { intros v Hv. unfold Python.download.
      rewrite bool_decide_eq_false_2 by done.
      unfold bind, Python.getPlatformPackageName. by rewrite Hk. }
    split; [|split; [exact Hd|]].
    + unfold Python.getPlatformPackageName. by rewrite Hk.
    + intros fuel dest v. unfold Python.extract.
      case_bool_decide as Hv; [done|].
      unfold bind at 1. unfold existsSync at 1.
      destruct (bool_decide _); [done|].
      unfold bind at 1. by rewrite (Hd v Hv).
Qed.

Lemma platform_gate_witness :
  Python.getPlatformPackageName (bare_host "linux" "x64" (Dir []))
  = Ret (Some "@xspect-build/python-linux-x64") (bare_host "linux" "x64" (Dir []))
  ∧ Python.download "3.9.13" (bare_host "darwin" "arm64" (Dir []))
    = Throw (UnsupportedPlatform "darwin-arm64") (bare_host "darwin" "arm64" (Dir [])).
Proof.
  split.
  - apply (proj1 (platform_gate (bare_host "linux" "x64" (Dir [])))).
    simpl. apply elem_of_cons. right. apply elem_of_cons. by left.
  - apply (proj2 (platform_gate (bare_host "darwin" "arm64" (Dir [])))); [|done].
    simpl. intros H. apply elem_of_cons in H as [H|H]; [done|].
    apply elem_of_cons in H as [H|H]; [done|]. by apply elem_of_nil in H.
Defined.

(** ** The resolver of the patchelf package *)

Lemma find_app {A} (f : A → bool) (l1 l2 : list A) :
  find f (l1 ++ l2) = match find f l1 with Some x => Some x | None => find f l2 end.
Proof. induction l1 as [|x l1 IH]; simpl; [done|]. by destruct (f x). Qed.

Lemma first_existing_find l h :
  Patchelf.first_existing l h = Ret (find (exists_at (fs h)) l) h.
Proof.
  induction l as [|p l IH]; simpl; [done|].
  unfold bind, existsSync. fold (exists_at (fs h) p).
  destruct (exists_at (fs h) p); [done | apply IH].
Qed.

Lemma findBinaryPath_find h :
  Patchelf.findBinaryPath h = Ret (find (exists_at (fs h)) (candidates h)) h.
Proof.
  unfold Patchelf.findBinaryPath, candidates.
  destruct (assoc _ Patchelf.platformPackageMap) as [pkg|]; [|done].
  unfold bind at 1. rewrite first_existing_find, find_app.
  destruct (find _ (Patchelf.possiblePaths h pkg)) as [p|]; [done|].
  unfold try_catch, bind, require_resolve.
  destruct (resolvable h _) as [pp|]; [|done].
  unfold existsSync. simpl find.
  fold (exists_at (fs h) (path_join [path_dirname pp; ["bin"]; ["patchelf"]])).
  by destruct (exists_at _ _).
Qed.

(** C7 (amended). Resolver probing: [getPatchelfPath] returns the first of
    the ordered install locations that exists, whatever kind of entry it
    is, and throws 'patchelf binary not found' when none does, the platform
    being outside the table included; it changes nothing on the host. *)
Theorem getPatchelfPath_first_existing (h : host) :
  Patchelf.getPatchelfPath h
  = match find (exists_at (fs h)) (candidates h) with
    | Some p => Ret p h
    | None => Throw (BinaryNotFound (Patchelf.platformKey h)) h
    end.
Proof.
  unfold Patchelf.getPatchelfPath, bind. rewrite findBinaryPath_find.
  by destruct (find _ _).
Qed.

(** C7, as stated, fails: the path returned need not be a regular file. *)
Lemma getPatchelfPath_returns_directory :
  let p := ["app"; "node_modules"; "@xspect-build"; "patchelf"; "node_modules";
            "@xspect-build"; "patchelf-linux-x64"; "bin"; "patchelf"] in
  Patchelf.getPatchelfPath host_bin_is_dir = Ret p host_bin_is_dir
  ∧ stat (fs host_bin_is_dir) p = Some (Dir [])
  ∧ ¬ (∃ c m, stat (fs host_bin_is_dir) p = Some (File c m)).
Proof.
  split; [reflexivity|]. split; [reflexivity|].
  intros (c & m & E). vm_compute in E. discriminate.
Qed.

Lemma accessSync_X_cases p h :
  accessSync_X p h = Ret tt h ∨ ∃ e, accessSync_X p h = Throw e h.
Proof.
  unfold accessSync_X. destruct (stat (fs h) p) as [[c m| |]|]; eauto.
  case_bool_decide; eauto.
Qed.

(** C10. [isPatchelfAvailable] always returns a boolean, never throws and
    leaves the host as it was; the boolean is [true] exactly when a binary
    path is found and the access check for execution passes. *)
Theorem isPatchelfAvailable_total (h : host) :
  ∃ b, Patchelf.isPatchelfAvailable h = Ret b h
       ∧ (b = true ↔ ∃ p, Patchelf.findBinaryPath h = Ret (Some p) h
                          ∧ accessSync_X p h = Ret tt h).
Proof.
  unfold Patchelf.isPatchelfAvailable, try_catch, bind.
  rewrite getPatchelfPath_first_existing, findBinaryPath_find.
  destruct (find _ _) as [p|].
  - destruct (accessSync_X_cases p h) as [E|[e E]]; rewrite E.
    + exists true. split; [done|]. split; [|done]. eauto.
    + exists false. split; [done|]. split; [done|].
      intros (q & ? & ?). simplify_eq. congruence.
  - exists false. split; [done|]. split; [done|].
    intros (q & ? & ?). simplify_eq.
Qed.

(** ** Directory listings *)

Lemma assoc_app_r {V} k (l1 l2 : list (string * V)) :
  k ∉ map fst l1 → assoc k (l1 ++ l2) = assoc k l2.
Proof.
  induction l1 as [|[k' v] l1 IH]; simpl; [done|]. intros Hn.
  apply not_elem_of_cons in Hn as [Hk Hn]. rewrite decide_False by done. auto.
Qed.

Lemma assoc_None_notin {V} k (l : list (string * V)) :
  assoc k l = None ↔ k ∉ map fst l.
Proof.
  induction l as [|[k' v] l IH]; simpl.
  - split; [intros _; apply not_elem_of_nil | done].
  - destruct (decide (k = k')) as [->|Hne].
    + split; [done|]. intros Hn. exfalso. apply Hn. left.
    + rewrite IH. rewrite not_elem_of_cons. split; [by intros | by intros [_ ?]].
Qed.


Lemma find_none_app {A} (f : A → bool) l1 l2 :
  (∀ x, x ∈ l1 → f x = false) → find f (l1 ++ l2) = find f l2.
Proof.
  induction l1 as [|x l1 IH]; simpl; [done|]. intros H.
  rewrite (H x) by left. apply IH. intros y Hy. apply H. by right.
Qed.

Section AssocFacts.
Context {V : Type}.
Implicit Types (l : list (string * V)) (k : string) (v : V).

Lemma assoc_replace_same k v l x :
  assoc k l = Some x → assoc k (replace k v l) = Some v.
Proof.
  induction l as [|[k' v'] l IH]; simpl; [done|].
  case_decide; simpl; rewrite ?decide_True, ?decide_False by done; auto.
Qed.

Lemma assoc_replace_ne k k' v l :
  k ≠ k' → assoc k' (replace k v l) = assoc k' l.
Proof.
  intros Hne. induction l as [|[k0 v0] l IH]; simpl; [done|].
  destruct (decide (k = k0)) as [->|]; simpl.
  - rewrite !decide_False by congruence. done.
  - by rewrite IH.
Qed.

Lemma assoc_remove_ne k k' l :
  k ≠ k' → assoc k' (remove k l) = assoc k' l.
Proof.
  intros Hne. induction l as [|[k0 v0] l IH]; simpl; [done|].
  destruct (decide (k = k0)) as [->|]; simpl.
  - rewrite !decide_False by congruence. done.
  - by rewrite IH.
Qed.

Lemma assoc_remove_same k l : assoc k (remove k l) = None.
Proof.
  induction l as [|[k0 v0] l IH]; simpl; [done|].
  case_decide; simpl; [done|]. by rewrite decide_False.
Qed.

Lemma assoc_upsert_same k v l : assoc k (upsert k v l) = Some v.
Proof.
  unfold upsert. destruct (assoc k l) eqn:E.
  - by eapply assoc_replace_same.
  - rewrite assoc_app_r by by apply assoc_None_notin.
    simpl. by rewrite decide_True.
Qed.

Lemma assoc_upsert_ne k k' v l :
  k ≠ k' → assoc k' (upsert k v l) = assoc k' l.
Proof.
  intros Hne. unfold upsert. destruct (assoc k l) eqn:E.
  - by apply assoc_replace_ne.
  - clear E. induction l as [|[k0 v0] l IH]; simpl.
    + by rewrite decide_False.
    + by rewrite IH.
Qed.


End AssocFacts.

(** ** Transport: [download] and the temporary directory *)

Lemma download_phases v h :
  Python.download v h
  = (let* f := Python.download_locate v in Python.download_read f) h.
Proof.
  unfold Python.download, Python.download_locate, Python.download_read.
  case_bool_decide; [done|].
  unfold bind, Python.getPlatformPackageName.
  destruct (assoc _ Python.platformPackageMap) as [pkg|]; [|done].
  destruct (npm_pack pkg v h) as [[] h1|e h1|]; [|done|done].
  unfold tmp_readdirSync. by destruct (find _ _).
Qed.

(** *** The order of a directory listing *)



Lemma elem_of_insert_name x y l : x ∈ insert_name y l ↔ x = y ∨ x ∈ l.
Proof.
  induction l as [|z l IH]; simpl.
  - rewrite list_elem_of_singleton, elem_of_nil. tauto.
  - destruct (String.leb y z); rewrite !elem_of_cons; [tauto|].
    rewrite IH. tauto.
Qed.

Lemma elem_of_sort_names x l : x ∈ sort_names l ↔ x ∈ l.
Proof.
  induction l as [|z l IH]; simpl; [done|].
  rewrite elem_of_insert_name, elem_of_cons, IH. tauto.
Qed.





Lemma find_some_sorted (P : string → bool) l x :
  find P (sort_names l) = Some x → x ∈ l ∧ P x = true.
Proof.
  intros H. apply find_some in H as [Hin HP]. split; [|done].
  apply elem_of_sort_names. by apply list_elem_of_In.
Qed.

(** *** The command line *)

Lemma shell_word_app a b : shell_word (a +:+ b) = shell_word a && shell_word b.
Proof.
  induction a as [|c a IH]; [done|].
  rewrite append_cons. simpl. rewrite IH. by rewrite andb_assoc.
Qed.



(** What [download] does on a platform of the table, step by step. *)
Lemma download_unfold v h pkg :
  v ≠ "" →
  assoc (Python.platformKey h) Python.platformPackageMap = Some pkg →
  Python.download v h
  = if shell_word v then
      let h1 := with_npm_log h (npm_log h ++ [(pkg, v)]) in
      match registry h pkg v with
      | None => Throw (ExecFailed ("npm pack " +:+ pkg +:+ "@" +:+ v)) h1
      | Some (ver, d) =>
          let files := upsert (tarball_name pkg ver) d (tmp h) in
          let h2 := with_tmp h1 files in
          match find Python.is_tarball (sort_names (map fst files)) with
          | None => Throw PackageNotDownloaded h2
          | Some f =>
              match assoc f files with
              | None => Throw (FsError ENOENT [f]) h2
              | Some (Gz (Tar es)) => Ret (Tar es) (with_tmp h2 (remove f files))
              | Some (Gz _) => Throw InvalidArchive (with_tmp h2 (remove f files))
              | Some _ => Throw ZlibError h2
              end
          end
      end
    else OutOfFuel.
Proof.
  intros Hv Hk. unfold Python.download.
  rewrite bool_decide_eq_false_2 by done.
  unfold bind, Python.getPlatformPackageName. rewrite Hk.
  unfold npm_pack. rewrite !shell_word_app.
  assert (shell_word pkg = true) as ->.
  { revert Hk. unfold Python.platformPackageMap. simpl assoc.
    intros Hk. repeat case_decide; by simplify_eq. }
  change (shell_word "@") with true. rewrite !andb_true_l.
  destruct (shell_word v); [|done]. cbn [negb].
  destruct (registry h pkg v) as [[ver d]|]; [|done].
  cbn. unfold tmp_readdirSync. cbn.
  destruct (find _ _) as [f|]; [|done].
  unfold tmp_readFileSync. cbn.
  destruct (assoc f _) as [[s|es|a]|] eqn:E; try done.
  unfold gunzipSync, ret, tmp_rmSync. cbn. rewrite E.
  by destruct a.
Qed.







(** A leftover whose name comes after the new tarball's is not the one
    read: with the tarball of 2.0.0 left in the directory, a call for
    1.0.0 returns the archive of 1.0.0. *)
Example download_skips_later_leftover :
  ∃ h', Python.download "1.0.0"
          (with_tmp host_two_versions
             [("xspect-build-python-linux-x64-2.0.0.tgz", npm_tarball "two")])
        = Ret (Tar [ EFile ["package"; "package.json"] "{ }" mode_644;
                     EDir ["package"; "python"];
                     EDir ["package"; "python"; "bin"];
                     EFile ["package"; "python"; "bin"; "python3"] "one" mode_644 ]) h'
        ∧ map fst (tmp h') = ["xspect-build-python-linux-x64-2.0.0.tgz"].
Proof. eexists. split; [vm_compute; reflexivity | reflexivity]. Qed.

(** C5 (amended). Transport cleanup, for a version that reaches [npm pack]
    as it is written: a [download] that returns has removed the one file
    it read, the first listed match, and nothing else. A
    [download] that throws has either written nothing, or it leaves the
    directory as [npm pack] left it, the tarball included; the one
    exception is the failure of [new Archive], which comes after the
    removal: then the file read is gone as after a success. *)
Theorem download_cleanup h v :
  shell_word v = true →
  (∀ a h', Python.download v h = Ret a h' →
     ∃ pkg ver d f es,
       registry h pkg v = Some (ver, d)
       ∧ a = Tar es
       ∧ find Python.is_tarball
           (sort_names (map fst (upsert (tarball_name pkg ver) d (tmp h)))) = Some f
       ∧ assoc f (upsert (tarball_name pkg ver) d (tmp h)) = Some (Gz (Tar es))
       ∧ tmp h' = remove f (upsert (tarball_name pkg ver) d (tmp h)))
  ∧ (∀ e h', Python.download v h = Throw e h' →
     tmp h' = tmp h
     ∨ ∃ pkg ver d,
         registry h pkg v = Some (ver, d)
         ∧ assoc (tarball_name pkg ver) (upsert (tarball_name pkg ver) d (tmp h)) = Some d
         ∧ (e ≠ InvalidArchive
            ∧ tmp h' = upsert (tarball_name pkg ver) d (tmp h)
            ∨ e = InvalidArchive
              ∧ ∃ f a,
                  find Python.is_tarball
                    (sort_names (map fst (upsert (tarball_name pkg ver) d (tmp h))))
                  = Some f
                  ∧ assoc f (upsert (tarball_name pkg ver) d (tmp h)) = Some (Gz a)
                  ∧ (∀ es, a ≠ Tar es)
                  ∧ tmp h' = remove f (upsert (tarball_name pkg ver) d (tmp h)))).
Proof.
  intros Hw.
  destruct (decide (v = "")) as [->|Hv].
  { split; intros ? h' E; unfold Python.download in E;
      rewrite bool_decide_eq_true_2 in E by done;
      [done | left; unfold throw in E; by simplify_eq]. }
  destruct (assoc (Python.platformKey h) Python.platformPackageMap) as [pkg|] eqn:Hk.
  2:{ split; intros ? h' E; unfold Python.download in E;
        rewrite bool_decide_eq_false_2 in E by done;
        unfold bind, Python.getPlatformPackageName in E; rewrite Hk in E;
        [done | left; by simplify_eq]. }
  rewrite (download_unfold v h pkg Hv Hk), Hw. cbn zeta.
  destruct (registry h pkg v) as [[ver d]|] eqn:Hr.
  2:{ split; intros ? h' E; [done | left; by simplify_eq]. }
  pose proof (assoc_upsert_same (tarball_name pkg ver) d (tmp h)) as Hput.
  destruct (find _ _) as [f|] eqn:Hf.
  2:{ split; intros ? h' E; [done|]. right. exists pkg, ver, d.
      injection E as <- <-. split; [done|]. split; [done|]. by left. }
  destruct (assoc f _) as [[s|es|a0]|] eqn:Ha.
  4:{ split; intros ? h' E; [done|]. right. exists pkg, ver, d.
      injection E as <- <-. split; [done|]. split; [done|]. by left. }
  1,2: split; intros ? h' E; [done|]; right; exists pkg, ver, d;
       injection E as <- <-; split; [done|]; split; [done|]; by left.
  destruct a0 as [s|es|a1].
  - split; intros ? h' E; [done|]. right. exists pkg, ver, d.
    injection E as <- <-. split; [done|]. split; [done|]. right.
    split; [done|]. exists f, (Raw s). by eauto.
  - split; intros ? h' E; [|done].
    injection E as <- <-. exists pkg, ver, d, f, es. eauto.
  - split; intros ? h' E; [done|]. right. exists pkg, ver, d.
    injection E as <- <-. split; [done|]. split; [done|]. right.
    split; [done|]. exists f, (Gz a1). by eauto.
Qed.

Lemma download_cleanup_witness :
  ∃ pkg ver d f es,
    registry host_two_versions pkg "1.0.0" = Some (ver, d)
    ∧ Tar [ EFile ["package"; "package.json"] "{ }" mode_644;
            EDir ["package"; "python"];
            EDir ["package"; "python"; "bin"];
            EFile ["package"; "python"; "bin"; "python3"] "one" mode_644 ] = Tar es
    ∧ find Python.is_tarball
        (sort_names (map fst (upsert (tarball_name pkg ver) d (tmp host_two_versions))))
      = Some f
    ∧ assoc f (upsert (tarball_name pkg ver) d (tmp host_two_versions))
      = Some (Gz (Tar es))
    ∧ tmp (with_npm_log host_two_versions
             [("@xspect-build/python-linux-x64", "1.0.0")])
      = remove f (upsert (tarball_name pkg ver) d (tmp host_two_versions)).
Proof.
  apply (proj1 (download_cleanup host_two_versions "1.0.0" eq_refl)).
  reflexivity.
Defined.

(** C5, as stated, fails: the registry serves bytes that do not decompress,
    [download] throws and the tarball stays in the temporary directory. *)
Lemma download_failure_keeps_tarball :
  ∃ h', Python.download "1.0.0" host_corrupt = Throw ZlibError h'
        ∧ assoc "xspect-build-python-linux-x64-1.0.0.tgz" (tmp h')
          = Some (Raw "garbage").
Proof. eexists. split; [vm_compute; reflexivity | reflexivity]. Qed.

(** The failure that does clean up: gzip data that holds no tar archive
    passes [gunzipSync], the file is removed, and [new Archive] throws. *)
Example download_bad_archive_removes_tarball :
  ∃ h', Python.download "1.0.0" host_not_tar = Throw InvalidArchive h'
        ∧ tmp h' = [].
Proof. eexists. split; [vm_compute; reflexivity | reflexivity]. Qed.




(** ** The directory tree *)

Lemma get_cons cs c p :
  get (Dir cs) (c :: p) = match assoc c cs with Some ch => get ch p | None => None end.
Proof. reflexivity. Qed.

Lemma get_app f p q :
  get f (p ++ q) = match get f p with Some n => get n q | None => None end.
Proof.
  revert f. induction p as [|c p IH]; intros f; simpl; [done|].
  destruct f as [| |cs]; [done..|]. destruct (assoc c cs); [apply IH | done].
Qed.

Lemma get_snoc f p c :
  get f (p ++ [c])
  = match get f p with
    | Some (Dir cs) => assoc c cs
    | _ => None
    end.
Proof.
  rewrite get_app. destruct (get f p) as [[| |cs]|]; simpl; try done.
  by destruct (assoc c cs).
Qed.

(** A path with something below it names a directory. *)
Lemma get_below_dir f p c r n :
  get f (p ++ c :: r) = Some n → ∃ cs, get f p = Some (Dir cs).
Proof.
  rewrite get_app. destruct (get f p) as [[| |cs]|]; simpl; try done. eauto.
Qed.

Lemma put_get_same f p x f' : put f p x = Some f' → get f' p = Some x.
Proof.
  revert f f'. induction p as [|c p IH]; intros f f' H; simpl in H.
  - by simplify_eq.
  - destruct f as [| |cs]; [done..|]. destruct p as [|c' p].
    + simplify_eq. simpl. by rewrite assoc_upsert_same.
    + destruct (assoc c cs) as [ch|] eqn:E; [|done].
      destruct (put ch (c' :: p) x) as [ch'|] eqn:E'; [|done]. simplify_eq.
      rewrite get_cons, (assoc_replace_same _ _ _ _ E). by apply (IH ch).
Qed.

(** Writing at [p] leaves every path alone that is neither below [p] nor
    on the way to it. *)
Lemma put_get_frame f p x f' q :
  put f p x = Some f' →
  ¬ p `prefix_of` q → ¬ q `prefix_of` p →
  get f' q = get f q.
Proof.
  revert f f' q. induction p as [|c p IH]; intros f f' q H Hpq Hqp.
  - exfalso. apply Hpq. apply prefix_nil.
  - destruct q as [|c' q]; [exfalso; apply Hqp, prefix_nil|].
    simpl in H. destruct f as [| |cs]; [done..|].
    destruct (decide (c = c')) as [<-|Hne].
    + destruct p as [|c2 p].
      { exfalso. apply Hpq. by apply (prefix_app [c] []), prefix_nil. }
      destruct (assoc c cs) as [ch|] eqn:E; [|done].
      destruct (put ch (c2 :: p) x) as [ch'|] eqn:E'; [|done]. simplify_eq.
      rewrite !get_cons, (assoc_replace_same _ _ _ _ E), E.
      apply (IH ch ch' q E').
      * intros Hp. apply Hpq. by apply (prefix_app [c]).
      * intros Hp. apply Hqp. by apply (prefix_app [c]).
    + destruct p as [|c2 p].
      * simplify_eq. simpl. by rewrite assoc_upsert_ne.
      * destruct (assoc c cs) as [ch|] eqn:E; [|done].
        destruct (put ch (c2 :: p) x) as [ch'|] eqn:E'; [|done]. simplify_eq.
        simpl. by rewrite assoc_replace_ne.
Qed.

Lemma put_cons2 cs c c' p x :
  put (Dir cs) (c :: c' :: p) x
  = match assoc c cs with
    | Some ch => match put ch (c' :: p) x with
                 | Some ch' => Some (Dir (replace c ch' cs))
                 | None => None
                 end
    | None => None
    end.
Proof. reflexivity. Qed.

Lemma del_cons2 cs c c' p :
  del (Dir cs) (c :: c' :: p)
  = match assoc c cs with
    | Some ch => match del ch (c' :: p) with
                 | Some ch' => Some (Dir (replace c ch' cs))
                 | None => None
                 end
    | None => None
    end.
Proof. reflexivity. Qed.

Lemma snoc_cons {A} (q : list A) c r : ∃ c1 p1, q ++ c :: r = c1 :: p1.
Proof. destruct q; simpl; eauto. Qed.

(** The directories on the way to [p] stay directories. *)
Lemma put_get_above f x f' q c r :
  put f (q ++ c :: r) x = Some f' →
  ∃ cs cs', get f q = Some (Dir cs) ∧ get f' q = Some (Dir cs').
Proof.
  revert f f'. induction q as [|c0 q IH]; intros f f' H.
  - simpl in H. destruct f as [| |cs]; [done..|].
    destruct r; [simplify_eq; simpl; eauto|].
    destruct (assoc c cs); [|done]. destruct (put _ _ _); [|done].
    simplify_eq. simpl. eauto.
  - change ((c0 :: q) ++ c :: r) with (c0 :: (q ++ c :: r)) in H.
    destruct (snoc_cons q c r) as (c1 & p1 & Ep).
    destruct f as [| |cs]; [by rewrite Ep in H..|].
    rewrite Ep, put_cons2 in H.
    destruct (assoc c0 cs) as [ch|] eqn:E; [|done].
    destruct (put ch (c1 :: p1) x) as [ch'|] eqn:E'; [|done]. simplify_eq.
    rewrite !get_cons, (assoc_replace_same _ _ _ _ E), E.
    apply (IH ch ch'). by rewrite Ep.
Qed.

Lemma put_is_Some f p c cs x :
  get f p = Some (Dir cs) → is_Some (put f (p ++ [c]) x).
Proof.
  revert f. induction p as [|c0 p IH]; intros f H.
  - simpl in *. simplify_eq. eauto.
  - destruct f as [| |cs0]; [done..|]. rewrite get_cons in H.
    destruct (assoc c0 cs0) as [ch|] eqn:E; [|done].
    change ((c0 :: p) ++ [c]) with (c0 :: (p ++ [c])).
    destruct (snoc_cons p c []) as (c1 & p1 & Ep).
    rewrite Ep, put_cons2, E, <- Ep. destruct (IH ch H) as [ch' ->]. eauto.
Qed.

Lemma del_get_frame f p f' q :
  del f p = Some f' →
  ¬ p `prefix_of` q → ¬ q `prefix_of` p →
  get f' q = get f q.
Proof.
  revert f f' q. induction p as [|c p IH]; intros f f' q H Hpq Hqp.
  - exfalso. apply Hpq. apply prefix_nil.
  - destruct q as [|c' q]; [exfalso; apply Hqp, prefix_nil|].
    simpl in H. destruct f as [| |cs]; [done..|].
    destruct (decide (c = c')) as [<-|Hne].
    + destruct p as [|c2 p].
      { exfalso. apply Hpq. by apply (prefix_app [c] []), prefix_nil. }
      destruct (assoc c cs) as [ch|] eqn:E; [|done].
      destruct (del ch (c2 :: p)) as [ch'|] eqn:E'; [|done]. simplify_eq.
      rewrite !get_cons, (assoc_replace_same _ _ _ _ E), E.
      apply (IH ch ch' q E').
      * intros Hp. apply Hpq. by apply (prefix_app [c]).
      * intros Hp. apply Hqp. by apply (prefix_app [c]).
    + destruct p as [|c2 p].
      * destruct (assoc c cs); [|done]. simplify_eq. simpl.
        by rewrite assoc_remove_ne.
      * destruct (assoc c cs) as [ch|] eqn:E; [|done].
        destruct (del ch (c2 :: p)) as [ch'|] eqn:E'; [|done]. simplify_eq.
        simpl. by rewrite assoc_replace_ne.
Qed.

Lemma del_get_above f f' q c r :
  del f (q ++ c :: r) = Some f' →
  ∃ cs cs', get f q = Some (Dir cs) ∧ get f' q = Some (Dir cs').
Proof.
  revert f f'. induction q as [|c0 q IH]; intros f f' H.
  - simpl in H. destruct f as [| |cs]; [done..|].
    destruct r.
    + destruct (assoc c cs); [|done]. simplify_eq. simpl. eauto.
    + destruct (assoc c cs); [|done]. destruct (del _ _); [|done].
      simplify_eq. simpl. eauto.
  - change ((c0 :: q) ++ c :: r) with (c0 :: (q ++ c :: r)) in H.
    destruct (snoc_cons q c r) as (c1 & p1 & Ep).
    destruct f as [| |cs]; [by rewrite Ep in H..|].
    rewrite Ep, del_cons2 in H.
    destruct (assoc c0 cs) as [ch|] eqn:E; [|done].
    destruct (del ch (c1 :: p1)) as [ch'|] eqn:E'; [|done]. simplify_eq.
    rewrite !get_cons, (assoc_replace_same _ _ _ _ E), E.
    apply (IH ch ch'). by rewrite Ep.
Qed.

(** ** Resolution along real directories *)

Lemma realpath_from_nil l f cur : realpath_from l f cur [] = Some cur.
Proof. by destruct l. Qed.

Lemma realpath_from_cons l f cur c r :
  realpath_from l f cur (c :: r)
  = match get f (cur ++ [c]) with
    | Some (Symlink t) =>
        match l with
        | O => None
        | S l' => realpath_from l' f [] (path_resolve cur t ++ r)
        end
    | Some _ => realpath_from l f (cur ++ [c]) r
    | None => None
    end.
Proof. by destruct l. Qed.

Lemma get_dir_step f cur c p cs :
  get f (cur ++ c :: p) = Some (Dir cs) → ∃ cs1, get f (cur ++ [c]) = Some (Dir cs1).
Proof.
  destruct p as [|c' p]; [eauto|].
  intros H. replace (cur ++ c :: c' :: p) with ((cur ++ [c]) ++ c' :: p) in H
    by by rewrite <- app_assoc.
  by apply get_below_dir in H.
Qed.

(** Real directories are walked through as they are. *)
Lemma realpath_dirs l f p : ∀ cur rest cs,
  get f (cur ++ p) = Some (Dir cs) →
  realpath_from l f cur (p ++ rest) = realpath_from l f (cur ++ p) rest.
Proof.
  induction p as [|c p IH]; intros cur rest cs H; simpl.
  - by rewrite app_nil_r.
  - destruct (get_dir_step _ _ _ _ _ H) as [cs1 H1].
    rewrite realpath_from_cons, H1.
    replace (cur ++ c :: p) with ((cur ++ [c]) ++ p) in * by by rewrite <- app_assoc.
    by apply (IH _ _ cs).
Qed.

Lemma realpath_physical f p n :
  get f p = Some n → is_link n = false → realpath f p = Some p.
Proof.
  intros H Hn. unfold realpath.
  destruct (decide (p = [])) as [->|Hp]; [apply realpath_from_nil|].
  destruct (exists_last Hp) as (d & c & ->).
  destruct (get_below_dir _ _ _ _ _ H) as [cs Hd].
  rewrite (realpath_dirs _ _ d [] [c] cs), realpath_from_cons by done.
  simpl. rewrite H. by destruct n; rewrite ?realpath_from_nil.
Qed.

Lemma stat_physical f p n :
  get f p = Some n → is_link n = false → stat f p = Some n.
Proof. intros H Hn. unfold stat. by rewrite (realpath_physical _ _ _ H Hn). Qed.

Lemma stat_absent f d c r cs :
  get f d = Some (Dir cs) → assoc c cs = None → stat f (d ++ c :: r) = None.
Proof.
  intros Hd Hc. unfold stat, realpath.
  rewrite (realpath_dirs _ _ d [] (c :: r) cs), realpath_from_cons by done.
  simpl. by rewrite get_snoc, Hd, Hc.
Qed.

Lemma location_physical f d c cs :
  get f d = Some (Dir cs) → location f (d ++ [c]) = Some (d ++ [c]).
Proof.
  intros Hd. unfold location. destruct (d ++ [c]) eqn:E; [by destruct d|].
  rewrite <- E. rewrite removelast_last, last_last.
  by rewrite (realpath_physical _ _ _ Hd).
Qed.

Lemma lstat_physical f d c cs :
  get f d = Some (Dir cs) → lstat f (d ++ [c]) = get f (d ++ [c]).
Proof. intros Hd. unfold lstat. by rewrite (location_physical _ _ _ _ Hd). Qed.


(** ** What a call preserves *)

Section Preserves.
Context (R : host → host → Prop).
Context (R_refl : ∀ h, R h h) (R_trans : ∀ a b c, R a b → R b c → R a c).

Lemma preserves_ret {A} (a : A) : preserves R (ret a).
Proof. intros h. apply R_refl. Qed.

Lemma preserves_throw {A} e : preserves R (@throw A e).
Proof. intros h. apply R_refl. Qed.

Lemma preserves_bind {A B} (m : M A) (k : A → M B) :
  preserves R m → (∀ a, preserves R (k a)) → preserves R (bind m k).
Proof.
  intros Hm Hk h. unfold bind. specialize (Hm h).
  destruct (m h) as [a h1|e h1|]; [|done..].
  specialize (Hk a h1). destruct (k a h1); eauto.
Qed.

Lemma preserves_try_catch {A} (m : M A) handler :
  preserves R m → (∀ e, preserves R (handler e)) → preserves R (try_catch m handler).
Proof.
  intros Hm Hk h. unfold try_catch. specialize (Hm h).
  destruct (m h) as [a h1|e h1|]; [done| |done].
  specialize (Hk e h1). destruct (handler e h1); eauto.
Qed.

Lemma preserves_for_of {A} (l : list A) body :
  (∀ x, x ∈ l → preserves R (body x)) → preserves R (for_of l body).
Proof.
  induction l as [|x l IH]; intros Hb; simpl.
  - apply preserves_ret.
  - apply preserves_bind; [apply Hb; left|].
    intros _. apply IH. intros y Hy. apply Hb. by right.
Qed.

Lemma preserves_pure {A} (m : M A) :
  (∀ h, host_after (m h) = Some h) → preserves R m.
Proof.
  intros Hm h. specialize (Hm h). destruct (m h); simpl in Hm; simplify_eq; auto.
Qed.

End Preserves.

Lemma preserves_after {A} R (m : M A) h h' :
  preserves R m → host_after (m h) = Some h' → R h h'.
Proof. intros Hm H. specialize (Hm h). destruct (m h); simpl in H; by simplify_eq. Qed.

Lemma with_fs_same h : with_fs h (fs h) = h.
Proof. by destruct h. Qed.

Lemma same_env_refl h : same_env h h.
Proof. unfold same_env. by rewrite with_fs_same. Qed.

Lemma same_env_trans a b c : same_env a b → same_env b c → same_env a c.
Proof. unfold same_env. intros Hab Hbc. rewrite Hbc, Hab. reflexivity. Qed.

Lemma same_env_with_fs h f : same_env h (with_fs h f).
Proof. reflexivity. Qed.

Lemma same_env_fields h h' :
  same_env h h' →
  npm_log h' = npm_log h ∧ tmp h' = tmp h ∧ chmod_denied h' = chmod_denied h
  ∧ registry h' = registry h ∧ platform h' = platform h ∧ arch h' = arch h.
Proof. intros ->. by destruct h. Qed.

(** ** Changes of mode only *)

Lemma erase_Dir cs : erase (Dir cs) = Dir (map (λ e, (e.1, erase e.2)) cs).
Proof.
  simpl. f_equal. induction cs as [|[nm ch] cs IH]; simpl; [done|]. by rewrite IH.
Qed.

Lemma assoc_erase c cs :
  assoc c (map (λ e : string * node, (e.1, erase e.2)) cs) = erase <$> assoc c cs.
Proof.
  induction cs as [|[nm ch] cs IH]; simpl; [done|]. by case_decide.
Qed.

Lemma get_erase f p : get (erase f) p = erase <$> get f p.
Proof.
  revert f. induction p as [|c p IH]; intros f; [done|].
  destruct f as [| |cs]; [done..|].
  rewrite erase_Dir, !get_cons, assoc_erase.
  destruct (assoc c cs); simpl; [apply IH | done].
Qed.

Lemma realpath_from_erase l : ∀ f cur rest,
  realpath_from l (erase f) cur rest = realpath_from l f cur rest.
Proof.
  induction l as [|l IHl]; intros f cur rest; revert cur;
    induction rest as [|c rest IH]; intros cur;
    rewrite ?realpath_from_nil, ?realpath_from_cons; try done;
    rewrite get_erase; destruct (get f (cur ++ [c])) as [[| |]|]; simpl; auto.
Qed.

Lemma realpath_shape f f' p : erase f = erase f' → realpath f p = realpath f' p.
Proof.
  intros E. unfold realpath.
  by rewrite <- (realpath_from_erase _ f), <- (realpath_from_erase _ f'), E.
Qed.

Lemma get_shape f f' p : erase f = erase f' → erase <$> get f p = erase <$> get f' p.
Proof. intros E. by rewrite <- !get_erase, E. Qed.

Lemma get_shape_file f f' p c m :
  erase f = erase f' → get f p = Some (File c m) → ∃ m', get f' p = Some (File c m').
Proof.
  intros E H. pose proof (get_shape f f' p E) as Hs. rewrite H in Hs.
  destruct (get f' p) as [[c' m'| |cs]|]; simpl in Hs; simplify_eq. eauto.
Qed.

Lemma get_shape_dir f f' p cs :
  erase f = erase f' → get f p = Some (Dir cs) →
  ∃ cs', get f' p = Some (Dir cs')
         ∧ map (λ e, (e.1, kind_of e.2)) cs' = map (λ e, (e.1, kind_of e.2)) cs.
Proof.
  intros E H. pose proof (get_shape f f' p E) as Hs. rewrite H in Hs.
  destruct (get f' p) as [[c' m'| |cs']|]; simpl in Hs; rewrite ?erase_Dir in Hs;
    try discriminate.
  injection Hs as Hs. exists cs'. split; [done|].
  clear H E. revert cs Hs.
  induction cs' as [|[nm ch] cs' IH]; intros [|[nm0 ch0] cs] H;
    simplify_eq/=; [done|].
  f_equal; [|by apply IH].
  f_equal. destruct ch, ch0; simplify_eq/=; done.
Qed.

Lemma get_shape_none f f' p : erase f = erase f' → get f p = None → get f' p = None.
Proof.
  intros E H. pose proof (get_shape f f' p E) as Hs. rewrite H in Hs.
  by destruct (get f' p).
Qed.

Lemma replace_same {V} c (v : V) l : assoc c l = Some v → replace c v l = l.
Proof.
  induction l as [|[k x] l IH]; simpl; [done|].
  case_decide; intros; simplify_eq; [done|]. f_equal. auto.
Qed.

Lemma map_replace {V W} (g : V → W) c v (l : list (string * V)) :
  map (λ e, (e.1, g e.2)) (replace c v l) = replace c (g v) (map (λ e, (e.1, g e.2)) l).
Proof.
  induction l as [|[k x] l IH]; simpl; [done|].
  case_decide; simpl; [done|]. by rewrite IH.
Qed.

Lemma erase_replace c ch ch' cs :
  assoc c cs = Some ch → erase ch' = erase ch →
  erase (Dir (replace c ch' cs)) = erase (Dir cs).
Proof.
  intros Ha He. rewrite !erase_Dir, map_replace, He. f_equal.
  apply replace_same. by rewrite assoc_erase, Ha.
Qed.

Lemma erase_put f q x y f' :
  put f q x = Some f' → get f q = Some y → erase x = erase y → erase f' = erase f.
Proof.
  revert f f'. induction q as [|c q IH]; intros f f' Hp Hg He.
  - simpl in *. by simplify_eq.
  - destruct f as [| |cs]; [done..|]. rewrite get_cons in Hg.
    destruct (assoc c cs) as [ch|] eqn:E; [|done].
    destruct q as [|c' q].
    + simpl in *. simplify_eq. unfold upsert. rewrite E.
      by apply (erase_replace _ y).
    + rewrite put_cons2, E in Hp.
      destruct (put ch (c' :: q) x) as [ch'|] eqn:E'; [|done]. simplify_eq.
      apply (erase_replace _ ch); [done|]. by apply IH.
Qed.

Lemma pushed_refl f : pushed f f.
Proof. split; [done|]. intros q c m0 c' m H1 H2. left. congruence. Qed.

Lemma pushed_trans a b c : pushed a b → pushed b c → pushed a c.
Proof.
  intros [E1 M1] [E2 M2]. split; [congruence|].
  intros q c0 m0 c2 m2 Ha Hc.
  destruct (get_shape_file a b q c0 m0 E1 Ha) as [m1 Hb].
  destruct (M1 _ _ _ _ _ Ha Hb) as [->| ->]; [eauto|].
  destruct (M2 _ _ _ _ _ Hb Hc); auto.
Qed.

Lemma modes_only_refl h : modes_only h h.
Proof. split; [apply same_env_refl | apply pushed_refl]. Qed.

Lemma modes_only_trans a b c : modes_only a b → modes_only b c → modes_only a c.
Proof.
  intros [] []. split; [by eapply same_env_trans | by eapply pushed_trans].
Qed.

(** Two files are never one below the other. *)
Lemma files_incomparable f p q c m c' m' :
  get f p = Some (File c m) → get f q = Some (File c' m') → p ≠ q →
  ¬ p `prefix_of` q ∧ ¬ q `prefix_of` p.
Proof.
  assert (∀ p q c m c' m', get f p = Some (File c m) → get f q = Some (File c' m') →
            p ≠ q → ¬ p `prefix_of` q) as Hone.
  { clear. intros p q c m c' m' Hp Hq Hne [[|x r] ->].
    - by rewrite app_nil_r in Hne.
    - apply get_below_dir in Hq as [cs Hq]. congruence. }
  intros Hp Hq Hne. split; [by eapply Hone | eapply Hone; eauto].
Qed.

Lemma put_mode_pushed f q c m0 f' :
  get f q = Some (File c m0) → put f q (File c mode_755) = Some f' → pushed f f'.
Proof.
  intros Hg Hp. split.
  - symmetry. by eapply erase_put.
  - intros q' c1 m1 c2 m2 H1 H2.
    destruct (decide (q = q')) as [<-|Hne].
    + rewrite (put_get_same _ _ _ _ Hp) in H2. simplify_eq. by right.
    + destruct (files_incomparable f q q' _ _ _ _ Hg H1 Hne) as [Ha Hb].
      rewrite (put_get_frame _ _ _ _ _ Hp Ha Hb) in H2. left. congruence.
Qed.

Lemma chmodSync_modes_only p : preserves modes_only (chmodSync p mode_755).
Proof.
  intros h. unfold chmodSync.
  destruct (chmod_denied h p); [apply modes_only_refl|].
  destruct (realpath (fs h) p) as [q|]; [|apply modes_only_refl].
  destruct (get (fs h) q) as [[c m0| |cs]|] eqn:Hg; try apply modes_only_refl.
  unfold store. destruct (put (fs h) q (File c mode_755)) as [f'|] eqn:Hp;
    [|apply modes_only_refl].
  split; [apply same_env_with_fs|]. by eapply put_mode_pushed.
Qed.

Lemma existsSync_pure p h : host_after (existsSync p h) = Some h.
Proof. reflexivity. Qed.

Lemma readdirSync_pure p h : host_after (readdirSync p h) = Some h.
Proof. unfold readdirSync. by destruct (stat (fs h) p) as [[| |]|]. Qed.

(** [fixPermissions] changes nothing but file modes, each to 0o755. *)
Lemma fixPermissions_modes_only fuel : ∀ dir,
  preserves modes_only (Python.fixPermissions fuel dir).
Proof.
  induction fuel as [|k IH]; intros dir; [by intros h|].
  simpl. apply preserves_bind; [apply modes_only_trans| |].
  { apply preserves_pure; [apply modes_only_refl | apply existsSync_pure]. }
  intros present. destruct present; simpl.
  2:{ apply preserves_ret, modes_only_refl. }
  apply preserves_bind; [apply modes_only_trans| |].
  { apply preserves_pure; [apply modes_only_refl | apply readdirSync_pure]. }
  intros entries. apply preserves_for_of;
    [apply modes_only_refl | apply modes_only_trans |].
  intros [nm k0] _. simpl. destruct k0.
  - apply preserves_try_catch; [apply modes_only_trans | apply chmodSync_modes_only |].
    intros _. apply preserves_ret, modes_only_refl.
  - apply preserves_ret, modes_only_refl.
  - apply IH.
Qed.

Lemma fixPermissions_S k dir h :
  Python.fixPermissions (S k) dir h
  = (let* present := existsSync dir in
     if negb present then ret tt
     else let* entries := readdirSync dir in for_of entries (fix_entry k dir)) h.
Proof. reflexivity. Qed.

Lemma fix_entry_modes_only k dir entry : preserves modes_only (fix_entry k dir entry).
Proof.
  destruct entry as [nm []]; unfold fix_entry; simpl.
  - apply preserves_try_catch; [apply modes_only_trans | apply chmodSync_modes_only |].
    intros _. apply preserves_ret, modes_only_refl.
  - apply preserves_ret, modes_only_refl.
  - apply fixPermissions_modes_only.
Qed.

Lemma readdirSync_physical d h cs :
  get (fs h) d = Some (Dir cs) →
  readdirSync d h = Ret (map (λ e, (e.1, kind_of e.2)) cs) h.
Proof. intros H. unfold readdirSync. by rewrite (stat_physical _ _ _ H). Qed.

Lemma existsSync_physical p h n :
  get (fs h) p = Some n → is_link n = false → existsSync p h = Ret true h.
Proof.
  intros H Hn. unfold existsSync. rewrite (stat_physical _ _ _ H Hn).
  by rewrite bool_decide_eq_true_2.
Qed.

Lemma assoc_kinds nm (cs : list (string * node)) :
  assoc nm (map (λ e, (e.1, kind_of e.2)) cs) = kind_of <$> assoc nm cs.
Proof. induction cs as [|[k x] cs IH]; simpl; [done|]. by case_decide. Qed.

(** A file whose mode may be changed gets 0o755. *)
Lemma chmod_entry_sets_mode dir nm c m0 h h' k :
  get (fs h) (dir ++ [nm]) = Some (File c m0) →
  chmod_denied h (dir ++ [nm]) = false →
  fix_entry k dir (nm, KFile) h = Ret tt h' →
  get (fs h') (dir ++ [nm]) = Some (File c mode_755).
Proof.
  intros Hg Hd. unfold fix_entry, join_name, try_catch, chmodSync. simpl.
  rewrite Hd, (realpath_physical _ _ _ Hg), Hg by done.
  destruct (get_below_dir _ _ _ _ _ Hg) as [cs Hdir].
  destruct (put_is_Some (fs h) dir nm cs (File c mode_755) Hdir) as [f' Hp].
  unfold store. rewrite Hp. intros E. simplify_eq. simpl.
  by apply (put_get_same _ _ _ _ Hp).
Qed.

(** The loop over the entries of [dir], for a file below the entry [nm]:
    given the claim for the recursive calls. *)
Lemma fix_loop_sets_mode k dir nm rel c :
  (∀ d h h', Python.fixPermissions k d h = Ret tt h' →
     ∀ rel c m, rel ≠ [] → get (fs h') (d ++ rel) = Some (File c m) →
       chmod_denied h (d ++ rel) = false → m = mode_755) →
  ∀ l h h' m0 m,
    for_of l (fix_entry k dir) h = Ret tt h' →
    assoc nm l = Some (match rel with [] => KFile | _ => KDir end) →
    get (fs h) (dir ++ nm :: rel) = Some (File c m0) →
    chmod_denied h (dir ++ nm :: rel) = false →
    get (fs h') (dir ++ nm :: rel) = Some (File c m) →
    m = mode_755.
Proof.
  intros IH l. induction l as [|[nm0 k0] l IHl];
    intros h h' m0 m Hrun Hk Hini Hden Hfin; [done|].
  simpl in Hrun. unfold bind in Hrun.
  destruct (fix_entry k dir (nm0, k0) h) as [[] h1|e h1|] eqn:Hstep; [|done..].
  pose proof (preserves_after _ _ h h1 (fix_entry_modes_only k dir (nm0, k0))) as Hm1.
  rewrite Hstep in Hm1. destruct (Hm1 eq_refl) as [Henv1 [Hshape1 _]].
  pose proof (preserves_after _ _ h1 h'
    (preserves_for_of modes_only modes_only_refl modes_only_trans l _
       (λ x _, fix_entry_modes_only k dir x))) as Hm2.
  rewrite Hrun in Hm2. destruct (Hm2 eq_refl) as [Henv2 [Hshape2 Hmodes2]].
  simpl in Hk. destruct (decide (nm = nm0)) as [<-|Hne].
  - injection Hk as ->. destruct rel as [|nm' rel'].
    + pose proof (chmod_entry_sets_mode dir nm c m0 h h1 k Hini Hden Hstep) as H1.
      destruct (Hmodes2 _ _ _ _ _ H1 Hfin); done.
    + unfold fix_entry in Hstep. simpl in Hstep.
      destruct (get_shape_file _ _ _ _ _ (eq_sym Hshape2) Hfin) as [m1 Hmid].
      assert (m1 = mode_755) as ->.
      { eapply (IH _ _ _ Hstep (nm' :: rel')); [done| |].
        - unfold join_name. rewrite <- app_assoc. exact Hmid.
        - unfold join_name. rewrite <- app_assoc. exact Hden. }
      destruct (Hmodes2 _ _ _ _ _ Hmid Hfin); done.
  - destruct (get_shape_file _ _ _ _ _ Hshape1 Hini) as [m1 Hmid].
    apply (IHl h1 h' m1 m Hrun Hk Hmid); [|done].
    destruct (same_env_fields _ _ Henv1) as (_ & _ & -> & _). done.
Qed.

(** After a pass that returns, a regular file below [dir] whose mode may be
    changed has mode 0o755. *)
Lemma fixPermissions_sets_modes fuel : ∀ dir h h',
  Python.fixPermissions fuel dir h = Ret tt h' →
  ∀ rel c m, rel ≠ [] →
    get (fs h') (dir ++ rel) = Some (File c m) →
    chmod_denied h (dir ++ rel) = false →
    m = mode_755.
Proof.
  induction fuel as [|k IH]; intros dir h h' Hrun rel c m Hrel Hfin Hden; [done|].
  destruct rel as [|nm rel]; [done|]. clear Hrel.
  destruct (preserves_after _ _ h h' (fixPermissions_modes_only (S k) dir))
    as [Henv [Hshape _]]; [by rewrite Hrun|].
  destruct (get_shape_file _ _ _ _ _ (eq_sym Hshape) Hfin) as [m0 Hini].
  destruct (get_below_dir _ _ _ _ _ Hini) as [cs Hdir].
  rewrite fixPermissions_S in Hrun. unfold bind at 1 in Hrun.
  rewrite (existsSync_physical _ _ _ Hdir) in Hrun by done. simpl in Hrun.
  unfold bind at 1 in Hrun. rewrite (readdirSync_physical _ _ _ Hdir) in Hrun.
  eapply (fix_loop_sets_mode k dir nm rel c IH); [exact Hrun| |exact Hini|done|done].
  rewrite assoc_kinds. rewrite get_app, Hdir, get_cons in Hini.
  destruct (assoc nm cs) as [ch|]; [|done]. simpl.
  destruct rel; simpl in Hini; [by simplify_eq|]. by destruct ch.
Qed.

(** ** Permission failures do not change the course of the pass *)

Lemma stat_shape_is_Some f f' p :
  erase f = erase f' → is_Some (stat f p) ↔ is_Some (stat f' p).
Proof.
  intros E. unfold stat. rewrite (realpath_shape f f' p E).
  destruct (realpath f' p) as [q|]; [|done].
  pose proof (get_shape f f' q E) as Hs.
  destruct (get f q), (get f' q); simpl in Hs; try done; split; eauto.
Qed.

Lemma existsSync_shape p h1 h2 :
  erase (fs h1) = erase (fs h2) →
  ∃ b, existsSync p h1 = Ret b h1 ∧ existsSync p h2 = Ret b h2.
Proof.
  intros E. unfold existsSync. eexists. split; [done|]. do 2 f_equal.
  apply bool_decide_ext. symmetry. by apply stat_shape_is_Some.
Qed.

Lemma readdirSync_shape p h1 h2 :
  erase (fs h1) = erase (fs h2) →
  (∃ l, readdirSync p h1 = Ret l h1 ∧ readdirSync p h2 = Ret l h2)
  ∨ (∃ e, readdirSync p h1 = Throw e h1 ∧ readdirSync p h2 = Throw e h2).
Proof.
  intros E. unfold readdirSync, stat. rewrite (realpath_shape _ _ p E).
  destruct (realpath (fs h2) p) as [q|]; [|right; eauto].
  pose proof (get_shape _ _ q E) as Hs.
  destruct (get (fs h1) q) as [[| |cs]|] eqn:E1.
  - destruct (get_shape_file _ _ _ _ _ E E1) as [m' ->]. right; eauto.
  - destruct (get (fs h2) q) as [[| |]|]; simpl in Hs; rewrite ?erase_Dir in Hs;
      simplify_eq. right; eauto.
  - destruct (get_shape_dir _ _ _ _ E E1) as (cs' & -> & Hk). left.
    rewrite Hk. eauto.
  - rewrite (get_shape_none _ _ _ E E1). right; eauto.
Qed.

Lemma fix_entry_file_returns k dir nm h : ∃ h', fix_entry k dir (nm, KFile) h = Ret tt h'.
Proof.
  unfold fix_entry, try_catch. simpl.
  destruct (chmodSync _ _ h) as [[] h'|e h'|] eqn:E; eauto.
  unfold chmodSync, store in E. repeat case_match; simplify_eq.
Qed.

(** Whether and how the pass ends depends on the shape of the tree only:
    not on the modes, and not on which files refuse a change of mode. *)
Lemma fixPermissions_verdict_shape fuel : ∀ dir h1 h2,
  erase (fs h1) = erase (fs h2) →
  verdict_of (Python.fixPermissions fuel dir h1)
  = verdict_of (Python.fixPermissions fuel dir h2).
Proof.
  induction fuel as [|k IH]; intros dir h1 h2 E; [done|].
  rewrite !fixPermissions_S. unfold bind at 1 3.
  destruct (existsSync_shape dir h1 h2 E) as (b & -> & ->).
  destruct b; simpl; [|done]. unfold bind.
  destruct (readdirSync_shape dir h1 h2 E) as [(l & -> & ->)|(e & -> & ->)]; [|done].
  revert h1 h2 E. induction l as [|[nm k0] l IHl]; intros h1 h2 E; [done|].
  simpl. unfold bind.
  assert (Hv : verdict_of (fix_entry k dir (nm, k0) h1)
               = verdict_of (fix_entry k dir (nm, k0) h2)).
  { destruct k0; [|done|by apply IH].
    destruct (fix_entry_file_returns k dir nm h1) as [? ->].
    by destruct (fix_entry_file_returns k dir nm h2) as [? ->]. }
  pose proof (λ x, preserves_after _ _ h1 x (fix_entry_modes_only k dir (nm, k0))) as P1.
  pose proof (λ x, preserves_after _ _ h2 x (fix_entry_modes_only k dir (nm, k0))) as P2.
  destruct (fix_entry k dir (nm, k0) h1) as [[] a|e a|],
           (fix_entry k dir (nm, k0) h2) as [[] b|e' b|]; simplify_eq/=; try done.
  apply IHl.
  destruct (P1 a eq_refl) as [_ [<- _]]. by destruct (P2 b eq_refl) as [_ [<- _]].
Qed.

(** ** Which part of the host each step touches *)

Lemma tmp_log_only_refl h : tmp_log_only h h.
Proof. by destruct h. Qed.

Lemma tmp_log_only_trans a b c : tmp_log_only a b → tmp_log_only b c → tmp_log_only a c.
Proof. unfold tmp_log_only. intros Hab Hbc. rewrite Hbc, Hab. reflexivity. Qed.

Lemma tmp_log_only_fields h h' :
  tmp_log_only h h' →
  fs h' = fs h ∧ chmod_denied h' = chmod_denied h ∧ registry h' = registry h
  ∧ platform h' = platform h ∧ arch h' = arch h ∧ homedir h' = homedir h.
Proof. intros ->. by destruct h. Qed.

Lemma download_tmp_log_only v : preserves tmp_log_only (Python.download v).
Proof.
  unfold Python.download. case_bool_decide.
  { apply preserves_throw, tmp_log_only_refl. }
  apply preserves_bind; [apply tmp_log_only_trans| |].
  { apply preserves_pure; [apply tmp_log_only_refl | done]. }
  intros [pkg|]; [|intros h; apply tmp_log_only_refl].
  apply preserves_bind; [apply tmp_log_only_trans| |].
  { intros h. unfold npm_pack. destruct (negb _); [done|].
    destruct (registry h pkg v) as [[ver d]|]; by destruct h. }
  intros _. apply preserves_bind; [apply tmp_log_only_trans| |].
  { apply preserves_pure; [apply tmp_log_only_refl | done]. }
  intros files. destruct (find _ _) as [f|];
    [|apply preserves_throw, tmp_log_only_refl].
  apply preserves_bind; [apply tmp_log_only_trans| |].
  { apply preserves_pure; [apply tmp_log_only_refl|].
    intros h. unfold tmp_readFileSync. by destruct (assoc f (tmp h)). }
  intros d. apply preserves_bind; [apply tmp_log_only_trans| |].
  { apply preserves_pure; [apply tmp_log_only_refl|]. intros h. by destruct d. }
  intros a. apply preserves_bind; [apply tmp_log_only_trans| |].
  { intros h. unfold tmp_rmSync. destruct (assoc f (tmp h)); by destruct h. }
  intros _. unfold newArchive.
  destruct a; apply preserves_ret || apply preserves_throw; apply tmp_log_only_refl.
Qed.

Lemma store_same_env q x blame : preserves same_env (store q x blame).
Proof.
  intros h. unfold store. destruct (put _ _ _); [done | apply same_env_refl].
Qed.

Lemma mkdir_from_same_env rest : ∀ done, preserves same_env (mkdir_from done rest).
Proof.
  induction rest as [|c rest IH]; intros done; simpl.
  { apply preserves_ret, same_env_refl. }
  intros h. destruct (stat (fs h) (done ++ [c])) as [[| |]|]; try apply same_env_refl.
  { apply IH. }
  destruct (lstat _ _); [apply same_env_refl|].
  destruct (location _ _); [|apply same_env_refl].
  apply preserves_bind; [apply same_env_trans | apply store_same_env | intros _; apply IH].
Qed.

Lemma tar_mkdirs_same_env rel : ∀ at_, preserves same_env (tar_mkdirs at_ rel).
Proof.
  induction rel as [|c rel IH]; intros at_; simpl.
  { apply preserves_ret, same_env_refl. }
  intros h. destruct (get (fs h) (at_ ++ [c])) as [[| |]|]; try apply same_env_refl.
  { apply IH. }
  destruct (put _ _ _) as [f|]; [|apply same_env_refl].
  specialize (IH (at_ ++ [c]) (with_fs h f)).
  destruct (tar_mkdirs _ _ _); try done; by rewrite IH.
Qed.

Lemma tar_write_same_env q x : preserves same_env (tar_write q x).
Proof.
  intros h. unfold tar_write.
  destruct (get (fs h) q) as [[| |]|]; try apply same_env_refl;
    destruct (put _ _ _); done || apply same_env_refl.
Qed.

Lemma unpack_entry_same_env root e : preserves same_env (unpack_entry root e).
Proof.
  destruct e as [p c m|p|p t|]; unfold unpack_entry; try case_bool_decide;
    try (apply preserves_ret, same_env_refl);
    try (apply preserves_throw, same_env_refl);
    try apply tar_mkdirs_same_env.
  all: destruct (clean_path p); [apply preserves_ret, same_env_refl|].
  all: apply preserves_bind;
    [apply same_env_trans | apply tar_mkdirs_same_env | intros _; apply tar_write_same_env].
Qed.

Lemma unpack_same_env a d : preserves same_env (unpack a d).
Proof.
  destruct a as [s|es|a]; try (apply preserves_throw, same_env_refl).
  intros h. simpl. destruct (realpath _ _) as [root|]; [|apply same_env_refl].
  destruct (get _ root) as [[| |]|]; try apply same_env_refl.
  apply (preserves_for_of same_env same_env_refl same_env_trans).
  intros e _. apply unpack_entry_same_env.
Qed.

Section DenialBlind.

Lemma blind_ret {A} (a : A) : denial_blind (ret a).
Proof. done. Qed.

Lemma blind_throw {A} e : denial_blind (@throw A e).
Proof. done. Qed.

Lemma blind_bind {A B} (m : M A) (k : A → M B) :
  denial_blind m → (∀ a, denial_blind (k a)) → denial_blind (bind m k).
Proof.
  intros Hm Hk d h. unfold bind. rewrite Hm.
  destruct (m h) as [a h1|e h1|]; simpl; [apply Hk | done..].
Qed.

Lemma blind_for_of {A} (l : list A) body :
  (∀ x, denial_blind (body x)) → denial_blind (for_of l body).
Proof.
  intros Hb. induction l as [|x l IH]; simpl; [apply blind_ret|].
  apply blind_bind; [apply Hb | intros _; apply IH].
Qed.

Lemma blind_store q x blame : denial_blind (store q x blame).
Proof. intros d h. unfold store. simpl. by destruct (put _ _ _). Qed.

Lemma blind_mkdir_from rest : ∀ done, denial_blind (mkdir_from done rest).
Proof.
  induction rest as [|c rest IH]; intros done; [apply blind_ret|].
  intros d h. simpl. destruct (stat (fs h) (done ++ [c])) as [[| |]|]; try done.
  { apply IH. }
  destruct (lstat _ _); [done|]. destruct (location _ _); [|done].
  apply (blind_bind _ _ (blind_store _ _ _) (λ _, IH _)).
Qed.

Lemma blind_tar_mkdirs rel : ∀ at_, denial_blind (tar_mkdirs at_ rel).
Proof.
  induction rel as [|c rel IH]; intros at_; [apply blind_ret|].
  intros d h. simpl. destruct (get (fs h) (at_ ++ [c])) as [[| |]|]; try done.
  { apply IH. }
  destruct (put _ _ _) as [f|]; [|done]. apply (IH _ d (with_fs h f)).
Qed.

Lemma blind_tar_write q x : denial_blind (tar_write q x).
Proof.
  intros d h. unfold tar_write. simpl.
  destruct (get (fs h) q) as [[| |]|]; try done; by destruct (put _ _ _).
Qed.

Lemma blind_unpack_entry root e : denial_blind (unpack_entry root e).
Proof.
  destruct e as [p c m|p|p t|]; unfold unpack_entry; try case_bool_decide;
    try apply blind_ret; try apply blind_throw; try apply blind_tar_mkdirs.
  all: destruct (clean_path p); [apply blind_ret|].
  all: apply blind_bind; [apply blind_tar_mkdirs | intros _; apply blind_tar_write].
Qed.

Lemma blind_unpack a dest : denial_blind (unpack a dest).
Proof.
  destruct a as [s|es|a]; try apply blind_throw.
  intros d h. simpl. destruct (realpath _ _) as [root|]; [|done].
  destruct (get _ root) as [[| |]|]; try done.
  apply (blind_for_of _ _ (blind_unpack_entry root)).
Qed.

Lemma blind_download v : denial_blind (Python.download v).
Proof.
  unfold Python.download. case_bool_decide; [apply blind_throw|].
  apply blind_bind; [done|]. intros [pkg|]; [|done].
  apply blind_bind.
  { intros d h. unfold npm_pack. simpl. destruct (negb _); [done|].
    by destruct (registry h pkg v) as [[]|]. }
  intros _. apply blind_bind; [done|]. intros files.
  destruct (find _ _) as [f|]; [|apply blind_throw].
  apply blind_bind.
  { intros d h. unfold tmp_readFileSync. simpl. by destruct (assoc f (tmp h)). }
  intros x. apply blind_bind; [by destruct x|]. intros a.
  apply blind_bind;
    [|intros _; unfold newArchive; destruct a; apply blind_ret || apply blind_throw].
  intros d h. unfold tmp_rmSync. simpl. by destruct (assoc f (tmp h)).
Qed.

End DenialBlind.

(** ** [extract], laid out *)

Lemma extract_hit fuel dest v h :
  v ≠ "" →
  exists_at (fs h) (Python.markerFile_of (Python.destPath_of h dest v)) = true →
  Python.extract fuel dest v h
  = Ret (Python.pythonDir_of (Python.destPath_of h dest v)) h.
Proof.
  intros Hv Hm. unfold Python.extract. rewrite bool_decide_eq_false_2 by done.
  unfold bind, existsSync. fold (exists_at (fs h)
    (Python.markerFile_of (Python.destPath_of h dest v))). by rewrite Hm.
Qed.

Lemma extract_miss fuel dest v h :
  v ≠ "" →
  exists_at (fs h) (Python.markerFile_of (Python.destPath_of h dest v)) = false →
  Python.extract fuel dest v h = materialize fuel (Python.destPath_of h dest v) v h.
Proof.
  intros Hv Hm. unfold Python.extract. rewrite bool_decide_eq_false_2 by done.
  unfold bind at 1. unfold existsSync. fold (exists_at (fs h)
    (Python.markerFile_of (Python.destPath_of h dest v))). by rewrite Hm.
Qed.

Lemma extract_empty_version fuel dest h :
  Python.extract fuel dest "" h = Throw OptionsVersionRequired h.
Proof. reflexivity. Qed.

(** ** Permission restoration *)

(** C6 (amended). After an [extract] that unpacked an archive and
    returned, every regular file under [bin/] of the payload whose mode
    the process may change has mode 0o755 ([libexec/] is not visited by
    [extract]); and the same call returns the same path on a host that
    refuses any set of mode changes: a failing [chmod] is swallowed and
    never makes the extraction fail. *)
Theorem extract_fixes_bin_modes fuel dest v h p h' :
  exists_at (fs h) (Python.markerFile_of (Python.destPath_of h dest v)) = false →
  Python.extract fuel dest v h = Ret p h' →
  (∀ rel c m, rel ≠ [] →
     get (fs h') (path_join [p; ["bin"]] ++ rel) = Some (File c m) →
     chmod_denied h (path_join [p; ["bin"]] ++ rel) = false →
     m = mode_755)
  ∧ (∀ d, ∃ h'', Python.extract fuel dest v (with_chmod_denied h d) = Ret p h'').
Proof.
  intros Hm Hrun.
  destruct (decide (v = "")) as [->|Hv]; [by rewrite extract_empty_version in Hrun|].
  pose proof Hrun as Hrun0.
  rewrite (extract_miss fuel dest v h Hv Hm) in Hrun.
  unfold materialize in Hrun. cbn zeta in Hrun.
  set (destPath := Python.destPath_of h dest v) in *.
  unfold bind in Hrun.
  destruct (Python.download v h) as [a h1|e h1|] eqn:E1; [|done..].
  destruct (mkdirSync destPath h1) as [[] h2|e h2|] eqn:E2; [|done..].
  destruct (unpack a destPath h2) as [[] h3|e h3|] eqn:E3; [|done..].
  destruct (Python.fixPermissions fuel _ h3) as [[] h4|e h4|] eqn:E4; [|done..].
  unfold ret in Hrun. injection Hrun as <- <-.
  split.
  - intros rel c m Hrel Hg Hd.
    apply (fixPermissions_sets_modes fuel _ h3 h4 E4 rel c m Hrel Hg).
    pose proof (preserves_after _ _ h h1 (download_tmp_log_only v)) as P1.
    rewrite E1 in P1. destruct (tmp_log_only_fields _ _ (P1 eq_refl)) as (_ & D1 & _).
    pose proof (preserves_after _ _ h1 h2 (mkdir_from_same_env destPath [])) as P2.
    unfold mkdirSync in E2. rewrite E2 in P2.
    destruct (same_env_fields _ _ (P2 eq_refl)) as (_ & _ & D2 & _).
    pose proof (preserves_after _ _ h2 h3 (unpack_same_env a destPath)) as P3.
    rewrite E3 in P3. destruct (same_env_fields _ _ (P3 eq_refl)) as (_ & _ & D3 & _).
    by rewrite D3, D2, D1.
  - intros d.
    rewrite (extract_miss fuel dest v (with_chmod_denied h d) Hv Hm).
    unfold materialize. cbn zeta.
    change (Python.destPath_of (with_chmod_denied h d) dest v) with destPath.
    unfold bind. rewrite blind_download, E1. simpl.
    unfold mkdirSync in *. rewrite (blind_mkdir_from destPath [] d h1), E2. simpl.
    rewrite blind_unpack, E3. simpl.
    pose proof (fixPermissions_verdict_shape fuel
      (path_join [Python.pythonDir_of destPath; ["bin"]])
      (with_chmod_denied h3 d) h3 eq_refl) as Hv'.
    rewrite E4 in Hv'.
    destruct (Python.fixPermissions fuel _ (with_chmod_denied h3 d)) as [[] h5|e h5|];
      try done. eauto.
Qed.

Lemma extract_fixes_bin_modes_witness :
  let p := ["home"; "u"; ".xspect-build"; "python"; "1.0.0"; "package"; "python"] in
  (∀ rel c m, rel ≠ [] →
     get (fs (default host_libexec
                (snd <$> returned (Python.extract 3 None "1.0.0" host_libexec))))
         (path_join [p; ["bin"]] ++ rel) = Some (File c m) →
     chmod_denied host_libexec (path_join [p; ["bin"]] ++ rel) = false →
     m = mode_755)
  ∧ (∀ d, ∃ h'', Python.extract 3 None "1.0.0" (with_chmod_denied host_libexec d)
                 = Ret p h'').
Proof.
  apply (extract_fixes_bin_modes 3 None "1.0.0" host_libexec);
    [reflexivity | vm_compute; reflexivity].
Defined.

(** C6, as stated, fails: [extract] returns and a regular file under
    [libexec/] of the payload keeps the mode it was unpacked with; so does
    a file under [bin/] when the change of mode is refused. *)
Lemma extract_leaves_libexec_mode :
  ∃ p h', Python.extract 3 None "1.0.0" host_libexec = Ret p h'
          ∧ get (fs h') (p ++ ["bin"; "python3"]) = Some (File (Raw "ELF") mode_755)
          ∧ get (fs h') (p ++ ["libexec"; "helper"]) = Some (File (Raw "ELF") mode_644)
          ∧ mode_644 ≠ mode_755
          ∧ ∃ h'', Python.extract 3 None "1.0.0" host_all_denied = Ret p h''
                   ∧ get (fs h'') (p ++ ["bin"; "python3"])
                     = Some (File (Raw "ELF") mode_644).
Proof.
  do 2 eexists. split; [vm_compute; reflexivity|].
  split; [reflexivity|]. split; [reflexivity|]. split; [done|].
  eexists. split; [vm_compute; reflexivity | reflexivity].
Qed.

(** ** Lexical normalisation *)

Lemma normalize_go_plain l : ∀ acc,
  Forall plain_name l → normalize_go acc l = rev acc ++ l.
Proof.
  induction l as [|c l IH]; intros acc Hl; simpl.
  - by rewrite app_nil_r.
  - apply Forall_cons in Hl as [(H1 & H2 & H3) Hl].
    rewrite !bool_decide_eq_false_2 by done. rewrite IH by done.
    simpl. by rewrite <- app_assoc.
Qed.

Lemma normalize_go_app p : ∀ acc l,
  Forall plain_name l → normalize_go acc (p ++ l) = normalize_go acc p ++ l.
Proof.
  induction p as [|c p IH]; intros acc l Hl; simpl.
  - by apply normalize_go_plain.
  - repeat case_bool_decide; by apply IH.
Qed.

Lemma normalize_app d l :
  normalize d = d → Forall plain_name l → normalize (d ++ l) = d ++ l.
Proof.
  intros Hd Hl. unfold normalize in *. by rewrite normalize_go_app, Hd.
Qed.

Lemma markerFile_of_normal d :
  normalize d = d → Python.markerFile_of d = d ++ ["package.json"].
Proof.
  intros Hd. unfold Python.markerFile_of, path_join. simpl.
  apply normalize_app; [done|]. repeat constructor; done.
Qed.

Lemma pythonDir_of_normal d :
  normalize d = d → Python.pythonDir_of d = d ++ ["package"; "python"].
Proof.
  intros Hd. unfold Python.pythonDir_of, path_join. simpl.
  apply normalize_app; [done|]. repeat constructor; done.
Qed.

(** ** Creating the destination *)

Lemma get_empty_dir f p c r : get f p = Some (Dir []) → get f (p ++ c :: r) = None.
Proof. intros H. by rewrite get_app, H. Qed.

Lemma dir_or_fresh_dir n r : dir_or_fresh n r = true → ∃ cs, n = Dir cs.
Proof. destruct r, n; simpl; try done; eauto. Qed.

(** On a path of directories that exist or can be created, [mkdir -p]
    returns, the path names a directory afterwards, and what was below it
    is as before: nothing, when the directory is new. *)
Lemma mkdir_from_fresh rest : ∀ done h n,
  get (fs h) done = Some n → dir_or_fresh n rest = true →
  ∃ h', mkdir_from done rest h = Ret tt h'
        ∧ (∃ cs', get (fs h') (done ++ rest) = Some (Dir cs'))
        ∧ ∀ nm r, get (fs h') (done ++ rest ++ nm :: r)
                  = get (fs h) (done ++ rest ++ nm :: r).
Proof.
  induction rest as [|c rest IH]; intros done h n Hn Hf.
  - destruct (dir_or_fresh_dir _ _ Hf) as [cs ->].
    exists h. rewrite app_nil_r. eauto.
  - destruct (dir_or_fresh_dir _ _ Hf) as [cs ->]. simpl in Hf.
    assert (Hsnoc : ∀ x, done ++ c :: x = (done ++ [c]) ++ x)
      by (intros x; by rewrite <- app_assoc).
    destruct (assoc c cs) as [ch|] eqn:Hc.
    + destruct (dir_or_fresh_dir _ _ Hf) as [cs1 ->].
      assert (Hg : get (fs h) (done ++ [c]) = Some (Dir cs1)) by by rewrite get_snoc, Hn.
      destruct (IH (done ++ [c]) h _ Hg Hf) as (h' & Hrun & Hd & Hframe).
      exists h'. simpl. rewrite (stat_physical _ _ _ Hg) by done.
      split; [done|]. split; [by rewrite Hsnoc|]. intros nm r.
      simpl. rewrite (Hsnoc (rest ++ nm :: r)). apply Hframe.
    + assert (Hg : get (fs h) (done ++ [c]) = None) by by rewrite get_snoc, Hn.
      destruct (put_is_Some (fs h) done c cs (Dir []) Hn) as [f' Hp].
      pose proof (put_get_same _ _ _ _ Hp) as Hnew.
      destruct (IH (done ++ [c]) (with_fs h f') (Dir []) Hnew) as (h' & Hrun & Hd & Hframe).
      { by destruct rest. }
      exists h'. simpl.
      rewrite (stat_absent _ done c [] cs Hn Hc).
      rewrite (lstat_physical _ _ _ _ Hn), Hg, (location_physical _ _ _ _ Hn).
      unfold bind, store. rewrite Hp. split; [done|]. split; [by rewrite Hsnoc|].
      intros nm r. simpl. rewrite (Hsnoc (rest ++ nm :: r)), Hframe. simpl.
      rewrite (get_app f'), Hnew. rewrite <- Hsnoc.
      rewrite (get_app (fs h) done), Hn, get_cons, Hc. by destruct rest.
Qed.

Lemma fresh_split p : ∀ n,
  dir_or_fresh n p = true →
  (∃ cs, get n p = Some (Dir cs))
  ∨ (∃ p1 c p2 cs, p = p1 ++ c :: p2 ∧ get n p1 = Some (Dir cs) ∧ assoc c cs = None).
Proof.
  induction p as [|c p IH]; intros n Hf.
  - destruct (dir_or_fresh_dir _ _ Hf) as [cs ->]. left. eauto.
  - destruct (dir_or_fresh_dir _ _ Hf) as [cs ->]. simpl in Hf.
    destruct (assoc c cs) as [ch|] eqn:Hc.
    + destruct (IH ch Hf) as [[cs1 H1]|(p1 & c1 & p2 & cs1 & -> & H1 & H2)].
      * left. exists cs1. by rewrite get_cons, Hc.
      * right. exists (c :: p1), c1, p2, cs1. by rewrite get_cons, Hc.
    + right. exists [], c, p, cs. eauto.
Qed.

(** No marker below a destination that is a directory or does not exist
    yet. *)
Lemma marker_absent f d nm :
  dir_or_fresh f d = true → get f (d ++ [nm]) = None →
  exists_at f (d ++ [nm]) = false.
Proof.
  intros Hf Hg. unfold exists_at. apply bool_decide_eq_false. intros [x Hx].
  destruct (fresh_split d f Hf) as [[cs H1]|(p1 & c & p2 & cs & -> & H1 & H2)].
  - rewrite get_snoc, H1 in Hg. by rewrite (stat_absent _ _ _ _ _ H1 Hg) in Hx.
  - rewrite <- app_assoc in Hx. simpl in Hx.
    by rewrite (stat_absent _ _ _ _ _ H1 H2) in Hx.
Qed.

(** ** What unpacking leaves alone *)

Lemma keeps_refl root nm h : keeps root nm h h.
Proof. by split. Qed.

Lemma keeps_trans root nm a b c : keeps root nm a b → keeps root nm b c → keeps root nm a c.
Proof. intros [D1 E1] [D2 E2]. split; [auto | congruence]. Qed.

Lemma put_keeps root nm c x n h f' :
  put (fs h) (root ++ c :: x) n = Some f' → c ≠ nm → keeps root nm h (with_fs h f').
Proof.
  intros Hp Hne. split.
  - intros _. destruct (put_get_above _ _ _ _ _ _ Hp) as (cs & cs' & _ & H'). eauto.
  - simpl. apply (put_get_frame _ _ _ _ _ Hp).
    + intros H%prefix_app_inv%prefix_cons_inv_1. done.
    + intros H%prefix_app_inv%prefix_cons_inv_1. done.
Qed.

Lemma tar_mkdirs_keeps root nm rel : ∀ pre,
  head (pre ++ rel) ≠ Some nm →
  preserves (keeps root nm) (tar_mkdirs (root ++ pre) rel).
Proof.
  induction rel as [|c rel IH]; intros pre Hh.
  { apply preserves_ret, keeps_refl. }
  assert (Hnext : preserves (keeps root nm) (tar_mkdirs ((root ++ pre) ++ [c]) rel)).
  { rewrite <- app_assoc. apply IH. by rewrite <- app_assoc. }
  intros h. simpl.
  destruct (get (fs h) ((root ++ pre) ++ [c])) as [[| |]|]; try apply keeps_refl.
  { apply Hnext. }
  destruct (put _ _ _) as [f'|] eqn:Hp; [|apply keeps_refl].
  assert (Hk : keeps root nm h (with_fs h f')).
  { destruct (snoc_cons pre c []) as (c0 & x & Ex).
    rewrite <- app_assoc, Ex in Hp. apply (put_keeps _ _ _ _ _ _ _ Hp).
    intros ->. apply Hh.
    replace (pre ++ c :: rel) with ((pre ++ [c]) ++ rel) by by rewrite <- app_assoc.
    by rewrite Ex. }
  specialize (Hnext (with_fs h f')).
  destruct (tar_mkdirs _ _ _); try done; by eapply keeps_trans.
Qed.

Lemma tar_write_keeps root nm c x n :
  c ≠ nm → preserves (keeps root nm) (tar_write (root ++ c :: x) n).
Proof.
  intros Hne h. unfold tar_write.
  destruct (get (fs h) _) as [[| |]|]; try apply keeps_refl;
    (destruct (put _ _ _) eqn:Hp; [by eapply put_keeps | apply keeps_refl]).
Qed.

Lemma tar_mkdirs_root_keeps root nm rel :
  head rel ≠ Some nm → preserves (keeps root nm) (tar_mkdirs root rel).
Proof.
  intros Hh. pose proof (tar_mkdirs_keeps root nm rel [] Hh) as H.
  by rewrite app_nil_r in H.
Qed.

Lemma unpack_entry_keeps root nm e :
  entry_head e ≠ Some nm → preserves (keeps root nm) (unpack_entry root e).
Proof.
  assert (Hw : ∀ p n, head p ≠ Some nm → p ≠ [] →
    preserves (keeps root nm) (tar_mkdirs root (removelast p) ;; tar_write (root ++ p) n)).
  { intros [|c x] n Hh Hp; [done|]. simpl in Hh.
    apply preserves_bind; [apply keeps_trans| |].
    - apply tar_mkdirs_root_keeps. destruct x; simpl; [done|congruence].
    - intros _. apply tar_write_keeps. congruence. }
  destruct e as [p c m|p|p t|]; unfold unpack_entry, entry_head; intros Hh;
    try case_bool_decide;
    try (apply preserves_ret, keeps_refl); try (apply preserves_throw, keeps_refl).
  - destruct (clean_path p); [apply preserves_ret, keeps_refl|]. by apply Hw.
  - by apply tar_mkdirs_root_keeps.
  - destruct (clean_path p); [apply preserves_ret, keeps_refl|]. by apply Hw.
Qed.

Lemma unpack_keeps es dest nm h root h' :
  realpath (fs h) dest = Some root →
  Forall (λ e, entry_head e ≠ Some nm) es →
  host_after (unpack (Tar es) dest h) = Some h' →
  keeps root nm h h'.
Proof.
  intros Hr Hes. simpl. rewrite Hr.
  destruct (get (fs h) root) as [[| |]|];
    try (intros ?; simplify_eq/=; apply keeps_refl).
  apply (preserves_after (keeps root nm)).
  apply preserves_for_of; [apply keeps_refl | apply keeps_trans|].
  intros e He. apply unpack_entry_keeps. by eapply (proj1 (Forall_forall _ _) Hes).
Qed.


(** ** The completion marker *)

Lemma get_dir_fresh d : ∀ f cs, get f d = Some (Dir cs) → dir_or_fresh f d = true.
Proof.
  induction d as [|c d IH]; intros f cs H; simpl in *; [by simplify_eq|].
  destruct f as [| |cs0]; [done..|]. destruct (assoc c cs0); [eauto | done].
Qed.

Lemma download_log v h pkg h' :
  v ≠ "" →
  assoc (Python.platformKey h) Python.platformPackageMap = Some pkg →
  host_after (Python.download v h) = Some h' →
  npm_log h' = npm_log h ++ [(pkg, v)].
Proof.
  intros Hv Hk. rewrite (download_unfold v h pkg Hv Hk). cbn zeta.
  destruct (shell_word v); [|done].
  destruct (registry h pkg v) as [[ver d]|]; [|by intros; simplify_eq/=].
  destruct (find _ _) as [f|]; [|by intros; simplify_eq/=].
  destruct (assoc f _) as [[| |[| |]]|]; by intros; simplify_eq/=.
Qed.

Lemma after_fs_steps fuel d a bin :
  preserves same_env
    (mkdirSync d ;; unpack a d ;; Python.fixPermissions fuel bin ;;
     ret (Python.pythonDir_of d)).
Proof.
  apply preserves_bind; [apply same_env_trans | apply mkdir_from_same_env |].
  intros _. apply preserves_bind; [apply same_env_trans | apply unpack_same_env |].
  intros _. apply preserves_bind; [apply same_env_trans | |].
  { intros h. pose proof (fixPermissions_modes_only fuel bin h) as H.
    destruct (Python.fixPermissions _ _ _); try done; apply H. }
  intros _. apply preserves_ret, same_env_refl.
Qed.

(** The path without a marker makes exactly one transport call. *)
Lemma materialize_log fuel d v h pkg h' :
  v ≠ "" →
  assoc (Python.platformKey h) Python.platformPackageMap = Some pkg →
  host_after (materialize fuel d v h) = Some h' →
  npm_log h' = npm_log h ++ [(pkg, v)]
  ∧ Python.platformKey h' = Python.platformKey h.
Proof.
  intros Hv Hk. unfold materialize. cbn zeta. unfold bind at 1.
  pose proof (download_log v h pkg) as Hlog.
  pose proof (λ x, preserves_after _ _ h x (download_tmp_log_only v)) as Htl.
  destruct (Python.download v h) as [a h0|e h0|]; [| |done].
  - intros Hrest.
    destruct (tmp_log_only_fields _ _ (Htl h0 eq_refl)) as (_ & _ & _ & Hp & Ha & _).
    apply (preserves_after _ _ _ _ (after_fs_steps fuel d a _)) in Hrest.
    destruct (same_env_fields _ _ Hrest) as (-> & _ & _ & _ & Hp' & Ha').
    split; [by apply Hlog|]. unfold Python.platformKey. congruence.
  - intros ?. simplify_eq/=.
    destruct (tmp_log_only_fields _ _ (Htl h' eq_refl)) as (_ & _ & _ & Hp & Ha & _).
    split; [by apply Hlog|]. unfold Python.platformKey. congruence.
Qed.

(** Without a marker entry in the archive no marker appears, however the
    call ends. *)
Lemma materialize_marker fuel d v h h' nm :
  dir_or_fresh (fs h) d = true →
  get (fs h) (d ++ [nm]) = None →
  (∀ es h0, Python.download v h = Ret (Tar es) h0 →
            Forall (λ e, entry_head e ≠ Some nm) es) →
  host_after (materialize fuel d v h) = Some h' →
  get (fs h') (d ++ [nm]) = None ∧ dir_or_fresh (fs h') d = true.
Proof.
  intros Hf Hg Hes. unfold materialize. cbn zeta. unfold bind at 1.
  pose proof (λ x, preserves_after _ _ h x (download_tmp_log_only v)) as Htl.
  destruct (Python.download v h) as [a h0|e h0|] eqn:Ed; [| |done].
  2:{ intros ?. simplify_eq/=.
      destruct (tmp_log_only_fields _ _ (Htl h' eq_refl)) as (-> & _). done. }
  destruct (tmp_log_only_fields _ _ (Htl h0 eq_refl)) as (Hfs & _).
  rewrite <- Hfs in Hf, Hg.
  destruct (mkdir_from_fresh d [] h0 (fs h0) eq_refl Hf) as (h2 & Hmk & [cs2 Hd2] & Hfr).
  simpl in Hd2. specialize (Hfr nm []). simpl in Hfr. rewrite Hg in Hfr.
  unfold bind at 1. unfold mkdirSync. rewrite Hmk. unfold bind at 1.
  assert (Hk3 : ∀ h3, host_after (unpack a d h2) = Some h3 → keeps d nm h2 h3).
  { intros h3 H3. destruct a as [s|es|a']; try (simplify_eq/=; apply keeps_refl).
    eapply unpack_keeps; [by eapply realpath_physical | by eapply Hes | done]. }
  assert (Hgood : ∀ h3, keeps d nm h2 h3 →
            get (fs h3) (d ++ [nm]) = None ∧ ∃ cs, get (fs h3) d = Some (Dir cs)).
  { intros h3 [D E]. split; [congruence | eauto]. }
  destruct (unpack a d h2) as [[] h3|e h3|]; [| |done].
  2:{ intros ?. simplify_eq/=. destruct (Hgood h' (Hk3 h' eq_refl)) as [? [cs ?]].
      split; [done | by eapply get_dir_fresh]. }
  destruct (Hgood h3 (Hk3 h3 eq_refl)) as [Hg3 [cs3 Hd3]].
  unfold bind at 1.
  pose proof (λ x, preserves_after _ _ h3 x
    (fixPermissions_modes_only fuel
       (path_join [Python.pythonDir_of d; ["bin"]]))) as Hmo.
  assert (Hfin : ∀ h4, modes_only h3 h4 →
            get (fs h4) (d ++ [nm]) = None ∧ dir_or_fresh (fs h4) d = true).
  { intros h4 [_ [E _]]. split; [by apply (get_shape_none _ _ _ E)|].
    destruct (get_shape_dir _ _ _ _ E Hd3) as (cs4 & H4 & _). by eapply get_dir_fresh. }
  destruct (Python.fixPermissions fuel _ h3) as [[] h4|e h4|]; [| |done];
    intros ?; simplify_eq/=; by apply Hfin, Hmo.
Qed.

(** C1 (code defect). Cache idempotence does not hold for the tarballs the
    registry serves: [npm pack] puts every member under [package/], as
    [pythonDir] assumes, so unpacking never creates [destPath/package.json],
    the file [extract] takes as its marker. After a first call that
    returned, the marker is absent, and a second call for the same version
    makes a second transport call. *)
Theorem extract_marker_never_written fuel d v h pkg es h0 p h1 :
  v ≠ "" → normalize d = d →
  assoc (Python.platformKey h) Python.platformPackageMap = Some pkg →
  dir_or_fresh (fs h) d = true →
  get (fs h) (d ++ ["package.json"]) = None →
  Python.download v h = Ret (Tar es) h0 →
  Forall (λ e, entry_head e = Some "package") es →
  Python.extract fuel (Some d) v h = Ret p h1 →
  exists_at (fs h1) (Python.markerFile_of d) = false
  ∧ npm_log h1 = npm_log h ++ [(pkg, v)]
  ∧ Python.extract fuel (Some d) v h1 = materialize fuel d v h1
  ∧ ∀ h2, host_after (Python.extract fuel (Some d) v h1) = Some h2 →
          npm_log h2 = npm_log h ++ [(pkg, v); (pkg, v)].
Proof.
  intros Hv Hd Hk Hf Hg Hdl Hes Hrun.
  assert (Hm0 : exists_at (fs h) (Python.markerFile_of d) = false).
  { rewrite markerFile_of_normal by done. by apply marker_absent. }
  rewrite (extract_miss fuel (Some d) v h Hv Hm0) in Hrun. simpl in Hrun.
  assert (Hafter : host_after (materialize fuel d v h) = Some h1) by by rewrite Hrun.
  destruct (materialize_marker fuel d v h h1 "package.json" Hf Hg) as [Hg1 Hf1];
    [|done|].
  { intros es' h0' E. rewrite Hdl in E. injection E as <- <-.
    eapply Forall_impl; [exact Hes|]. intros e He. rewrite He. done. }
  destruct (materialize_log fuel d v h pkg h1 Hv Hk Hafter) as [Hlog Hkey].
  assert (Hm1 : exists_at (fs h1) (Python.markerFile_of d) = false).
  { rewrite markerFile_of_normal by done. by apply marker_absent. }
  split; [done|]. split; [done|].
  rewrite (extract_miss fuel (Some d) v h1 Hv Hm1). simpl. split; [done|].
  intros h2 H2. rewrite <- Hkey in Hk.
  destruct (materialize_log fuel d v h1 pkg h2 Hv Hk H2) as [-> _].
  by rewrite Hlog, <- app_assoc.
Qed.

Lemma extract_marker_never_written_witness :
  let d := ["home"; "u"; "cache"] in
  ∃ h1, Python.extract 3 (Some d) "1.0.0" host_npm = Ret (d ++ ["package"; "python"]) h1
    ∧ exists_at (fs h1) (Python.markerFile_of d) = false
    ∧ npm_log h1 = [("@xspect-build/python-linux-x64", "1.0.0")]
    ∧ ∀ h2, host_after (Python.extract 3 (Some d) "1.0.0" h1) = Some h2 →
            npm_log h2 = [("@xspect-build/python-linux-x64", "1.0.0");
                          ("@xspect-build/python-linux-x64", "1.0.0")].
Proof.
  intros d. eexists. split; [vm_compute; reflexivity|].
  edestruct (extract_marker_never_written 3 d "1.0.0" host_npm
               "@xspect-build/python-linux-x64") as (H1 & H2 & _ & H3);
    [discriminate | reflexivity | reflexivity | reflexivity | reflexivity
    | vm_compute; reflexivity | repeat constructor | vm_compute; reflexivity |].
  split; [exact H1|]. split; [exact H2 | exact H3].
Defined.



(** A failure in fetching leaves the tree as it was. *)
Example failed_fetch_leaves_tree :
  ∃ h1, Python.extract 3 (Some ["home"; "u"; "cache"]) "1.0.0" host_offline
        = Throw (ExecFailed "npm pack @xspect-build/python-linux-x64@1.0.0") h1
    ∧ fs h1 = fs host_offline.
Proof. eexists. split; [vm_compute; reflexivity | reflexivity]. Qed.


(** ** Replacing links by copies *)

Lemma replaceSymlinks_S k dir h :
  BuildPython.replaceSymlinks (S k) dir h
  = (let* entries := readdirSync dir in for_of entries (replace_entry k dir)) h.
Proof. reflexivity. Qed.

Lemma wf_Dir cs :
  wf (Dir cs) = true →
  NoDup (map fst cs) ∧ ∀ c ch, assoc c cs = Some ch → wf ch = true.
Proof.
  simpl. intros [Hn Hc]%andb_prop. split; [by apply bool_decide_eq_true in Hn|].
  clear Hn. induction cs as [|[nm x] cs IH]; intros c ch; simpl; [done|].
  apply andb_prop in Hc as [Hx Hc]. case_decide; [by intros; simplify_eq | by apply IH].
Qed.

Lemma persists_refl f : persists f f.
Proof.
  split; [done|]. split; [eauto|]. intros q c cs H1 H2. by rewrite get_snoc, H1.
Qed.

Lemma persists_trans a b c : persists a b → persists b c → persists a c.
Proof.
  intros (F1 & D1 & A1) (F2 & D2 & A2). split; [eauto|]. split.
  - intros q cs H. destruct (D1 _ _ H) as [cs' H']. eauto.
  - intros q x cs H Hx. destruct (D1 _ _ H) as [cs' H'].
    pose proof (A1 _ _ _ H Hx) as Hb. rewrite get_snoc, H' in Hb. eauto.
Qed.

Lemma outside_refl d names f : outside d names f f.
Proof. by intros q _ _. Qed.

Lemma outside_trans d names a b c :
  outside d names a b → outside d names b c → outside d names a c.
Proof. intros H1 H2 q Hq1 Hq2. by rewrite H2, H1. Qed.

Lemma outside_mono d names names' f f' :
  names ⊆ names' → outside d names f f' → outside d names' f f'.
Proof. intros Hs H q Hq1 Hq2. apply H; [|done]. intros nm Hnm. apply Hq1. auto. Qed.

Lemma prefix_snoc_inv {A} (q l : list A) x :
  q `prefix_of` l ++ [x] → q `prefix_of` l ∨ q = l ++ [x].
Proof.
  intros [k E]. destruct (decide (k = [])) as [->|Hk].
  - right. by rewrite app_nil_r in E.
  - left. destruct (exists_last Hk) as (k' & y & ->).
    rewrite app_assoc in E. apply app_inj_tail in E as [-> _]. by exists k'.
Qed.

Lemma outside_apart d names f f' : outside d names f f' → apart d f f'.
Proof.
  intros H q Hq1 Hq2. apply H; [|done].
  intros nm _ Hp. apply Hq1. by eapply prefix_app_l.
Qed.

Lemma apart_outside d nm f f' : apart (d ++ [nm]) f f' → outside d [nm] f f'.
Proof.
  intros H q Hq1 Hq2. apply H.
  - apply Hq1. left.
  - intros [Hp| ->]%prefix_snoc_inv; [done|]. by apply (Hq1 nm); [left|].
Qed.

Lemma apart_refl d f : apart d f f.
Proof. by intros q _ _. Qed.

Lemma apart_trans d a b c : apart d a b → apart d b c → apart d a c.
Proof. intros H1 H2 q Hq1 Hq2. by rewrite H2, H1. Qed.

Lemma link_is_leaf f L t q n :
  get f L = Some (Symlink t) → L `prefix_of` q → get f q = Some n → q = L.
Proof.
  intros HL [[|c r] ->] Hq; [by rewrite app_nil_r|].
  apply get_below_dir in Hq as [cs Hq]. congruence.
Qed.

Lemma above_is_dir f q L n :
  get f L = Some n → q `prefix_of` L → q ≠ L → ∃ cs, get f q = Some (Dir cs).
Proof.
  intros HL [[|c r] ->] Hne; [by rewrite app_nil_r in Hne|].
  by apply get_below_dir in HL.
Qed.

(** Replacing a link touches no regular file, no directory and no name
    that a directory lacks. *)
Lemma persists_of_touched f f' L t :
  get f L = Some (Symlink t) → touched L f f' → persists f f'.
Proof.
  intros HL [Hap Hanc]. split; [|split].
  - intros q c m Hq. rewrite Hap; [done| |].
    + intros Hp. pose proof (link_is_leaf _ _ _ _ _ HL Hp Hq). congruence.
    + intros Hp. destruct (decide (q = L)) as [->|Hne]; [congruence|].
      destruct (above_is_dir _ _ _ _ HL Hp Hne). congruence.
  - intros q cs Hq. destruct (decide (q `prefix_of` L)) as [Hp|Hp].
    + destruct Hp as [[|c r] ->]; [rewrite app_nil_r in HL; congruence|].
      by eapply Hanc.
    + exists cs. rewrite Hap; [done| |done].
      intros Hp'. pose proof (link_is_leaf _ _ _ _ _ HL Hp' Hq). congruence.
  - intros q c cs Hq Hc.
    assert (Hnone : get f (q ++ [c]) = None) by by rewrite get_snoc, Hq.
    rewrite Hap; [done| |].
    + intros [Hp| ->]%prefix_snoc_inv; [|congruence].
      pose proof (link_is_leaf _ _ _ _ _ HL Hp Hq). congruence.
    + intros Hp. destruct (decide (q ++ [c] = L)) as [<-|Hne]; [congruence|].
      destruct (above_is_dir _ _ _ _ HL Hp Hne). congruence.
Qed.

Lemma touched_trans L a b c : touched L a b → touched L b c → touched L a c.
Proof. intros [A1 _] [A2 D2]. split; [by eapply apart_trans | done]. Qed.

Lemma del_is_Some f d c x : get f (d ++ [c]) = Some x → is_Some (del f (d ++ [c])).
Proof.
  revert f. induction d as [|c0 d IH]; intros f H.
  - simpl in *. destruct f as [| |cs]; [done..|].
    destruct (assoc c cs); [eauto | done].
  - destruct f as [| |cs]; [done..|].
    change ((c0 :: d) ++ [c]) with (c0 :: (d ++ [c])) in *.
    rewrite get_cons in H. destruct (assoc c0 cs) as [ch|] eqn:E; [|done].
    destruct (snoc_cons d c []) as (c1 & p1 & Ep).
    rewrite Ep, del_cons2, E, <- Ep. destruct (IH ch H) as [ch' ->]. eauto.
Qed.

Lemma del_get_same f d c f1 : del f (d ++ [c]) = Some f1 → get f1 (d ++ [c]) = None.
Proof.
  revert f f1. induction d as [|c0 d IH]; intros f f1 H.
  - simpl in H. destruct f as [| |cs]; [done..|].
    destruct (assoc c cs); [|done]. simplify_eq. simpl.
    by rewrite assoc_remove_same.
  - destruct f as [| |cs]; [done..|].
    change ((c0 :: d) ++ [c]) with (c0 :: (d ++ [c])) in *.
    destruct (snoc_cons d c []) as (c1 & p1 & Ep). rewrite Ep, del_cons2 in H.
    destruct (assoc c0 cs) as [ch|] eqn:E; [|done].
    destruct (del ch (c1 :: p1)) as [ch'|] eqn:E'; [|done]. simplify_eq.
    rewrite get_cons, (assoc_replace_same _ _ _ _ E). apply (IH ch). by rewrite Ep.
Qed.

Lemma del_touched f L f1 : del f L = Some f1 → touched L f f1.
Proof.
  intros H. split.
  - intros q H1 H2. by eapply del_get_frame.
  - intros q c r ->. destruct (del_get_above _ _ _ _ _ H) as (? & cs' & _ & ?). eauto.
Qed.

Lemma put_touched f L x f1 : put f L x = Some f1 → touched L f f1.
Proof.
  intros H. split.
  - intros q H1 H2. by eapply put_get_frame.
  - intros q c r ->. destruct (put_get_above _ _ _ _ _ _ H) as (? & cs' & _ & ?). eauto.
Qed.

Lemma touched_parent d c f f1 cs :
  touched (d ++ [c]) f f1 → get f d = Some (Dir cs) → ∃ cs', get f1 d = Some (Dir cs').
Proof. intros [_ H] _. by apply (H d c []). Qed.

(** *** The calls of the loop body, on a real directory *)

Lemma readlinkSync_physical d nm cs t h :
  get (fs h) d = Some (Dir cs) → assoc nm cs = Some (Symlink t) →
  readlinkSync (d ++ [nm]) h = Ret t h.
Proof.
  intros Hd Hc. unfold readlinkSync.
  by rewrite (lstat_physical _ _ _ _ Hd), get_snoc, Hd, Hc.
Qed.

Lemma unlinkSync_physical d nm cs x h f1 :
  get (fs h) d = Some (Dir cs) → get (fs h) (d ++ [nm]) = Some x →
  isDirectory x = false → del (fs h) (d ++ [nm]) = Some f1 →
  unlinkSync (d ++ [nm]) h = Ret tt (with_fs h f1).
Proof.
  intros Hd Hx Hk Hdel. unfold unlinkSync.
  rewrite (location_physical _ _ _ _ Hd), Hx, Hdel. by destruct x.
Qed.

Lemma copyFileSync_fresh src d nm cs c m h f2 :
  stat (fs h) src = Some (File c m) →
  get (fs h) d = Some (Dir cs) → get (fs h) (d ++ [nm]) = None →
  put (fs h) (d ++ [nm]) (File c m) = Some f2 →
  copyFileSync src (d ++ [nm]) h = Ret tt (with_fs h f2).
Proof.
  intros Hs Hd Hn Hp. unfold copyFileSync, write_location, store.
  by rewrite Hs, (location_physical _ _ _ _ Hd), Hn, Hp.
Qed.

Lemma chmodSync_physical p c m0 m h :
  get (fs h) p = Some (File c m0) →
  chmodSync p m h
  = if chmod_denied h p then Throw (FsError EPERM p) h
    else match put (fs h) p (File c m) with
         | Some f' => Ret tt (with_fs h f')
         | None => Throw (FsError ENOTDIR p) h
         end.
Proof.
  intros Hg. unfold chmodSync, store.
  destruct (chmod_denied h p); [done|].
  by rewrite (realpath_physical _ _ _ Hg), Hg.
Qed.

Lemma cpSync_fresh src ls n d nm cs h :
  location (fs h) src = Some ls → get (fs h) ls = Some n →
  get (fs h) d = Some (Dir cs) → get (fs h) (d ++ [nm]) = None →
  cpSync src (d ++ [nm]) h
  = if isDirectory n && bool_decide (ls `prefix_of` d ++ [nm])
    then Throw (FsError EINVAL (d ++ [nm])) h
    else match put (fs h) (d ++ [nm]) (copy_tree src n) with
         | Some f' => Ret tt (with_fs h f')
         | None => Throw (FsError ENOTDIR (d ++ [nm])) h
         end.
Proof.
  intros Hl Hg Hd Hn. unfold cpSync, store.
  by rewrite Hl, Hg, (location_physical _ _ _ _ Hd), Hn.
Qed.

(** *** The copy of a tree *)

Lemma copy_tree_children from cs :
  ∃ cs', copy_tree from (Dir cs) = Dir cs'
         ∧ ∀ c, assoc c cs' = copy_tree (from ++ [c]) <$> assoc c cs.
Proof.
  simpl. eexists. split; [reflexivity|]. intros c.
  induction cs as [|[nm ch] cs IH]; simpl; [done|].
  case_decide; [by subst | done].
Qed.

(** The copy holds, at every path, the copy of what the source holds
    there. *)
Lemma get_copy_tree x : ∀ from n,
  get (copy_tree from n) x = copy_tree (from ++ x) <$> get n x.
Proof.
  induction x as [|c x IH]; intros from n.
  { by rewrite app_nil_r. }
  destruct n as [c0 m0|t0|cs]; [done..|].
  destruct (copy_tree_children from cs) as (cs' & -> & Hcs').
  rewrite !get_cons, Hcs'. destruct (assoc c cs) as [ch|]; simpl; [|done].
  rewrite IH. by rewrite <- app_assoc.
Qed.

Lemma is_absolute_target dir t : is_absolute (absolute_target dir t) = true.
Proof.
  unfold absolute_target. destruct (is_absolute t) eqn:E; [done|].
  unfold path_string. destruct (path_resolve dir t) as [|c r]; [done|].
  simpl join_slash. rewrite append_cons. unfold is_absolute, startsWith. simpl.
  by destruct ("" +:+ c +:+ join_slash r).
Qed.

(** Every link of a copy has an absolute target. *)
Lemma copy_tree_links_absolute from n x t :
  get (copy_tree from n) x = Some (Symlink t) → is_absolute t = true.
Proof.
  rewrite get_copy_tree. destruct (get n x) as [[c m|t0|cs]|]; simpl; try done.
  intros. simplify_eq. apply is_absolute_target.
Qed.

Lemma lacks_get f p : lacks f p = true → get f p = None.
Proof.
  revert f. induction p as [|c p IH]; intros f H; [done|].
  destruct f as [| |cs]; [done..|]. simpl in *.
  destruct (assoc c cs); [by apply IH | done].
Qed.

Lemma lacks_app f p x n : get f p = Some n → lacks f (p ++ x) = lacks n x.
Proof.
  revert f. induction p as [|c p IH]; intros f H; simpl in *; [by simplify_eq|].
  destruct f as [| |cs]; [done..|]. destruct (assoc c cs); [by apply IH | done].
Qed.

Lemma copy_tree_lacks x : ∀ from n,
  lacks n x = true → lacks (copy_tree from n) x = true.
Proof.
  induction x as [|c x IH]; intros from n H; [done|].
  destruct n as [c0 m0|t0|cs]; [done..|].
  destruct (copy_tree_children from cs) as (cs' & -> & Hcs').
  simpl in *. rewrite Hcs'. destruct (assoc c cs) as [ch|]; simpl; [by apply IH | done].
Qed.

Lemma lacks_split p : ∀ n,
  lacks n p = true →
  ∃ p1 c p2 cs, p = p1 ++ c :: p2 ∧ get n p1 = Some (Dir cs) ∧ assoc c cs = None.
Proof.
  induction p as [|c p IH]; intros n Hl; [done|].
  destruct n as [| |cs]; [done..|]. simpl in Hl.
  destruct (assoc c cs) as [ch|] eqn:Hc.
  - destruct (IH ch Hl) as (p1 & c1 & p2 & cs1 & -> & H1 & H2).
    exists (c :: p1), c1, p2, cs1. by rewrite get_cons, Hc.
  - exists [], c, p, cs. eauto.
Qed.

Lemma lacks_intro p1 : ∀ n c p2 cs,
  get n p1 = Some (Dir cs) → assoc c cs = None → lacks n (p1 ++ c :: p2) = true.
Proof.
  induction p1 as [|c1 p1 IH]; intros n c p2 cs Hg Hc; simpl in *.
  - simplify_eq. by rewrite Hc.
  - destruct n as [| |cs0]; [done..|]. destruct (assoc c1 cs0); [eauto | done].
Qed.

Lemma lacks_persists f f' p : persists f f' → lacks f p = true → lacks f' p = true.
Proof.
  intros (_ & Hd & Ha) Hl.
  destruct (lacks_split p f Hl) as (p1 & c & p2 & cs & -> & H1 & H2).
  destruct (Hd _ _ H1) as [cs' H1']. apply (lacks_intro _ _ _ _ cs' H1').
  pose proof (Ha _ _ _ H1 H2) as Hn. by rewrite get_snoc, H1' in Hn.
Qed.

Lemma lacks_stat f p : lacks f p = true → stat f p = None.
Proof.
  intros Hl. destruct (lacks_split p f Hl) as (p1 & c & p2 & cs & -> & H1 & H2).
  by eapply stat_absent.
Qed.

(** *** Chains of links *)

Lemma chase_eq l f p :
  chase l f p
  = match get f p with
    | Some (Symlink t) =>
        match l with
        | O => None
        | S l' => chase l' f (path_resolve (removelast p) t)
        end
    | o => o
    end.
Proof. by destruct l. Qed.

Lemma chase_mono l : ∀ l' f p r, chase l f p = Some r → l ≤ l' → chase l' f p = Some r.
Proof.
  induction l as [|l IH]; intros l' f p r H Hle; rewrite chase_eq in H |- *;
    destruct (get f p) as [[c m|t|cs]|]; try done.
  destruct l' as [|l']; [lia|]. apply (IH l'); [done | lia].
Qed.

(** The least number of links that is enough. *)
Lemma chase_min l : ∀ f p r,
  chase l f p = Some r →
  ∃ l0, l0 ≤ l ∧ chase l0 f p = Some r ∧ ∀ k, k < l0 → chase k f p = None.
Proof.
  induction l as [|l IH]; intros f p r H.
  { exists 0. split; [done|]. split; [done|]. intros k Hk. lia. }
  destruct (chase l f p) as [r'|] eqn:E.
  - pose proof (chase_mono l (S l) f p r' E) as E'. rewrite H in E'.
    assert (r' = r) by (symmetry; apply (inj Some); apply E'; lia). subst r'.
    destruct (IH f p r E) as (l0 & Hle & H0 & Hmin).
    exists l0. split; [lia | done].
  - exists (S l). split; [done|]. split; [done|]. intros k Hk.
    destruct (chase k f p) as [r'|] eqn:E'; [|done].
    rewrite (chase_mono k l f p r' E') in E by lia. done.
Qed.

Lemma get_root_dir f d n : get f d = Some n → isDirectory n = true → isDirectory f = true.
Proof.
  destruct d as [|c d]; simpl; [by intros; simplify_eq|].
  by destruct f.
Qed.

Lemma realpath_from_physical l f p n :
  get f p = Some n → is_link n = false → realpath_from l f [] p = Some p.
Proof.
  intros H Hn.
  destruct (decide (p = [])) as [->|Hp]; [apply realpath_from_nil|].
  destruct (exists_last Hp) as (d & c & ->).
  destruct (get_below_dir _ _ _ _ _ H) as [cs Hd].
  rewrite (realpath_dirs _ _ d [] [c] cs), realpath_from_cons by done.
  simpl. rewrite H. by destruct n; rewrite ?realpath_from_nil.
Qed.

(** Resolution follows a chain of links to the regular file it leads
    to. *)
Lemma realpath_chase l : ∀ f p c m,
  isDirectory f = true →
  chase l f p = Some (File c m) →
  ∃ q, realpath_from l f [] p = Some q ∧ get f q = Some (File c m).
Proof.
  induction l as [|l IH]; intros f p c m Hroot H; rewrite chase_eq in H.
  - destruct (get f p) as [[c0 m0|t|cs]|] eqn:E; try done. simplify_eq.
    exists p. split; [|done].
    apply (realpath_from_physical 0 f p (File c m) E eq_refl).
  - destruct (get f p) as [[c0 m0|t|cs]|] eqn:E; try done.
    + simplify_eq. exists p. split; [|done].
      apply (realpath_from_physical _ f p (File c m) E eq_refl).
    + destruct (decide (p = [])) as [->|Hp].
      { simpl in E. by simplify_eq. }
      destruct (exists_last Hp) as (d & x & ->).
      destruct (get_below_dir _ _ _ _ _ E) as [cs Hd].
      rewrite removelast_last in H.
      destruct (IH f _ c m Hroot H) as (q & Hq & Hg). exists q. split; [|done].
      rewrite (realpath_dirs _ _ d [] [x] cs), realpath_from_cons by done.
      simpl. by rewrite E, app_nil_r.
Qed.

Lemma stat_chase l f p c m :
  isDirectory f = true → l ≤ MAXSYMLINKS →
  chase l f p = Some (File c m) → stat f p = Some (File c m).
Proof.
  intros Hroot Hl H.
  apply (chase_mono l MAXSYMLINKS) in H; [|done].
  destruct (realpath_chase _ f p c m Hroot H) as (q & Hq & Hg).
  unfold stat, realpath. by rewrite Hq.
Qed.

Lemma dangles_eq l f p :
  dangles l f p
  = match get f p with
    | Some (Symlink t) =>
        match l with
        | O => false
        | S l' => dangles l' f (path_resolve (removelast p) t)
        end
    | Some _ => false
    | None => lacks f p
    end.
Proof. by destruct l. Qed.

Lemma dangles_mono l : ∀ l' f p, dangles l f p = true → l ≤ l' → dangles l' f p = true.
Proof.
  induction l as [|l IH]; intros l' f p H Hle; rewrite dangles_eq in H |- *;
    destruct (get f p) as [[c m|t|cs]|]; try done.
  destruct l' as [|l']; [lia|]. apply (IH l'); [done | lia].
Qed.

Lemma dangles_min l : ∀ f p,
  dangles l f p = true →
  ∃ l0, l0 ≤ l ∧ dangles l0 f p = true ∧ ∀ k, k < l0 → dangles k f p = false.
Proof.
  induction l as [|l IH]; intros f p H.
  { exists 0. split; [done|]. split; [done|]. intros k Hk. lia. }
  destruct (dangles l f p) eqn:E.
  - destruct (IH f p E) as (l0 & Hle & H0 & Hmin).
    exists l0. split; [lia | done].
  - exists (S l). split; [done|]. split; [done|]. intros k Hk.
    destruct (dangles k f p) eqn:E'; [|done].
    rewrite (dangles_mono k l f p E') in E by lia. done.
Qed.

Lemma realpath_from_lacks l f p : lacks f p = true → realpath_from l f [] p = None.
Proof.
  intros Hl. destruct (lacks_split p f Hl) as (p1 & c & p2 & cs & -> & H1 & H2).
  rewrite (realpath_dirs _ _ p1 [] (c :: p2) cs), realpath_from_cons by done.
  simpl. by rewrite get_snoc, H1, H2.
Qed.

(** Resolution fails on a chain of links that leads nowhere. *)
Lemma realpath_dangles l : ∀ f p,
  isDirectory f = true →
  dangles l f p = true → realpath_from l f [] p = None.
Proof.
  induction l as [|l IH]; intros f p Hroot H; rewrite dangles_eq in H.
  - destruct (get f p) as [[c0 m0|t|cs]|] eqn:E; try done.
    by apply realpath_from_lacks.
  - destruct (get f p) as [[c0 m0|t|cs]|] eqn:E; try done;
      [|by apply realpath_from_lacks].
    destruct (decide (p = [])) as [->|Hp].
    { simpl in E. by simplify_eq. }
    destruct (exists_last Hp) as (d & x & ->).
    destruct (get_below_dir _ _ _ _ _ E) as [cs Hd].
    rewrite removelast_last in H.
    rewrite (realpath_dirs _ _ d [] [x] cs), realpath_from_cons by done.
    simpl. rewrite E, app_nil_r. by apply IH.
Qed.

Lemma stat_dangles l f p :
  isDirectory f = true → l ≤ MAXSYMLINKS →
  dangles l f p = true → stat f p = None.
Proof.
  intros Hroot Hl H.
  apply (dangles_mono l MAXSYMLINKS) in H; [|done].
  unfold stat, realpath. by rewrite (realpath_dangles _ f p Hroot H).
Qed.


(** *** One link *)

(** The body of the loop on a link [nm] of the real directory [d]: the
    link goes (the tree is then [f1]); whatever follows happens at the
    link's place; and when the body returns, the place holds a copy of the
    file the target resolves to in [f1]; when the target resolves to a
    directory, the copy of what the target path itself names, a directory
    or a link to one; and nothing when the target does not resolve. *)
Lemma replace_link_step d nm cs t h :
  get (fs h) d = Some (Dir cs) → assoc nm cs = Some (Symlink t) →
  ∃ f1, del (fs h) (d ++ [nm]) = Some f1
    ∧ (∀ h', host_after (replace_link d (d ++ [nm]) h) = Some h' →
         same_env h h' ∧ touched (d ++ [nm]) (fs h) (fs h'))
    ∧ (∀ h', replace_link d (d ++ [nm]) h = Ret tt h' →
         match stat f1 (path_resolve d t) with
         | Some (File c m) => get (fs h') (d ++ [nm]) = Some (File c m)
         | Some (Dir _) =>
             ∃ ls n, location f1 (path_resolve d t) = Some ls
                     ∧ get f1 ls = Some n
                     ∧ get (fs h') (d ++ [nm]) = Some (copy_tree (path_resolve d t) n)
         | Some (Symlink _) => True
         | None => get (fs h') (d ++ [nm]) = None
         end).
Proof.
  intros Hd Hc. set (L := d ++ [nm]). set (tp := path_resolve d t).
  assert (HL : get (fs h) L = Some (Symlink t)) by by (unfold L; rewrite get_snoc, Hd).
  destruct (del_is_Some _ _ _ _ HL) as [f1 Hdel]. exists f1. split; [done|].
  pose proof (del_touched _ _ _ Hdel) as T1.
  pose proof (del_get_same _ _ _ _ Hdel) as Hn1. fold L in Hn1.
  destruct (touched_parent _ _ _ _ _ T1 Hd) as [cs1 Hd1].
  remember (replace_link d L h) as o eqn:Ho.
  unfold replace_link in Ho. unfold bind at 1 in Ho.
  unfold L at 1 in Ho. rewrite (readlinkSync_physical _ _ _ _ _ Hd Hc) in Ho.
  unfold bind at 1 in Ho. unfold L at 1 in Ho.
  rewrite (unlinkSync_physical _ _ _ _ _ _ Hd HL eq_refl Hdel) in Ho.
  fold tp in Ho. unfold bind at 1 in Ho. unfold existsSync in Ho.
  change (fs (with_fs h f1)) with f1 in Ho.
  destruct (stat f1 tp) as [st|] eqn:Est.
  2:{ rewrite bool_decide_eq_false_2 in Ho by by intros []. unfold ret in Ho.
      subst o. split; intros h' E; simplify_eq/=; [split; [reflexivity | exact T1] | done]. }
  rewrite bool_decide_eq_true_2 in Ho by eauto. unfold bind at 1, statSync in Ho.
  change (fs (with_fs h f1)) with f1 in Ho.
  rewrite Est in Ho.
  destruct st as [c m|t'|cs0];
    [ change (isDirectory (File c m)) with false in Ho
    | change (isDirectory (Symlink t')) with false in Ho
    | change (isDirectory (Dir cs0)) with true in Ho ];
    cbv iota beta in Ho.
  - (* the target is a regular file *)
    destruct (put_is_Some f1 d nm cs1 (File c m) Hd1) as [f2 Hp2]. fold L in Hp2.
    pose proof (put_touched _ _ _ _ Hp2) as T2.
    pose proof (put_get_same _ _ _ _ Hp2) as Hg2.
    unfold bind at 1 in Ho. unfold L at 1 in Ho.
    rewrite (copyFileSync_fresh tp d nm cs1 c m (with_fs h f1) f2 Est Hd1 Hn1 Hp2) in Ho.
    fold L in Ho. simpl mode_of in Ho.
    rewrite (chmodSync_physical L c m m (with_fs (with_fs h f1) f2) Hg2) in Ho.
    change (chmod_denied (with_fs (with_fs h f1) f2)) with (chmod_denied h) in Ho.
    destruct (chmod_denied h L).
    { subst o. split; intros h' E; simplify_eq/=.
      split; [reflexivity|]. by eapply touched_trans. }
    change (fs (with_fs (with_fs h f1) f2)) with f2 in Ho.
    destruct (touched_parent _ _ _ _ _ T2 Hd1) as [cs2 Hd2].
    destruct (put_is_Some f2 d nm cs2 (File c m) Hd2) as [f3 Hp3]. fold L in Hp3.
    rewrite Hp3 in Ho. subst o. split; intros h' E; simplify_eq/=.
    + split; [reflexivity|]. eapply touched_trans; [|by eapply put_touched].
      by eapply touched_trans.
    + by eapply put_get_same.
  - (* cannot happen: [stat] follows links *)
    unfold bind at 1, copyFileSync in Ho. change (fs (with_fs h f1)) with f1 in Ho.
    rewrite Est in Ho. subst o.
    split; intros h' E; simplify_eq/=. split; [reflexivity | exact T1].
  - (* the target is a directory *)
    destruct (location f1 tp) as [ls|] eqn:El.
    2:{ unfold cpSync in Ho. change (fs (with_fs h f1)) with f1 in Ho.
        rewrite El in Ho. subst o.
        split; intros h' E; simplify_eq/=. split; [reflexivity | exact T1]. }
    destruct (get f1 ls) as [n|] eqn:En.
    2:{ unfold cpSync in Ho. change (fs (with_fs h f1)) with f1 in Ho.
        rewrite El, En in Ho. subst o.
        split; intros h' E; simplify_eq/=. split; [reflexivity | exact T1]. }
    unfold L at 1 in Ho.
    rewrite (cpSync_fresh tp ls n d nm cs1 (with_fs h f1) El En Hd1 Hn1) in Ho.
    fold L in Ho. destruct (isDirectory n && bool_decide (ls `prefix_of` L)).
    { subst o. split; intros h' E; simplify_eq/=. split; [reflexivity | exact T1]. }
    change (fs (with_fs h f1)) with f1 in Ho.
    destruct (put_is_Some f1 d nm cs1 (copy_tree tp n) Hd1) as [f2 Hp2].
    fold L in Hp2. rewrite Hp2 in Ho. subst o. split; intros h' E; simplify_eq/=.
    + split; [reflexivity|]. eapply touched_trans; [exact T1 | by eapply put_touched].
    + exists ls, n. split; [done|]. split; [done|]. by eapply put_get_same.
Qed.

(** Taking a link away breaks no chain that starts at its target and
    leads to a regular file: such a chain does not come back to the
    link. *)
Lemma chase_del f L t f1 l c m :
  get f L = Some (Symlink t) → del f L = Some f1 →
  chase l f (path_resolve (removelast L) t) = Some (File c m) →
  chase l f1 (path_resolve (removelast L) t) = Some (File c m).
Proof.
  intros HL Hdel H. set (tp := path_resolve (removelast L) t) in *.
  pose proof (del_touched _ _ _ Hdel) as T1.
  pose proof (persists_of_touched _ _ _ _ HL T1) as (PF & _ & _).
  destruct (chase_min l f tp _ H) as (l0 & Hle & H0 & Hmin).
  apply (chase_mono l0); [|done].
  assert (Haux : ∀ k q, k ≤ l0 → chase k f q = Some (File c m) →
                        chase k f1 q = Some (File c m)); [|by apply Haux].
  induction k as [|k IH]; intros q Hk Hq; rewrite chase_eq in Hq |- *.
  - destruct (get f q) as [[c0 m0|t0|cs0]|] eqn:E; try done.
    by rewrite (PF _ _ _ E).
  - destruct (get f q) as [[c0 m0|t0|cs0]|] eqn:E; try done.
    { by rewrite (PF _ _ _ E). }
    destruct (decide (q = L)) as [->|Hne].
    { simplify_eq. fold tp in Hq. rewrite (Hmin k) in Hq by lia. done. }
    destruct T1 as [Hap _]. rewrite Hap, E.
    + apply IH; [lia | done].
    + intros Hp. apply Hne. by eapply link_is_leaf.
    + intros Hp. destruct (above_is_dir _ _ _ _ HL Hp Hne). congruence.
Qed.

(** Nor does it mend a chain that starts at its target and leads
    nowhere. *)
Lemma dangles_del f L t f1 l :
  get f L = Some (Symlink t) → del f L = Some f1 →
  dangles l f (path_resolve (removelast L) t) = true →
  dangles l f1 (path_resolve (removelast L) t) = true.
Proof.
  intros HL Hdel H. set (tp := path_resolve (removelast L) t) in *.
  pose proof (del_touched _ _ _ Hdel) as T1.
  pose proof (persists_of_touched _ _ _ _ HL T1) as Hp.
  destruct (dangles_min l f tp H) as (l0 & Hle & H0 & Hmin).
  apply (dangles_mono l0); [|done].
  assert (Haux : ∀ k q, k ≤ l0 → dangles k f q = true → dangles k f1 q = true);
    [|by apply Haux].
  assert (Hnone : ∀ q, get f q = None → lacks f q = true →
                       get f1 q = None ∧ lacks f1 q = true).
  { intros q _ Hl. pose proof (lacks_persists _ _ _ Hp Hl) as Hl1.
    split; [by apply lacks_get | done]. }
  induction k as [|k IH]; intros q Hk Hq; rewrite dangles_eq in Hq |- *.
  - destruct (get f q) as [[c0 m0|t0|cs0]|] eqn:E; try done.
    destruct (Hnone q E Hq) as [-> ?]. done.
  - destruct (get f q) as [[c0 m0|t0|cs0]|] eqn:E; try done.
    2:{ destruct (Hnone q E Hq) as [-> ?]. done. }
    destruct (decide (q = L)) as [->|Hne].
    { assert (t0 = t) as -> by congruence. fold tp in Hq.
      rewrite (Hmin k) in Hq by lia. done. }
    destruct T1 as [Hap _]. rewrite Hap, E.
    + apply IH; [lia | done].
    + intros Hpre. apply Hne. by eapply link_is_leaf.
    + intros Hpre. destruct (above_is_dir _ _ _ _ HL Hpre Hne). congruence.
Qed.

(** Replacing a link keeps every chain that led to a regular file or
    nowhere. *)
Lemma replace_link_chains d nm cs t h h' :
  get (fs h) d = Some (Dir cs) → assoc nm cs = Some (Symlink t) →
  replace_link d (d ++ [nm]) h = Ret tt h' →
  chains (fs h) (fs h').
Proof.
  intros Hd Hc Hrun. set (L := d ++ [nm]) in *.
  assert (HL : get (fs h) L = Some (Symlink t)) by by (unfold L; rewrite get_snoc, Hd).
  destruct (replace_link_step d nm cs t h Hd Hc) as (f1 & Hdel & Hall & Hpost).
  fold L in Hdel, Hall, Hpost.
  destruct (Hall h') as [_ T]; [by rewrite Hrun|]. specialize (Hpost h' Hrun).
  pose proof (persists_of_touched _ _ _ _ HL T) as Hp.
  pose proof Hp as (PF & _ & _).
  pose proof (del_touched _ _ _ Hdel) as T1.
  destruct (touched_parent _ _ _ _ _ T1 Hd) as [cs1 Hd1].
  destruct (touched_parent _ _ _ _ _ T Hd) as [cs2 Hd2].
  assert (Hroot : isDirectory f1 = true) by by eapply get_root_dir.
  assert (Hother : ∀ p t0, get (fs h) p = Some (Symlink t0) → p ≠ L →
                           get (fs h') p = Some (Symlink t0)).
  { intros p t0 E Hne. destruct T as [Hap _]. rewrite Hap; [done| |].
    - intros Hpre. apply Hne. by eapply link_is_leaf.
    - intros Hpre. destruct (above_is_dir _ _ _ _ HL Hpre Hne). congruence. }
  intros l. induction l as [|l IH]; intros p Hl; split.
  - intros c m H. rewrite chase_eq in H |- *.
    destruct (get (fs h) p) as [[c0 m0|t0|cs0]|] eqn:E; try done.
    by rewrite (PF _ _ _ E).
  - intros H. rewrite dangles_eq in H |- *.
    destruct (get (fs h) p) as [[c0 m0|t0|cs0]|] eqn:E; try done.
    pose proof (lacks_persists _ _ _ Hp H) as H'.
    by rewrite (lacks_get _ _ H').
  - intros c m H. rewrite chase_eq in H |- *.
    destruct (get (fs h) p) as [[c0 m0|t0|cs0]|] eqn:E; try done.
    { by rewrite (PF _ _ _ E). }
    destruct (decide (p = L)) as [->|Hne].
    + assert (t0 = t) as -> by congruence.
      unfold L in H. rewrite removelast_last in H.
      assert (Hs : stat f1 (path_resolve d t) = Some (File c m)).
      { apply (stat_chase l); [done | lia |].
        pose proof (chase_del (fs h) L t f1 l c m HL Hdel) as Hcd.
        unfold L in Hcd at 1 2. rewrite removelast_last in Hcd. by apply Hcd. }
      rewrite Hs in Hpost. by rewrite Hpost.
    + rewrite (Hother _ _ E Hne). apply IH; [lia | done].
  - intros H. rewrite dangles_eq in H |- *.
    destruct (get (fs h) p) as [[c0 m0|t0|cs0]|] eqn:E; try done.
    2:{ pose proof (lacks_persists _ _ _ Hp H) as H'.
        by rewrite (lacks_get _ _ H'). }
    destruct (decide (p = L)) as [->|Hne].
    + assert (t0 = t) as -> by congruence.
      unfold L in H. rewrite removelast_last in H.
      assert (Hs : stat f1 (path_resolve d t) = None).
      { apply (stat_dangles l); [done | lia |].
        pose proof (dangles_del (fs h) L t f1 l HL Hdel) as Hdd.
        unfold L in Hdd at 1 2. rewrite removelast_last in Hdd. by apply Hdd. }
      rewrite Hs in Hpost. rewrite Hpost.
      unfold L in Hpost |- *. rewrite get_snoc, Hd2 in Hpost.
      by apply (lacks_intro d _ nm [] cs2).
    + rewrite (Hother _ _ E Hne). apply IH; [lia | done].
Qed.

(** *** The whole traversal: what it leaves alone *)

Lemma assoc_elem_of {V} k (v : V) l :
  NoDup (map fst l) → (k, v) ∈ l → assoc k l = Some v.
Proof.
  induction l as [|[k0 v0] l IH]; simpl; intros Hn Hin; [by apply elem_of_nil in Hin|].
  apply NoDup_cons in Hn as [Hk Hn].
  apply elem_of_cons in Hin as [Heq|Hin]; [simplify_eq; by rewrite decide_True|].
  rewrite decide_False; [by apply IH|].
  intros ->. apply Hk. by apply (list_elem_of_fmap_2 fst _ (k0, v)).
Qed.

Lemma bind_after {A B} (m : M A) (k : A → M B) h h' :
  host_after (bind m k h) = Some h' →
  (∃ e, m h = Throw e h')
  ∨ (∃ a h1, m h = Ret a h1 ∧ host_after (k a h1) = Some h').
Proof.
  unfold bind. destruct (m h) as [a h1|e h1|]; [|intros; simplify_eq/=|done]; eauto.
Qed.

Section ReplaceLoop.
Context (k : nat).
Context (IH : ∀ d h n, get (fs h) d = Some n → isDirectory n = true → wf n = true →
  ∀ h', host_after (BuildPython.replaceSymlinks k d h) = Some h' →
    same_env h h' ∧ apart d (fs h) (fs h') ∧ persists (fs h) (fs h')).

(** One entry, whatever its kind, as it was listed and still is. *)
Lemma replace_entry_frame d cs nm ch h h' :
  get (fs h) d = Some (Dir cs) → assoc nm cs = Some ch → wf ch = true →
  host_after (replace_entry k d (nm, kind_of ch) h) = Some h' →
  same_env h h' ∧ outside d [nm] (fs h) (fs h') ∧ persists (fs h) (fs h').
Proof using IH.
  intros Hd Hc Hwf. unfold replace_entry, join_name. simpl.
  destruct ch as [c m|t|cs0]; simpl.
  - intros ?. simplify_eq. split; [apply same_env_refl|].
    split; [apply outside_refl | apply persists_refl].
  - destruct (replace_link_step d nm cs t h Hd Hc) as (f1 & _ & Hall & _).
    intros Ho. destruct (Hall h' Ho) as [He Ht]. split; [done|]. split.
    + apply apart_outside, Ht.
    + eapply persists_of_touched; [|exact Ht]. by rewrite get_snoc, Hd.
  - intros Ho. destruct (IH (d ++ [nm]) h (Dir cs0)) with (h' := h') as (He & Ha & Hp);
      [by rewrite get_snoc, Hd | done | done | done |].
    split; [done|]. split; [by apply apart_outside | done].
Qed.

Lemma replace_loop_frame d l : ∀ h,
  (∃ cs, get (fs h) d = Some (Dir cs)) →
  NoDup (map fst l) →
  (∀ nm ch, (nm, ch) ∈ l → get (fs h) (d ++ [nm]) = Some ch ∧ wf ch = true) →
  ∀ h', host_after (for_of (map (λ e, (e.1, kind_of e.2)) l) (replace_entry k d) h)
        = Some h' →
    same_env h h' ∧ outside d (map fst l) (fs h) (fs h') ∧ persists (fs h) (fs h').
Proof using IH.
  induction l as [|[nm ch] l IHl]; intros h [cs Hd] Hnd Hl h' Ho.
  { simpl in Ho. simplify_eq. split; [apply same_env_refl|].
    split; [apply outside_refl | apply persists_refl]. }
  apply NoDup_cons in Hnd as [Hnm Hnd].
  destruct (Hl nm ch) as [Hg Hwf]; [left|].
  assert (Hc : assoc nm cs = Some ch) by by rewrite get_snoc, Hd in Hg.
  pose proof (λ x, replace_entry_frame d cs nm ch h x Hd Hc Hwf) as Hstep.
  simpl in Ho. apply bind_after in Ho as [[e Ho]|([] & h1 & Ho & Hrest)].
  - destruct (Hstep h') as (He & Hout & Hp); [by rewrite Ho|].
    split; [done|]. split; [|done].
    eapply outside_mono; [|exact Hout]. intros x Hx%list_elem_of_singleton. subst. left.
  - destruct (Hstep h1) as (He & Hout & Hp); [by rewrite Ho|].
    destruct (IHl h1) with (h' := h') as (He' & Hout' & Hp'); [|done| |done|].
    + destruct Hp as (_ & Hdir & _). eauto.
    + intros nm' ch' Hin. destruct (Hl nm' ch') as [Hg' Hwf']; [by right|].
      split; [|done]. rewrite Hout; [done| |apply prefix_snoc_not].
      intros x Hx%list_elem_of_singleton Hpre%prefix_app_inv%prefix_cons_inv_1. subst.
      apply Hnm. by apply (list_elem_of_fmap_2 fst _ (nm', ch')).
    + split; [by eapply same_env_trans|]. split; [|by eapply persists_trans].
      eapply outside_trans.
      * eapply outside_mono; [|exact Hout].
        intros x Hx%list_elem_of_singleton. subst. left.
      * eapply outside_mono; [|exact Hout']. intros x Hx. by right.
Qed.

End ReplaceLoop.

(** The traversal of a real directory without repeated names changes
    nothing outside it; regular files and directories are kept wherever
    they are. *)
Lemma replaceSymlinks_frame k : ∀ d h n,
  get (fs h) d = Some n → isDirectory n = true → wf n = true →
  ∀ h', host_after (BuildPython.replaceSymlinks k d h) = Some h' →
    same_env h h' ∧ apart d (fs h) (fs h') ∧ persists (fs h) (fs h').
Proof.
  induction k as [|k IH]; intros d h n Hd Hdir Hwf h' Ho; [done|].
  destruct n as [| |cs]; [done..|]. destruct (wf_Dir cs Hwf) as [Hnd Hch].
  rewrite replaceSymlinks_S in Ho. unfold bind in Ho.
  rewrite (readdirSync_physical _ _ _ Hd) in Ho.
  destruct (replace_loop_frame k IH d cs h) with (h' := h') as (He & Hout & Hp);
    [eauto | done | | done |].
  - intros nm ch Hin. pose proof (assoc_elem_of _ _ _ Hnd Hin) as Hc.
    split; [by rewrite get_snoc, Hd | by eapply Hch].
  - split; [done|]. split; [by eapply outside_apart | done].
Qed.

(** *** One link, seen from the tree the traversal started from *)

Lemma link_replaced_from f0 f tp f' p :
  persists f0 f → chains f0 f → link_replaced f tp f' p → link_replaced f0 tp f' p.
Proof.
  intros Hp Hc (HF & HD & HN & HA). pose proof Hp as (PF & PD & _).
  split; [|split; [|split]].
  - intros c m H. apply HF. by apply Hc.
  - intros [cs H]. destruct (PD _ _ H) as [cs1 H1].
    destruct HD as (D1 & D2 & D3 & D4); [eauto|].
    split; [done|]. split; [|split].
    + intros x c m Hx. apply D2. eauto.
    + intros x cs2 Hx. destruct (PD _ _ Hx) as [cs3 Hx3]. eauto.
    + intros x Hx. apply D4. by eapply lacks_persists.
  - intros H. apply HN. by apply Hc.
  - done.
Qed.

Lemma link_replaced_later f0 tp f1 f' p :
  (∀ x, get f' (p ++ x) = get f1 (p ++ x)) →
  link_replaced f0 tp f1 p → link_replaced f0 tp f' p.
Proof.
  intros E (HF & HD & HN & HA).
  pose proof (E []) as E0. rewrite !app_nil_r in E0.
  split; [|split; [|split]].
  - intros c m H. rewrite E0. eauto.
  - intros Hcs. destruct (HD Hcs) as (D1 & D2 & D3 & D4).
    split; [by rewrite E0|]. split; [|split].
    + intros x c m Hx. rewrite E. eauto.
    + intros x cs1 Hx. rewrite E. eauto.
    + intros x Hx. rewrite E. eauto.
  - intros H. rewrite E0. eauto.
  - intros x t. rewrite E. apply HA.
Qed.

Lemma listed_step d nm0 ch0 l f f1 :
  listed d ((nm0, ch0) :: l) f → nm0 ∉ map fst l →
  outside d [nm0] f f1 → persists f f1 → listed d l f1.
Proof.
  intros [[cs Hd] Hl] Hnm Hout (_ & Hdir & _). split; [eauto|].
  intros nm ch Hin. destruct (Hl nm ch) as [Hg Hwf]; [by right|].
  split; [|done]. rewrite Hout; [done| |apply prefix_snoc_not].
  intros x Hx%list_elem_of_singleton Hpre%prefix_app_inv%prefix_cons_inv_1. subst.
  apply Hnm. by apply (list_elem_of_fmap_2 fst _ (nm, ch)).
Qed.

(** The rest of the loop does not come back to an entry it is past. *)
Lemma replace_loop_keeps k d l h h' nm rel :
  listed d l (fs h) → NoDup (map fst l) → nm ∉ map fst l →
  host_after (for_of (map (λ e, (e.1, kind_of e.2)) l) (replace_entry k d) h) = Some h' →
  get (fs h') (d ++ nm :: rel) = get (fs h) (d ++ nm :: rel).
Proof.
  intros [Hd Hl] Hnd Hnm Ho.
  destruct (replace_loop_frame k (replaceSymlinks_frame k) d l h Hd Hnd Hl h' Ho)
    as (_ & Hout & _).
  apply Hout.
  - intros nm' Hin Hpre%prefix_app_inv%prefix_cons_inv_1. by subst.
  - intros [r E]. apply (f_equal length) in E. rewrite !length_app in E. simpl in E. lia.
Qed.

(** Resolution never ends on a link. *)
Lemma realpath_from_not_link l f :
  (∀ t, f ≠ Symlink t) →
  ∀ rest cur q,
    (∀ t, get f cur ≠ Some (Symlink t)) →
    realpath_from l f cur rest = Some q →
    ∀ t, get f q ≠ Some (Symlink t).
Proof.
  intros Hroot. induction l as [|l IHl]; intros rest;
    induction rest as [|c rest IHr]; intros cur q Hcur Hr.
  - rewrite realpath_from_nil in Hr. by simplify_eq.
  - rewrite realpath_from_cons in Hr.
    destruct (get f (cur ++ [c])) as [[c0 m0|t0|cs0]|] eqn:E; [|done| |done].
    + apply (IHr (cur ++ [c])); [|done]. intros t. by rewrite E.
    + apply (IHr (cur ++ [c])); [|done]. intros t. by rewrite E.
  - rewrite realpath_from_nil in Hr. by simplify_eq.
  - rewrite realpath_from_cons in Hr.
    destruct (get f (cur ++ [c])) as [[c0 m0|t0|cs0]|] eqn:E; [| | |done].
    + apply (IHr (cur ++ [c])); [|done]. intros t. by rewrite E.
    + apply (IHl (path_resolve cur t0 ++ rest) [] q); [|done]. intros t H. simpl in H. simplify_eq.
      by apply (Hroot t).
    + apply (IHr (cur ++ [c])); [|done]. intros t. by rewrite E.
Qed.

Lemma stat_not_link f p t :
  (∀ t, f ≠ Symlink t) → stat f p ≠ Some (Symlink t).
Proof.
  intros Hroot. unfold stat, realpath.
  destruct (realpath_from MAXSYMLINKS f [] p) as [q|] eqn:E; [|done].
  apply (realpath_from_not_link MAXSYMLINKS f Hroot p [] q); [|done].
  intros t0 H. simpl in H. simplify_eq. by apply (Hroot t0).
Qed.

Lemma location_get f p x : get f p = Some x → location f p = Some p.
Proof.
  intros H. destruct (decide (p = [])) as [->|Hp]; [done|].
  destruct (exists_last Hp) as (d & c & ->).
  destruct (get_below_dir _ _ _ _ _ H) as [cs Hd].
  by eapply location_physical.
Qed.

Lemma replace_link_post d nm cs t h h' :
  get (fs h) d = Some (Dir cs) → assoc nm cs = Some (Symlink t) →
  replace_link d (d ++ [nm]) h = Ret tt h' →
  link_replaced (fs h) (path_resolve d t) (fs h') (d ++ [nm]).
Proof.
  intros Hd Hc Hrun.
  assert (HL : get (fs h) (d ++ [nm]) = Some (Symlink t)) by by rewrite get_snoc, Hd.
  destruct (replace_link_step d nm cs t h Hd Hc) as (f1 & Hdel & _ & Hpost).
  specialize (Hpost h' Hrun).
  pose proof (del_touched _ _ _ Hdel) as T1.
  assert (Hp : persists (fs h) f1) by (eapply persists_of_touched; [exact HL | exact T1]).
  destruct (touched_parent _ _ _ _ _ T1 Hd) as [cs1 Hd1].
  assert (Hroot : isDirectory f1 = true) by by eapply get_root_dir.
  pose proof Hp as (PF & PD & _). split; [|split; [|split]].
  - intros c m H.
    pose proof (chase_del (fs h) (d ++ [nm]) t f1 MAXSYMLINKS c m HL Hdel) as Hcd.
    rewrite removelast_last in Hcd.
    by rewrite (stat_chase MAXSYMLINKS f1 _ c m Hroot (le_n _) (Hcd H)) in Hpost.
  - intros [cs0 H]. apply PD in H as [cs2 H2].
    rewrite (stat_physical _ _ _ H2 eq_refl) in Hpost.
    destruct Hpost as (ls & n & Hl & Hn & Hg).
    rewrite (location_get _ _ _ H2) in Hl. injection Hl as <-.
    rewrite H2 in Hn. injection Hn as <-.
    assert (Hbelow : ∀ x, get (fs h') ((d ++ [nm]) ++ x)
                          = copy_tree (path_resolve d t ++ x)
                              <$> get f1 (path_resolve d t ++ x)).
    { intros x. rewrite get_app, Hg, get_copy_tree.
      by rewrite (get_app f1 (path_resolve d t)), H2. }
    split; [|split; [|split]].
    + destruct (copy_tree_children (path_resolve d t) cs2) as (cs' & Ecs & _).
      rewrite Hg, Ecs. eauto.
    + intros x c m Hx. by rewrite Hbelow, (PF _ _ _ Hx).
    + intros x cs3 Hx. destruct (PD _ _ Hx) as [cs4 Hx4]. rewrite Hbelow, Hx4.
      destruct (copy_tree_children (path_resolve d t ++ x) cs4) as (cs5 & E5 & _).
      cbn [fmap option_fmap option_map]. rewrite E5. eauto.
    + intros x Hx. by rewrite Hbelow, (lacks_get _ _ (lacks_persists _ _ _ Hp Hx)).
  - intros H.
    pose proof (dangles_del (fs h) (d ++ [nm]) t f1 MAXSYMLINKS HL Hdel) as Hdd.
    rewrite removelast_last in Hdd.
    by rewrite (stat_dangles MAXSYMLINKS f1 _ Hroot (le_n _) (Hdd H)) in Hpost.
  - intros x t' Hx. rewrite get_app in Hx.
    destruct (stat f1 (path_resolve d t)) as [[c m|t0|cs0]|] eqn:Es.
    + rewrite Hpost in Hx. by destruct x.
    + destruct (stat_not_link f1 (path_resolve d t) t0); [|done].
      intros t1 ->. done.
    + destruct Hpost as (ls & n & _ & _ & Hg). rewrite Hg in Hx.
      by eapply copy_tree_links_absolute.
    + by rewrite Hpost in Hx.
Qed.

(** *** The whole traversal: chains of links *)

Lemma chains_refl f : chains f f.
Proof. by intros l p _. Qed.

Lemma chains_trans a b c : chains a b → chains b c → chains a c.
Proof.
  intros H1 H2 l p Hl. destruct (H1 l p Hl) as [F1 D1], (H2 l p Hl) as [F2 D2].
  split; eauto.
Qed.

Section ReplaceChains.
Context (k : nat).
Context (IH : ∀ d h h' n,
  BuildPython.replaceSymlinks k d h = Ret tt h' →
  get (fs h) d = Some n → isDirectory n = true → wf n = true →
  chains (fs h) (fs h')).

Lemma replace_entry_chains d cs nm ch h h' :
  get (fs h) d = Some (Dir cs) → assoc nm cs = Some ch → wf ch = true →
  replace_entry k d (nm, kind_of ch) h = Ret tt h' →
  chains (fs h) (fs h').
Proof using IH.
  intros Hd Hc Hwf. unfold replace_entry, join_name. simpl.
  destruct ch as [c m|t|cs0]; simpl.
  - unfold ret. intros ?. simplify_eq. apply chains_refl.
  - by apply (replace_link_chains d nm cs t).
  - intros Hrun. apply (IH (d ++ [nm]) h h' (Dir cs0)); [done| |done|done].
    by rewrite get_snoc, Hd.
Qed.

Lemma replace_loop_chains d l : ∀ h h',
  listed d l (fs h) → NoDup (map fst l) →
  for_of (map (λ e, (e.1, kind_of e.2)) l) (replace_entry k d) h = Ret tt h' →
  chains (fs h) (fs h').
Proof using IH.
  induction l as [|[nm0 ch0] l IHl]; intros h h' Hli Hnd Hrun.
  { simpl in Hrun. unfold ret in Hrun. simplify_eq. apply chains_refl. }
  apply NoDup_cons in Hnd as [Hnm0 Hnd].
  pose proof Hli as [[cs Hd] Hl]. destruct (Hl nm0 ch0) as [Hg0 Hwf0]; [left|].
  assert (Hc0 : assoc nm0 cs = Some ch0) by by rewrite get_snoc, Hd in Hg0.
  simpl in Hrun. unfold bind in Hrun.
  destruct (replace_entry k d (nm0, kind_of ch0) h) as [[] h1|e h1|] eqn:Hstep; [|done..].
  destruct (replace_entry_frame k (replaceSymlinks_frame k) d cs nm0 ch0 h h1 Hd Hc0 Hwf0)
    as (_ & Hout & Hp1); [by rewrite Hstep|].
  pose proof (listed_step _ _ _ _ _ _ Hli Hnm0 Hout Hp1) as Hli1.
  eapply chains_trans; [by eapply replace_entry_chains | by eapply IHl].
Qed.

End ReplaceChains.

Lemma assoc_some_elem {V} c (v : V) cs : assoc c cs = Some v → (c, v) ∈ cs.
Proof.
  induction cs as [|[k0 v0] cs IHc]; simpl; [done|].
  case_decide; intros; simplify_eq; [left | right; auto].
Qed.

Lemma listed_all d cs f :
  get f d = Some (Dir cs) → wf (Dir cs) = true → listed d cs f.
Proof.
  intros Hd Hwf. destruct (wf_Dir cs Hwf) as [Hnd Hch].
  split; [eauto|]. intros nm' ch' Hin.
  pose proof (assoc_elem_of _ _ _ Hnd Hin) as Hc'.
  split; [by rewrite get_snoc, Hd | by eapply Hch].
Qed.

(** The traversal keeps every chain of links that led to a regular
    file. *)
Lemma replaceSymlinks_chains k : ∀ d h h' n,
  BuildPython.replaceSymlinks k d h = Ret tt h' →
  get (fs h) d = Some n → isDirectory n = true → wf n = true →
  chains (fs h) (fs h').
Proof.
  induction k as [|k IH]; intros d h h' n Hrun Hd Hdir Hwf; [done|].
  destruct n as [| |cs]; [done..|]. destruct (wf_Dir cs Hwf) as [Hnd Hch].
  rewrite replaceSymlinks_S in Hrun. unfold bind in Hrun.
  rewrite (readdirSync_physical _ _ _ Hd) in Hrun.
  apply (replace_loop_chains k IH d cs h h'); [by apply listed_all | done | done].
Qed.

(** *** The whole traversal: what becomes of each link *)

Section ReplacePost.
Context (k : nat).
Context (IH : ∀ d h h' n,
  BuildPython.replaceSymlinks k d h = Ret tt h' →
  get (fs h) d = Some n → isDirectory n = true → wf n = true →
  ∀ rel t, rel ≠ [] → get (fs h) (d ++ rel) = Some (Symlink t) →
    link_replaced (fs h) (path_resolve (d ++ removelast rel) t) (fs h') (d ++ rel)).

(** The loop over the entries still to come, for a link at or below the
    entry [nm]; [f0] is the tree the loop started from. *)
Lemma replace_loop_post d nm rel t ch l : ∀ h h' f0,
  listed d l (fs h) → NoDup (map fst l) →
  (nm, ch) ∈ l → get ch rel = Some (Symlink t) →
  persists f0 (fs h) → chains f0 (fs h) →
  for_of (map (λ e, (e.1, kind_of e.2)) l) (replace_entry k d) h = Ret tt h' →
  link_replaced f0 (path_resolve (d ++ removelast (nm :: rel)) t) (fs h')
    (d ++ nm :: rel).
Proof using IH.
  induction l as [|[nm0 ch0] l IHl]; intros h h' f0 Hli Hnd Hin Hch Hp0 Hc0' Hrun;
    [by apply elem_of_nil in Hin|].
  apply NoDup_cons in Hnd as [Hnm0 Hnd].
  pose proof Hli as [[cs Hd] Hl]. destruct (Hl nm0 ch0) as [Hg0 Hwf0]; [left|].
  assert (Hc0 : assoc nm0 cs = Some ch0) by by rewrite get_snoc, Hd in Hg0.
  simpl in Hrun. unfold bind in Hrun.
  destruct (replace_entry k d (nm0, kind_of ch0) h) as [[] h1|e h1|] eqn:Hstep; [|done..].
  destruct (replace_entry_frame k (replaceSymlinks_frame k) d cs nm0 ch0 h h1 Hd Hc0 Hwf0)
    as (_ & Hout & Hp1); [by rewrite Hstep|].
  pose proof (listed_step _ _ _ _ _ _ Hli Hnm0 Hout Hp1) as Hli1.
  apply elem_of_cons in Hin as [Heq|Hin].
  - (* this entry holds the link *)
    injection Heq as <- <-.
    eapply link_replaced_later.
    { intros x. rewrite <- !app_assoc. simpl.
      eapply (replace_loop_keeps k d l h1 h' nm (rel ++ x)); [done..|by rewrite Hrun]. }
    eapply link_replaced_from; [exact Hp0 | exact Hc0' |].
    destruct rel as [|c' rel'].
    + simpl in Hch. simplify_eq. simpl removelast. rewrite app_nil_r.
      unfold replace_entry, join_name in Hstep. simpl in Hstep.
      by eapply replace_link_post.
    + destruct ch as [| |cs0]; [done..|].
      unfold replace_entry, join_name in Hstep. simpl in Hstep.
      pose proof (IH (d ++ [nm]) h h1 (Dir cs0) Hstep Hg0 eq_refl Hwf0
                    (c' :: rel') t) as Hpost.
      rewrite <- !app_assoc in Hpost. simpl in Hpost. apply Hpost; [done|].
      by rewrite (get_app _ d), Hd, get_cons, Hc0.
  - (* the link is in an entry still to come *)
    apply (IHl h1 h' f0); try done.
    + by eapply persists_trans.
    + eapply chains_trans; [exact Hc0'|].
      by eapply (replace_entry_chains k (replaceSymlinks_chains k)).
Qed.

End ReplacePost.

Lemma replaceSymlinks_post k : ∀ d h h' n,
  BuildPython.replaceSymlinks k d h = Ret tt h' →
  get (fs h) d = Some n → isDirectory n = true → wf n = true →
  ∀ rel t, rel ≠ [] → get (fs h) (d ++ rel) = Some (Symlink t) →
    link_replaced (fs h) (path_resolve (d ++ removelast rel) t) (fs h') (d ++ rel).
Proof.
  induction k as [|k IH]; intros d h h' n Hrun Hd Hdir Hwf rel t Hrel Hlink; [done|].
  destruct n as [| |cs]; [done..|]. destruct (wf_Dir cs Hwf) as [Hnd Hch].
  destruct rel as [|nm rel]; [done|]. clear Hrel.
  rewrite replaceSymlinks_S in Hrun. unfold bind in Hrun.
  rewrite (readdirSync_physical _ _ _ Hd) in Hrun.
  rewrite get_app, Hd, get_cons in Hlink.
  destruct (assoc nm cs) as [ch|] eqn:Hc; [|done].
  apply (replace_loop_post k IH d nm rel t ch cs h h' (fs h));
    [ by apply listed_all | done | by apply assoc_some_elem | done
    | apply persists_refl | apply chains_refl | done ].
Qed.




(** The copy made of a directory is not gone through again, and a link
    the directory held when the copy was made is a link in the copy, its
    target made absolute: [inc] is listed before [include], so the copy is
    made while [include/python.h] is still a link. *)
Example copied_directory_keeps_links :
  ∃ h', BuildPython.replaceSymlinks 3 ["dist"; "python"] host_python_dist = Ret tt h'
        ∧ get (fs h') ["dist"; "python"; "inc"; "python.h"]
          = Some (Symlink "/dist/python/include/Python.h")
        ∧ get (fs h') ["dist"; "python"; "include"; "python.h"]
          = Some (File (Raw "H") mode_644).
Proof. eexists. split; [vm_compute; reflexivity|]. split; reflexivity. Qed.

(** A link to a link to a directory is not replaced by a copy: [fs.cpSync]
    does not follow the link it is given as its source, [lib32] becomes a
    link to the place [lib64] pointed to. *)
Example link_to_linked_directory_stays_link :
  get (fs host_python_dist) ["dist"; "python"; "lib32"] = Some (Symlink "lib64")
  ∧ ∃ h', BuildPython.replaceSymlinks 3 ["dist"; "python"] host_python_dist = Ret tt h'
          ∧ get (fs h') ["dist"; "python"; "lib32"] = Some (Symlink "/dist/python/lib")
          ∧ ∃ cs, get (fs h') ["dist"; "python"; "lib64"] = Some (Dir cs).
Proof.
  split; [reflexivity|]. eexists. split; [vm_compute; reflexivity|].
  split; [reflexivity|]. eexists. reflexivity.
Qed.

(** ** The recursion bound is enough *)

Lemma bounded_bind {A B} (m : M A) (k : A → M B) :
  bounded m → (∀ a, bounded (k a)) → bounded (bind m k).
Proof.
  intros Hm Hk h. unfold bind. specialize (Hm h).
  destruct (m h) as [a h1|e h1|]; [apply Hk | done..].
Qed.

Lemma bounded_try_catch {A} (m : M A) handler :
  bounded m → (∀ e, bounded (handler e)) → bounded (try_catch m handler).
Proof.
  intros Hm Hk h. unfold try_catch. specialize (Hm h).
  destruct (m h) as [a h1|e h1|]; [done | apply Hk | done].
Qed.

Lemma bounded_chmodSync p m : bounded (chmodSync p m).
Proof. intros h. unfold chmodSync, store. by repeat case_match. Qed.

Lemma bounded_replace_link d L : bounded (replace_link d L).
Proof.
  unfold replace_link. apply bounded_bind.
  { intros h. unfold readlinkSync. by repeat case_match. }
  intros t. apply bounded_bind.
  { intros h. unfold unlinkSync. by repeat case_match. }
  intros _. apply bounded_bind; [done|]. intros [|]; [|done].
  apply bounded_bind.
  { intros h. unfold statSync. by repeat case_match. }
  intros st. destruct (isDirectory st).
  { intros h. unfold cpSync, store. by repeat case_match. }
  apply bounded_bind; [|intros _; apply bounded_chmodSync].
  intros h. unfold copyFileSync, store. by repeat case_match.
Qed.

Lemma height_child cs c ch : assoc c cs = Some ch → height ch < height (Dir cs).
Proof.
  simpl. induction cs as [|[k0 v0] cs IH]; simpl; [done|].
  case_decide; intros; simplify_eq; [lia|]. specialize (IH H0). lia.
Qed.

Lemma replace_loop_bounded k d :
  (∀ d h n, get (fs h) d = Some n → isDirectory n = true → wf n = true →
            height n ≤ k → BuildPython.replaceSymlinks k d h ≠ OutOfFuel) →
  ∀ l h,
    listed d l (fs h) → NoDup (map fst l) →
    (∀ nm ch, (nm, ch) ∈ l → height ch ≤ k) →
    for_of (map (λ e, (e.1, kind_of e.2)) l) (replace_entry k d) h ≠ OutOfFuel.
Proof.
  intros IH l. induction l as [|[nm ch] l IHl]; intros h Hli Hnd Hh; [done|].
  change (map fst ((nm, ch) :: l)) with (nm :: map fst l) in Hnd.
  apply NoDup_cons in Hnd as [Hnm Hnd].
  pose proof Hli as [[cs Hd] Hl]. destruct (Hl nm ch) as [Hg Hwf]; [left|].
  assert (Hc : assoc nm cs = Some ch) by by rewrite get_snoc, Hd in Hg.
  simpl. unfold bind.
  destruct (replace_entry k d (nm, kind_of ch) h) as [[] h1|e h1|] eqn:Hstep; [|done|].
  - destruct (replace_entry_frame k (replaceSymlinks_frame k) d cs nm ch h h1 Hd Hc Hwf)
      as (_ & Hout & Hp1); [by rewrite Hstep|].
    apply IHl; [by eapply listed_step | done |].
    intros nm' ch' Hin. apply (Hh nm' ch'). by right.
  - exfalso. revert Hstep. unfold replace_entry, join_name. simpl.
    destruct ch as [| |cs0]; simpl; [done | apply bounded_replace_link |].
    apply (IH _ _ (Dir cs0)); [done..|]. apply (Hh nm). left.
Qed.

(** On a real directory without repeated names, [replaceSymlinks] is never
    cut off once the bound reaches the depth of the directory: it returns
    or throws as the code does. *)
Lemma replaceSymlinks_bounded k : ∀ d h n,
  get (fs h) d = Some n → isDirectory n = true → wf n = true → height n ≤ k →
  BuildPython.replaceSymlinks k d h ≠ OutOfFuel.
Proof.
  induction k as [|k IH]; intros d h n Hd Hdir Hwf Hk.
  { destruct n; simpl in *; try done; lia. }
  destruct n as [| |cs]; [done..|]. destruct (wf_Dir cs Hwf) as [Hnd Hch].
  rewrite replaceSymlinks_S. unfold bind. rewrite (readdirSync_physical _ _ _ Hd).
  apply (replace_loop_bounded k d IH); [|done|].
  - split; [eauto|]. intros nm' ch' Hin.
    pose proof (assoc_elem_of _ _ _ Hnd Hin) as Hc'.
    split; [by rewrite get_snoc, Hd | by eapply Hch].
  - intros nm ch Hin. pose proof (assoc_elem_of _ _ _ Hnd Hin) as Hc.
    apply height_child in Hc. lia.
Qed.

(** * Further properties of the code *)

(** ** patchelf: the directory of the binary *)

Lemma normalize_snoc_plain p l :
  Forall plain_name l → normalize (p ++ l) = normalize p ++ l.
Proof. intros Hl. unfold normalize. by apply normalize_go_app. Qed.

Lemma plain_bin_patchelf : Forall plain_name ["bin"; "patchelf"].
Proof. repeat constructor; done. Qed.

Lemma path_join_bin_patchelf l :
  path_join (l ++ [["bin"]; ["patchelf"]]) = path_join l ++ ["bin"; "patchelf"].
Proof.
  unfold path_join. rewrite concat_app. simpl.
  apply normalize_snoc_plain, plain_bin_patchelf.
Qed.

(** Every location the resolver probes is a [bin/patchelf]. *)
Lemma candidates_end h p :
  p ∈ candidates h → ∃ d0, p = d0 ++ ["bin"; "patchelf"].
Proof.
  unfold candidates, Patchelf.possiblePaths.
  destruct (assoc _ Patchelf.platformPackageMap) as [pkg|]; [|by intros ?%elem_of_nil].
  intros Hin. apply elem_of_app in Hin as [Hin|Hin].
  - repeat (apply elem_of_cons in Hin as [->|Hin]);
      [| | |by apply elem_of_nil in Hin].
    + eexists. apply (path_join_bin_patchelf [_; _; _; _]).
    + eexists. apply (path_join_bin_patchelf [_; _; _; _]).
    + eexists. apply (path_join_bin_patchelf [_; _; _; _; _; _]).
  - destruct (resolvable h _) as [pp|]; [|by apply elem_of_nil in Hin].
    apply list_elem_of_singleton in Hin as ->.
    eexists. apply (path_join_bin_patchelf [_]).
Qed.

Lemma find_some_elem {A} (f : A → bool) l x :
  find f l = Some x → x ∈ l ∧ f x = true.
Proof.
  induction l as [|y l IH]; simpl; [done|].
  destruct (f y) eqn:E; intros H; simplify_eq.
  - split; [left | done].
  - destruct (IH H). split; [by right | done].
Qed.

(** X1. [getBinDir] returns exactly when [getPatchelfPath] does: the directory
    it returns is named [bin] and the path [getPatchelfPath] returns is
    its entry [patchelf], which exists; otherwise both throw the same
    'patchelf binary not found' error. The host is left as it was. *)
Theorem getBinDir_holds_binary (h : host) :
  (∃ d0, Patchelf.getBinDir h = Ret (d0 ++ ["bin"]) h
         ∧ Patchelf.getPatchelfPath h = Ret (d0 ++ ["bin"; "patchelf"]) h
         ∧ exists_at (fs h) (d0 ++ ["bin"; "patchelf"]) = true)
  ∨ (Patchelf.getBinDir h = Throw (BinaryNotFound (Patchelf.platformKey h)) h
     ∧ Patchelf.getPatchelfPath h = Throw (BinaryNotFound (Patchelf.platformKey h)) h).
Proof.
  unfold Patchelf.getBinDir, Patchelf.getPatchelfPath, bind.
  rewrite findBinaryPath_find.
  destruct (find _ (candidates h)) as [p|] eqn:E; [left | by right].
  apply find_some_elem in E as [Hin Hex].
  destruct (candidates_end h p Hin) as [d0 ->]. exists d0.
  split; [|done]. unfold ret, path_dirname. f_equal.
  change (d0 ++ ["bin"; "patchelf"]) with (d0 ++ ["bin"] ++ ["patchelf"]).
  by rewrite app_assoc, removelast_last.
Qed.

(** ** patchelf: the postinstall script *)

Lemma for_of_ext {A} (l : list A) (f g : A → M unit) h :
  (∀ x h, f x h = g x h) → for_of l f h = for_of l g h.
Proof.
  intros E. revert h. induction l as [|x l IH]; intros h; [done|].
  simpl. unfold bind. rewrite E. by destruct (g x h).
Qed.

(** The script carries its own copy of [fixPermissions]; it is the
    function of the interpreter's package. *)
Lemma postinstall_fixPermissions_eq fuel : ∀ dir h,
  Postinstall.fixPermissions fuel dir h = Python.fixPermissions fuel dir h.
Proof.
  induction fuel as [|k IH]; intros dir h; [done|].
  simpl. unfold bind at 1 3. destruct (existsSync dir h) as [b h1|e h1|]; [|done..].
  destruct (negb b); [done|]. unfold bind.
  destruct (readdirSync dir h1) as [l h2|e h2|]; [|done..].
  apply for_of_ext. intros [nm []] h3; simpl; [done..|apply IH].
Qed.

Lemma findPackageDir_pure h : ∃ o, Postinstall.findPackageDir h = Ret o h.
Proof.
  unfold Postinstall.findPackageDir.
  destruct (assoc _ Patchelf.platformPackageMap) as [pkg|]; [|eauto].
  unfold try_catch, bind, require_resolve. destruct (resolvable h _); eauto.
Qed.

Lemma postinstall_passes fuel h pd :
  Postinstall.findPackageDir h = Ret (Some pd) h →
  Postinstall.main fuel h
  = (Python.fixPermissions fuel (path_join [pd; ["bin"]]) ;;
     Python.fixPermissions fuel (path_join [pd; ["libexec"]])) h.
Proof.
  intros Hf. unfold Postinstall.main. unfold bind at 1. rewrite Hf.
  unfold bind. rewrite postinstall_fixPermissions_eq.
  destruct (Python.fixPermissions fuel _ h) as [[] h1|e h1|]; [|done..].
  apply postinstall_fixPermissions_eq.
Qed.

(** X2. The script changes nothing but file modes, whether it ends or
    throws: the tree keeps its names, kinds, contents and link targets,
    every mode either stays or becomes 0o755, and nothing else of the host
    changes. When the platform is outside the table or the platform
    package cannot be resolved, it ends with the host as it was. *)
Theorem postinstall_changes_modes_only fuel h h' :
  host_after (Postinstall.main fuel h) = Some h' →
  h' = with_fs h (fs h')
  ∧ erase (fs h') = erase (fs h)
  ∧ (∀ q c m0 c' m, get (fs h) q = Some (File c m0) →
       get (fs h') q = Some (File c' m) → c' = c ∧ (m = m0 ∨ m = mode_755))
  ∧ (Postinstall.findPackageDir h = Ret None h → h' = h).
Proof.
  intros Hrun. destruct (findPackageDir_pure h) as [[pd|] Hf].
  - rewrite (postinstall_passes fuel h pd Hf) in Hrun.
    assert (P : preserves modes_only
      (Python.fixPermissions fuel (path_join [pd; ["bin"]]) ;;
       Python.fixPermissions fuel (path_join [pd; ["libexec"]]))).
    { apply preserves_bind; [apply modes_only_trans | apply fixPermissions_modes_only |].
      intros _. apply fixPermissions_modes_only. }
    destruct (preserves_after _ _ h h' P Hrun) as [Henv [Hshape Hmodes]].
    split; [exact Henv|]. split; [done|]. split; [|by rewrite Hf].
    intros q c m0 c' m H0 H1. split; [|by eapply Hmodes].
    destruct (get_shape_file _ _ _ _ _ Hshape H0) as [m' H2]. congruence.
  - unfold Postinstall.main, bind in Hrun. rewrite Hf in Hrun. simpl in Hrun.
    simplify_eq. split; [by rewrite with_fs_same|]. split; [done|].
    split; [|done]. intros q c m0 c' m H0 H1. split; [congruence|left; congruence].
Qed.

Lemma postinstall_changes_modes_only_witness :
  ∃ h', host_after (Postinstall.main 2 host_postinstall) = Some h'
        ∧ erase (fs h') = erase (fs host_postinstall).
Proof.
  eexists. split; [vm_compute; reflexivity|].
  eapply (postinstall_changes_modes_only 2 host_postinstall). vm_compute. reflexivity.
Defined.

(** X3. When the script ends, every regular file under [bin/] and under
    [libexec/] of the platform package whose mode the process may change
    has mode 0o755. *)
Theorem postinstall_fixes_bin_and_libexec fuel h h' pd sub :
  Postinstall.findPackageDir h = Ret (Some pd) h →
  Postinstall.main fuel h = Ret tt h' →
  sub = "bin" ∨ sub = "libexec" →
  ∀ rel c m, rel ≠ [] →
    get (fs h') (path_join [pd; [sub]] ++ rel) = Some (File c m) →
    chmod_denied h (path_join [pd; [sub]] ++ rel) = false →
    m = mode_755.
Proof.
  intros Hf Hrun Hsub rel c m Hrel Hfin Hden.
  rewrite (postinstall_passes fuel h pd Hf) in Hrun. unfold bind in Hrun.
  destruct (Python.fixPermissions fuel (path_join [pd; ["bin"]]) h)
    as [[] h1|e h1|] eqn:Hbin; [|done..].
  destruct (preserves_after _ _ h h1 (fixPermissions_modes_only fuel
              (path_join [pd; ["bin"]]))) as [Henv1 _]; [by rewrite Hbin|].
  destruct (preserves_after _ _ h1 h' (fixPermissions_modes_only fuel
              (path_join [pd; ["libexec"]]))) as [_ [Hshape Hmodes]];
    [by rewrite Hrun|].
  destruct Hsub as [-> | ->].
  - destruct (get_shape_file _ _ _ _ _ (eq_sym Hshape) Hfin) as [m1 H1].
    pose proof (fixPermissions_sets_modes _ _ _ _ Hbin rel c m1 Hrel H1 Hden) as ->.
    by destruct (Hmodes _ _ _ _ _ H1 Hfin).
  - eapply (fixPermissions_sets_modes _ _ _ _ Hrun rel c m Hrel Hfin).
    destruct (same_env_fields _ _ Henv1) as (_ & _ & -> & _). exact Hden.
Qed.

Lemma postinstall_fixes_bin_and_libexec_witness :
  ∃ h', Postinstall.main 2 host_postinstall = Ret tt h'
    ∧ get (fs h') ["app"; "node_modules"; "@xspect-build"; "patchelf-linux-x64";
                   "libexec"; "helper"] = Some (File (Raw "ELF") mode_755).
Proof.
  assert (Hrun : ∃ h', Postinstall.main 2 host_postinstall = Ret tt h')
    by (eexists; vm_compute; reflexivity).
  destruct Hrun as [h' Hrun]. exists h'. split; [exact Hrun|].
  assert (Hg : ∃ m, get (fs h') ["app"; "node_modules"; "@xspect-build";
                                 "patchelf-linux-x64"; "libexec"; "helper"]
                    = Some (File (Raw "ELF") m)).
  { vm_compute in Hrun. injection Hrun as <-. eexists. vm_compute. reflexivity. }
  destruct Hg as [m Hg]. rewrite Hg. do 2 f_equal.
  apply (postinstall_fixes_bin_and_libexec 2 host_postinstall h'
           ["app"; "node_modules"; "@xspect-build"; "patchelf-linux-x64"]
           "libexec" eq_refl Hrun (or_intror eq_refl) ["helper"] (Raw "ELF") m);
    [done | exact Hg | reflexivity].
Defined.

(** ** The permission pass stays inside its directory *)

Lemma apart_below d nm f f' : apart (d ++ [nm]) f f' → apart d f f'.
Proof. intros H. eapply outside_apart, apart_outside, H. Qed.

Lemma fix_file_apart k dir nm c m h h' :
  get (fs h) (dir ++ [nm]) = Some (File c m) →
  host_after (fix_entry k dir (nm, KFile) h) = Some h' →
  apart dir (fs h) (fs h').
Proof.
  intros Hg. unfold fix_entry, join_name, try_catch. simpl.
  rewrite (chmodSync_physical _ _ _ _ _ Hg).
  destruct (chmod_denied h _); simpl; [intros; simplify_eq; apply apart_refl|].
  destruct (put (fs h) (dir ++ [nm]) (File c mode_755)) as [f'|] eqn:Hp; simpl;
    intros; simplify_eq; [|apply apart_refl].
  apply apart_below with nm. by destruct (put_touched _ _ _ _ Hp).
Qed.

Lemma fix_loop_apart k dir h0 cs :
  (∀ d h n h', erase (fs h) = erase (fs h0) → get (fs h0) d = Some n →
               isDirectory n = true → wf n = true →
               host_after (Python.fixPermissions k d h) = Some h' →
               apart d (fs h) (fs h')) →
  get (fs h0) dir = Some (Dir cs) → wf (Dir cs) = true →
  ∀ l h h',
    erase (fs h) = erase (fs h0) →
    (∀ nm ch, (nm, ch) ∈ l → (nm, ch) ∈ cs) →
    host_after (for_of (map (λ e, (e.1, kind_of e.2)) l) (fix_entry k dir) h) = Some h' →
    apart dir (fs h) (fs h').
Proof.
  intros IH Hd Hwf. destruct (wf_Dir cs Hwf) as [Hnd Hch].
  induction l as [|[nm ch] l IHl]; intros h h' E Hl Hrun.
  { simpl in Hrun. simplify_eq. apply apart_refl. }
  simpl in Hrun.
  assert (Hc : assoc nm cs = Some ch) by (apply assoc_elem_of; [done|apply Hl; left]).
  assert (Hg0 : get (fs h0) (dir ++ [nm]) = Some ch) by by rewrite get_snoc, Hd.
  assert (Hstep : ∀ h1, host_after (fix_entry k dir (nm, kind_of ch) h) = Some h1 →
                        apart dir (fs h) (fs h1)).
  { intros h1 H1. destruct ch as [c m|t|cs0].
    - destruct (get_shape_file _ _ _ _ _ (eq_sym E) Hg0) as [m' Hg].
      by eapply fix_file_apart.
    - simpl in H1. simplify_eq. apply apart_refl.
    - apply apart_below with nm.
      apply (IH _ _ (Dir cs0) _ E Hg0 eq_refl); [by eapply Hch | exact H1]. }
  apply bind_after in Hrun as [[e He]|([] & h1 & H1 & Hrest)].
  - apply Hstep. by rewrite He.
  - eapply apart_trans; [apply Hstep; by rewrite H1|].
    apply IHl; [|by intros; apply Hl; right|done].
    destruct (preserves_after _ _ h h1 (fix_entry_modes_only k dir (nm, kind_of ch)))
      as [_ [<- _]]; [by rewrite H1 | done].
Qed.

Lemma fixPermissions_apart k : ∀ dir h0 h n h',
  erase (fs h) = erase (fs h0) →
  get (fs h0) dir = Some n → isDirectory n = true → wf n = true →
  host_after (Python.fixPermissions k dir h) = Some h' →
  apart dir (fs h) (fs h').
Proof.
  induction k as [|k IH]; intros dir h0 h n h' E Hd Hdir Hwf Hrun; [done|].
  destruct n as [| |cs]; [done..|].
  destruct (get_shape_dir _ _ _ _ (eq_sym E) Hd) as (cs' & Hd' & Hkinds).
  rewrite fixPermissions_S in Hrun. unfold bind at 1 in Hrun.
  rewrite (existsSync_physical _ _ _ Hd') in Hrun by done. simpl in Hrun.
  unfold bind at 1 in Hrun.
  rewrite (readdirSync_physical _ _ _ Hd'), Hkinds in Hrun.
  eapply (fix_loop_apart k dir h0 cs); [|done..|exact E| |exact Hrun]; [|done].
  intros d h1 n1 h1' E1 Hg1 Hdir1 Hwf1 Hrun1. by eapply IH.
Qed.

(** X4. [fixPermissions] changes nothing but file modes, whether it ends or
    throws: names, kinds, contents and link targets stay, a mode either
    stays or becomes 0o755, and the rest of the host is untouched. *)
Theorem fixPermissions_changes_modes_only fuel dir h h' :
  host_after (Python.fixPermissions fuel dir h) = Some h' →
  h' = with_fs h (fs h')
  ∧ erase (fs h') = erase (fs h)
  ∧ ∀ q c m0 c' m, get (fs h) q = Some (File c m0) →
      get (fs h') q = Some (File c' m) → c' = c ∧ (m = m0 ∨ m = mode_755).
Proof.
  intros Hrun.
  destruct (preserves_after _ _ h h' (fixPermissions_modes_only fuel dir) Hrun)
    as [Henv [Hshape Hmodes]].
  split; [exact Henv|]. split; [done|].
  intros q c m0 c' m H0 H1. split; [|by eapply Hmodes].
  destruct (get_shape_file _ _ _ _ _ Hshape H0) as [m' H2]. congruence.
Qed.

(** X5. On a real directory that lists no name twice, [fixPermissions] stays
    inside it: a link among the entries is not followed, and every path
    that is neither below the directory nor on the way to it holds what
    it held. *)
Theorem fixPermissions_stays_inside fuel dir cs h h' :
  get (fs h) dir = Some (Dir cs) → wf (Dir cs) = true →
  host_after (Python.fixPermissions fuel dir h) = Some h' →
  ∀ q, ¬ dir `prefix_of` q → ¬ q `prefix_of` dir → get (fs h') q = get (fs h) q.
Proof.
  intros Hd Hwf Hrun.
  exact (fixPermissions_apart fuel dir h h (Dir cs) h' eq_refl Hd eq_refl Hwf Hrun).
Qed.

Lemma fixPermissions_changes_modes_only_witness :
  ∃ h', host_after (Python.fixPermissions 1 ["pkg"; "bin"]
                      (bare_host "linux" "x64" tree_link_out)) = Some h'
        ∧ erase (fs h') = erase tree_link_out.
Proof.
  eexists. split; [vm_compute; reflexivity|].
  eapply (fixPermissions_changes_modes_only 1 ["pkg"; "bin"]
            (bare_host "linux" "x64" tree_link_out)).
  vm_compute. reflexivity.
Defined.

Lemma fixPermissions_stays_inside_witness :
  ∃ h', Python.fixPermissions 1 ["pkg"; "bin"] (bare_host "linux" "x64" tree_link_out)
        = Ret tt h'
        ∧ get (fs h') ["pkg"; "bin"; "tool"] = Some (File (Raw "ELF") mode_755)
        ∧ get (fs h') ["outside"] = Some (File (Raw "DATA") mode_644).
Proof.
  assert (Hrun : ∃ h', Python.fixPermissions 1 ["pkg"; "bin"]
                         (bare_host "linux" "x64" tree_link_out) = Ret tt h')
    by (eexists; vm_compute; reflexivity).
  destruct Hrun as [h' Hrun]. exists h'. split; [exact Hrun|]. split.
  - vm_compute in Hrun. by injection Hrun as <-.
  - rewrite (fixPermissions_stays_inside 1 ["pkg"; "bin"] _
               (bare_host "linux" "x64" tree_link_out) h' eq_refl eq_refl).
    + reflexivity.
    + by rewrite Hrun.
    + intros [k Hk]. discriminate Hk.
    + intros [k Hk]. discriminate Hk.
Defined.

(** ** What [download] leaves alone *)



(** ** When the cache does work *)

Lemma for_of_app_ret {A} (l1 l2 : list A) body h h' :
  for_of (l1 ++ l2) body h = Ret tt h' →
  ∃ h1, for_of l1 body h = Ret tt h1 ∧ for_of l2 body h1 = Ret tt h'.
Proof.
  revert h. induction l1 as [|x l1 IH]; intros h; simpl; [eauto|].
  unfold bind. destruct (body x h) as [[] h0|e h0|]; [|done..]. apply IH.
Qed.

Lemma for_of_cons_ret {A} (x : A) l body h h' :
  for_of (x :: l) body h = Ret tt h' →
  ∃ h1, body x h = Ret tt h1 ∧ for_of l body h1 = Ret tt h'.
Proof.
  simpl. unfold bind. destruct (body x h) as [[] h0|e h0|]; [|done..]. eauto.
Qed.

Lemma unpack_manifest_written root q c m h h' :
  ".." ∉ q → clean_path q = ["package.json"] →
  unpack_entry root (EFile q c m) h = Ret tt h' →
  get (fs h') (root ++ ["package.json"]) = Some (File (Raw c) (perm_bits m)).
Proof.
  intros Hq Hc. unfold unpack_entry. rewrite bool_decide_eq_false_2 by done.
  rewrite Hc. simpl. unfold bind, ret, tar_write.
  destruct (get (fs h) (root ++ ["package.json"])) as [[| |]|]; try done;
    (destruct (put (fs h) (root ++ ["package.json"]) (File (Raw c) (perm_bits m)))
       as [f'|] eqn:Hp;
     intros; simplify_eq; simpl; by apply (put_get_same _ _ _ _ Hp)).
Qed.

(** X7. The cache works for an archive that does hold a [package.json] at
    its top (under that name or one the reader takes for it, such as
    [./package.json]), when no later member is unpacked at the same place:
    after a call of [extract] that returned, the marker exists, and every
    further call for that version and destination returns the same path
    at once, without a transport call and with the host left as it is. *)
Theorem extract_cached_with_top_manifest fuel d v h pre q c m post h0 p h1 :
  v ≠ "" → normalize d = d →
  dir_or_fresh (fs h) d = true →
  get (fs h) (d ++ ["package.json"]) = None →
  ".." ∉ q → clean_path q = ["package.json"] →
  Python.download v h = Ret (Tar (pre ++ EFile q c m :: post)) h0 →
  Forall (λ e, entry_head e ≠ Some "package.json") post →
  Python.extract fuel (Some d) v h = Ret p h1 →
  exists_at (fs h1) (Python.markerFile_of d) = true
  ∧ ∀ fuel', Python.extract fuel' (Some d) v h1 = Ret p h1.
Proof.
  intros Hv Hn Hf Hg Hq Hcq Hd Hpost Hrun.
  assert (Hp : p = Python.pythonDir_of d
               ∧ ∃ m', get (fs h1) (d ++ ["package.json"]) = Some (File (Raw c) m')).
  { rewrite extract_miss in Hrun; [|done|].
    2:{ simpl. rewrite markerFile_of_normal by done. by apply marker_absent. }
    simpl in Hrun. unfold materialize in Hrun. cbn zeta in Hrun.
    unfold bind at 1 in Hrun. rewrite Hd in Hrun.
    destruct (tmp_log_only_fields _ _
                (preserves_after _ _ h h0 (download_tmp_log_only v)
                   ltac:(by rewrite Hd))) as (Hfs & _).
    rewrite <- Hfs in Hf.
    destruct (mkdir_from_fresh d [] h0 (fs h0) eq_refl Hf) as (h2 & Hmk & [cs2 Hd2] & _).
    simpl in Hd2. unfold bind at 1 in Hrun. unfold mkdirSync in Hrun. rewrite Hmk in Hrun.
    unfold bind at 1 in Hrun.
    destruct (unpack _ d h2) as [[] h3|e h3|] eqn:Hun; [|done..].
    unfold bind in Hrun.
    destruct (Python.fixPermissions fuel _ h3) as [[] h4|e h4|] eqn:Hfix; [|done..].
    unfold ret in Hrun. simplify_eq. split; [done|].
    simpl in Hun. rewrite (realpath_physical _ _ _ Hd2 eq_refl), Hd2 in Hun.
    apply for_of_app_ret in Hun as (ha & _ & Hun).
    apply for_of_cons_ret in Hun as (hb & Hwr & Hun).
    apply (unpack_manifest_written _ _ _ _ _ _ Hq Hcq) in Hwr.
    assert (Hk : keeps d "package.json" hb h3).
    { apply (preserves_after (keeps d "package.json")
               (for_of post (unpack_entry d)) hb h3); [|by rewrite Hun].
      apply preserves_for_of; [apply keeps_refl | apply keeps_trans|].
      intros e He. apply unpack_entry_keeps.
      by eapply (proj1 (Forall_forall _ _) Hpost). }
    destruct Hk as [_ Hk]. rewrite Hwr in Hk.
    destruct (preserves_after _ _ h3 h1 (fixPermissions_modes_only fuel
                (path_join [Python.pythonDir_of d; ["bin"]]))) as [_ [Hshape _]];
      [by rewrite Hfix|].
    exact (get_shape_file _ _ _ _ _ Hshape Hk). }
  destruct Hp as [-> [m' Hm]].
  assert (Hex : exists_at (fs h1) (Python.markerFile_of d) = true).
  { rewrite markerFile_of_normal by done. unfold exists_at.
    rewrite (stat_physical _ _ _ Hm eq_refl). by apply bool_decide_eq_true_2. }
  split; [exact Hex|]. intros fuel'.
  by rewrite (extract_hit fuel' (Some d) v h1 Hv Hex).
Qed.

Lemma extract_cached_with_top_manifest_witness :
  let d := ["home"; "u"; "cache"] in
  ∃ h1, Python.extract 3 (Some d) "1.0.0" host_top_manifest
        = Ret (d ++ ["package"; "python"]) h1
    ∧ exists_at (fs h1) (Python.markerFile_of d) = true
    ∧ ∀ fuel', Python.extract fuel' (Some d) "1.0.0" h1
               = Ret (d ++ ["package"; "python"]) h1.
Proof.
  intros d.
  assert (Hrun : ∃ h1, Python.extract 3 (Some d) "1.0.0" host_top_manifest
                       = Ret (d ++ ["package"; "python"]) h1)
    by (eexists; vm_compute; reflexivity).
  destruct Hrun as [h1 Hrun]. exists h1. split; [exact Hrun|].
  eapply (extract_cached_with_top_manifest 3 d "1.0.0" host_top_manifest []
            ["."; "package.json"] "{ }" mode_644 _ _ _ h1);
    [ done | reflexivity | reflexivity | reflexivity
    | | reflexivity | vm_compute; reflexivity | | exact Hrun].
  - intros H. repeat (apply elem_of_cons in H as [H|H]; [done|]).
    by apply elem_of_nil in H.
  - repeat constructor; done.
Defined.

(** A later member under the same name, however it is written, takes the
    marker's place: here a link that leads nowhere, and the next call
    fetches again. *)
Example later_member_replaces_manifest :
  let d := ["home"; "u"; "cache"] in
  ∃ h1, Python.extract 3 (Some d) "1.0.0" host_manifest_then_link
        = Ret (d ++ ["package"; "python"]) h1
    ∧ get (fs h1) (d ++ ["package.json"]) = Some (Symlink "nowhere")
    ∧ exists_at (fs h1) (Python.markerFile_of d) = false.
Proof. intros d. eexists. split; [vm_compute; reflexivity|]. split; reflexivity. Qed.

(** ** Which links [replaceSymlinks] leaves *)

(** A path that names something in [f'] and nothing in [f], below a
    directory of [f], runs through a place where [f] had a link. *)
Lemma new_below_link f f' root cs :
  persists f f' → get f root = Some (Dir cs) →
  ∀ q1 q2, get f (root ++ q1) = None → is_Some (get f' (root ++ q1 ++ q2)) →
    ∃ a b t, q1 = a ++ b ∧ b ≠ [] ∧ get f (root ++ a) = Some (Symlink t).
Proof.
  intros (PF & PD & PN) Hroot q1.
  induction q1 as [|c q0 IHq] using rev_ind; intros q2 Hn Hs.
  { rewrite app_nil_r in Hn. congruence. }
  rewrite app_assoc in Hn. rewrite get_snoc in Hn.
  destruct (get f (root ++ q0)) as [[c0 m0|t0|cs0]|] eqn:E0.
  - apply PF in E0. rewrite <- !app_assoc, (app_assoc root), get_app, E0 in Hs.
    simpl in Hs. by destruct Hs.
  - exists q0, [c], t0. done.
  - pose proof (PN _ c _ E0 Hn) as Hn'.
    rewrite <- !app_assoc, (app_assoc root q0), (app_assoc _ [c]), get_app, Hn' in Hs.
    by destruct Hs.
  - destruct (IHq ([c] ++ q2) eq_refl) as (a & b & t & -> & Hb & Ha).
    { by rewrite <- !app_assoc in Hs. }
    exists a, (b ++ [c]), t. rewrite app_assoc. split; [done|]. split; [|done].
    by destruct b.
Qed.

(** A link of the tree [replaceSymlinks] leaves is at a place where there
    was a link, or below one, and its target is absolute. *)
Lemma replaceSymlinks_links_inside k root cs h h' :
  get (fs h) root = Some (Dir cs) → wf (Dir cs) = true →
  BuildPython.replaceSymlinks k root h = Ret tt h' →
  ∀ q t', get (fs h') (root ++ q) = Some (Symlink t') →
    is_absolute t' = true
    ∧ ∃ a b t, q = a ++ b ∧ a ≠ [] ∧ get (fs h) (root ++ a) = Some (Symlink t).
Proof.
  intros Hd Hwf Hrun q t' Hq.
  destruct (replaceSymlinks_frame k root h (Dir cs) Hd eq_refl Hwf h')
    as (_ & _ & Hp); [by rewrite Hrun|].
  pose proof Hp as (PF & PD & PN).
  assert (Hlink : ∀ a b t, a ≠ [] → get (fs h) (root ++ a) = Some (Symlink t) →
                           get (fs h') ((root ++ a) ++ b) = Some (Symlink t') →
                           is_absolute t' = true).
  { intros a b t Ha Hl Hb.
    destruct (replaceSymlinks_post k root h h' (Dir cs) Hrun Hd eq_refl Hwf a t Ha Hl)
      as (_ & _ & _ & Habs).
    by apply (Habs b t'). }
  destruct (get (fs h) (root ++ q)) as [[c0 m0|t0|cs0]|] eqn:E0.
  - apply PF in E0. congruence.
  - assert (Hne : q ≠ []).
    { intros ->. rewrite app_nil_r in E0. congruence. }
    split; [|exists q, [], t0; by rewrite app_nil_r].
    apply (Hlink q [] t0 Hne E0). by rewrite app_nil_r.
  - apply PD in E0 as [cs' E0]. congruence.
  - destruct (new_below_link (fs h) (fs h') root cs Hp Hd q [] E0)
      as (a & b & t & -> & Hb & Ha).
    { rewrite app_nil_r, Hq. eauto. }
    assert (Hne : a ≠ []).
    { intros ->. rewrite app_nil_r in Ha. congruence. }
    split; [|by exists a, b, t].
    apply (Hlink a b t Hne Ha). by rewrite <- app_assoc.
Qed.

(** X8. [replaceSymlinks] touches nothing outside its directory and keeps
    what is not a link: whether it returns or throws, every path that is
    neither below the directory nor on the way to it holds what it held,
    every regular file of the tree is where it was with its bytes and
    mode, every directory is still a directory, and the rest of the host
    is as it was. *)
Theorem replaceSymlinks_keeps_the_rest fuel root cs h h' :
  get (fs h) root = Some (Dir cs) → wf (Dir cs) = true →
  host_after (BuildPython.replaceSymlinks fuel root h) = Some h' →
  h' = with_fs h (fs h')
  ∧ (∀ q, ¬ root `prefix_of` q → ¬ q `prefix_of` root → get (fs h') q = get (fs h) q)
  ∧ (∀ q c m, get (fs h) q = Some (File c m) → get (fs h') q = Some (File c m))
  ∧ (∀ q cs0, get (fs h) q = Some (Dir cs0) → ∃ cs', get (fs h') q = Some (Dir cs')).
Proof.
  intros Hd Hwf Hrun.
  destruct (replaceSymlinks_frame fuel root h (Dir cs) Hd eq_refl Hwf h' Hrun)
    as (Henv & Hap & PF & PD & _).
  done.
Qed.

(** X9. After [replaceSymlinks] has returned, the tree below its directory
    holds no link with a relative target, and no link anywhere but at a
    place where it found a link or below such a place: a link that is left
    was made by [fs.cpSync], inside the copy of a directory or as the copy
    of a link that led to one, and names its target by an absolute path of
    the build machine. *)
Theorem replaceSymlinks_links_left fuel root cs h h' :
  get (fs h) root = Some (Dir cs) → wf (Dir cs) = true →
  BuildPython.replaceSymlinks fuel root h = Ret tt h' →
  ∀ q t', get (fs h') (root ++ q) = Some (Symlink t') →
    is_absolute t' = true
    ∧ ∃ a b t, q = a ++ b ∧ a ≠ [] ∧ get (fs h) (root ++ a) = Some (Symlink t).
Proof.
  intros Hd Hwf Hrun q t' Hq.
  exact (replaceSymlinks_links_inside fuel root cs h h' Hd Hwf Hrun q t' Hq).
Qed.

Lemma replaceSymlinks_keeps_the_rest_witness :
  ∃ h', host_after (BuildPython.replaceSymlinks 3 ["dist"; "python"] host_python_tree)
        = Some h'
    ∧ get (fs h') ["dist"; "python"; "lib"; "libpython3.9.so"]
      = Some (File (Raw "SO") mode_644).
Proof.
  assert (Hrun : ∃ h', host_after (BuildPython.replaceSymlinks 3 ["dist"; "python"]
                                     host_python_tree) = Some h')
    by (eexists; vm_compute; reflexivity).
  destruct Hrun as [h' Hrun]. exists h'. split; [exact Hrun|].
  destruct (replaceSymlinks_keeps_the_rest 3 ["dist"; "python"] _ host_python_tree h'
              eq_refl eq_refl Hrun) as (_ & _ & HF & _).
  by apply HF.
Defined.

Lemma replaceSymlinks_links_left_witness :
  ∃ h', BuildPython.replaceSymlinks 3 ["dist"; "python"] host_python_dist = Ret tt h'
    ∧ get (fs h') ["dist"; "python"; "inc"; "python.h"]
      = Some (Symlink "/dist/python/include/Python.h")
    ∧ is_absolute "/dist/python/include/Python.h" = true
    ∧ ∃ a b t, ["inc"; "python.h"] = a ++ b ∧ a ≠ []
               ∧ get (fs host_python_dist) (["dist"; "python"] ++ a) = Some (Symlink t).
Proof.
  assert (Hrun : ∃ h', BuildPython.replaceSymlinks 3 ["dist"; "python"] host_python_dist
                       = Ret tt h') by (eexists; vm_compute; reflexivity).
  destruct Hrun as [h' Hrun]. exists h'. split; [exact Hrun|].
  assert (Hq : get (fs h') (["dist"; "python"] ++ ["inc"; "python.h"])
               = Some (Symlink "/dist/python/include/Python.h")).
  { vm_compute in Hrun. by injection Hrun as <-. }
  split; [exact Hq|].
  exact (replaceSymlinks_links_left 3 ["dist"; "python"] _ host_python_dist h'
           eq_refl eq_refl Hrun _ _ Hq).
Defined.

(** ** build-python.js: the command line *)

Lemma parseArgs_sound_both args :
  (∀ p0 r0 p r, BuildPython.parseArgs args p0 r0 = (p, r) →
     (p = p0 ∨ ∃ x, p = Some x ∧ x ∈ args ∧ startsWith "-" x = false)
     ∧ (r = r0 ∨ ∃ v i, r = Some v ∧ v ≠ ""
                        ∧ args !! i = Some "--release" ∧ args !! S i = Some v))
  ∧ (∀ a p0 r0 p r, BuildPython.parseArgs (a :: args) p0 r0 = (p, r) →
     (p = p0 ∨ ∃ x, p = Some x ∧ x ∈ a :: args ∧ startsWith "-" x = false)
     ∧ (r = r0 ∨ ∃ v i, r = Some v ∧ v ≠ ""
                        ∧ (a :: args) !! i = Some "--release"
                        ∧ (a :: args) !! S i = Some v)).
Proof.
  induction args as [|b args [IH1 IH2]].
  - split; [intros; simplify_eq/=; auto|].
    intros a p0 r0 p r. simpl. case_bool_decide; [intros; simplify_eq; auto|].
    destruct (startsWith "-" a) eqn:E; simpl; intros; simplify_eq; [auto|].
    split; [right|auto]. exists a. split; [done|]. split; [left | done].
  - split; [apply IH2|].
    intros a p0 r0 p r. simpl BuildPython.parseArgs. case_bool_decide as Ha.
    + case_bool_decide as Hb.
      * intros H. apply IH2 in H as [Hp Hr]. split.
        -- destruct Hp as [->|(x & -> & Hx & Hs)]; [auto|].
           right. exists x. split; [done|]. split; [by right | done].
        -- destruct Hr as [->|(v & i & -> & Hv & Hi & Hsi)]; [auto|].
           right. exists v, (S i). done.
      * intros H. apply IH1 in H as [Hp Hr]. split.
        -- destruct Hp as [->|(x & -> & Hx & Hs)]; [auto|].
           right. exists x. split; [done|]. split; [by do 2 right | done].
        -- destruct Hr as [->|(v & i & -> & Hv & Hi & Hsi)].
           ++ right. exists b, 0. subst a. done.
           ++ right. exists v, (S (S i)). done.
    + destruct (startsWith "-" a) eqn:E; simpl; intros H; apply IH2 in H as [Hp Hr].
      * split.
        -- destruct Hp as [->|(x & -> & Hx & Hs)]; [auto|].
           right. exists x. split; [done|]. split; [by right | done].
        -- destruct Hr as [->|(v & i & -> & Hv & Hi & Hsi)]; [auto|].
           right. exists v, (S i). done.
      * split.
        -- right. destruct Hp as [->|(x & -> & Hx & Hs)].
           ++ exists a. split; [done|]. split; [left | done].
           ++ exists x. split; [done|]. split; [by right | done].
        -- destruct Hr as [->|(v & i & -> & Hv & Hi & Hsi)]; [auto|].
           right. exists v, (S i). done.
Qed.

(** X10. The script calls [buildPythonPackage] only with a platform that is
    one of the arguments, not empty and not starting with "-", and with a
    release that is not empty and directly follows a [--release] among
    the arguments; in every other case it prints the usage and exits. *)
Theorem cli_sound args platform release :
  BuildPython.cli args = Some (platform, release) →
  platform ≠ "" ∧ startsWith "-" platform = false ∧ platform ∈ args
  ∧ release ≠ ""
  ∧ ∃ i, args !! i = Some "--release" ∧ args !! S i = Some release.
Proof.
  unfold BuildPython.cli.
  destruct (BuildPython.parseArgs args None None) as [[p|] [r|]] eqn:E; try done.
  case_bool_decide as Hp; [done|]. case_bool_decide as Hr; [done|].
  simpl. intros H. simplify_eq.
  destruct (proj1 (parseArgs_sound_both args) _ _ _ _ E)
    as [[?|(x & ? & Hx & Hs)] [?|(v & i & ? & Hv & Hi & Hsi)]]; simplify_eq.
  eauto 10.
Qed.

Lemma cli_sound_witness :
  BuildPython.cli ["linux-x64"; "--release"; "1"] = Some ("linux-x64", "1")
  ∧ "linux-x64" ∈ ["linux-x64"; "--release"; "1"].
Proof.
  split; [reflexivity|].
  by destruct (cli_sound ["linux-x64"; "--release"; "1"] "linux-x64" "1" eq_refl)
    as (_ & _ & H & _).
Defined.

(** X11. The two arguments may come in either order:
    [<platform> --release <release>] and [--release <release> <platform>]
    lead to the same call. A [--release] that ends the command line takes
    no value: the release is missing and the usage is printed. *)
Theorem cli_accepts_either_order platform release :
  platform ≠ "" → startsWith "-" platform = false → release ≠ "" →
  BuildPython.cli [platform; "--release"; release] = Some (platform, release)
  ∧ BuildPython.cli ["--release"; release; platform] = Some (platform, release)
  ∧ BuildPython.cli [platform; "--release"] = None.
Proof.
  intros Hp Hs Hr.
  unfold BuildPython.cli. simpl. rewrite Hs. simpl.
  repeat (case_bool_decide; simplify_eq; simpl; try done).
Qed.

Lemma cli_accepts_either_order_witness :
  BuildPython.cli ["--release"; "1"; "linux-arm64"] = Some ("linux-arm64", "1").
Proof.
  by destruct (cli_accepts_either_order "linux-arm64" "1") as (_ & H & _).
Defined.

(** ** build-python.js: the [bin] entries of the package *)

Lemma statSync_physical p h x :
  get (fs h) p = Some x → is_link x = false → statSync p h = Ret x h.
Proof. intros H Hx. unfold statSync. by rewrite (stat_physical _ _ _ H Hx). Qed.






(** A file named [__proto__] is left out whatever its mode:
    [binEntries['__proto__'] = ...] sets the prototype of the object, not
    a property of it. *)
Example binEntries_skips_proto :
  BuildPython.binEntries ["pkg"] (bare_host "linux" "x64" tree_proto)
  = Ret [("python3", "python/bin/python3")] (bare_host "linux" "x64" tree_proto).
Proof. reflexivity. Qed.

(** Before the links are replaced, the same scan throws on the link
    whose target is gone. *)
Example binEntries_throws_on_dangling_link :
  BuildPython.binEntries ["dist"; "python"] host_python_tree
  = Throw (FsError ENOENT ["dist"; "python"; "bin"; "python"]) host_python_tree.
Proof. reflexivity. Qed.

(** ** build-platform.js: [ensureDir] and [copyDir] *)

Lemma replace_replace {V} c (a b : V) l : replace c b (replace c a l) = replace c b l.
Proof.
  induction l as [|[k v] l IH]; simpl; [done|].
  case_decide; simpl; [by rewrite decide_True | rewrite decide_False by done; by f_equal].
Qed.

Lemma upsert_fresh {V} c (v : V) l : assoc c l = None → upsert c v l = l ++ [(c, v)].
Proof. intros H. unfold upsert. by rewrite H. Qed.

Lemma replace_snoc_fresh {V} c (a b : V) l :
  assoc c l = None → replace c b (l ++ [(c, a)]) = l ++ [(c, b)].
Proof.
  induction l as [|[k v] l IH]; simpl; intros H.
  - by rewrite decide_True.
  - case_decide; [done|]. by rewrite IH.
Qed.

Lemma replace_upsert {V} c (a b : V) l : replace c b (upsert c a l) = upsert c b l.
Proof.
  unfold upsert. destruct (assoc c l) eqn:E.
  - apply replace_replace.
  - by apply replace_snoc_fresh.
Qed.

(** Writing what is there already changes nothing. *)
Lemma put_same p : ∀ f x, get f p = Some x → put f p x = Some f.
Proof.
  induction p as [|c p IH]; intros f x H; [by simpl in *; simplify_eq|].
  destruct f as [| |cs]; [done..|]. rewrite get_cons in H.
  destruct (assoc c cs) as [ch|] eqn:E; [|done].
  destruct p as [|c' p].
  - simpl in H. simplify_eq. simpl. unfold upsert. rewrite E.
    by rewrite (replace_same _ _ _ E).
  - rewrite put_cons2, E, (IH ch x H). by rewrite (replace_same _ _ _ E).
Qed.

(** Adding an entry to a directory that was just written is writing the
    longer directory. *)
Lemma put_put_snoc d : ∀ f f1 l1 nm x,
  put f d (Dir l1) = Some f1 → assoc nm l1 = None →
  put f1 (d ++ [nm]) x = put f d (Dir (l1 ++ [(nm, x)])).
Proof.
  induction d as [|c d IH]; intros f f1 l1 nm x Hp Hnm.
  - simpl in Hp. simplify_eq. simpl. by rewrite upsert_fresh.
  - destruct f as [| |cs0]; [done..|]. destruct d as [|c' d].
    + simpl in Hp. simplify_eq. change ([c] ++ [nm]) with (c :: [nm]).
      rewrite put_cons2, assoc_upsert_same. simpl.
      by rewrite upsert_fresh, replace_upsert.
    + rewrite put_cons2 in Hp. destruct (assoc c cs0) as [ch|] eqn:E; [|done].
      destruct (put ch (c' :: d) (Dir l1)) as [ch1|] eqn:E1; [|done]. simplify_eq.
      change ((c :: c' :: d) ++ [nm]) with (c :: c' :: (d ++ [nm])).
      rewrite !put_cons2, E, (assoc_replace_same _ _ _ _ E).
      change (c' :: (d ++ [nm])) with ((c' :: d) ++ [nm]).
      rewrite (IH ch ch1 l1 nm x E1 Hnm).
      destruct (put ch (c' :: d) (Dir (l1 ++ [(nm, x)]))); [|done].
      by rewrite replace_replace.
Qed.

Lemma mkdir_from_dirs h p : ∀ done rest cs,
  get (fs h) (done ++ p) = Some (Dir cs) →
  mkdir_from done (p ++ rest) h = mkdir_from (done ++ p) rest h.
Proof.
  induction p as [|c p IH]; intros done rest cs H; simpl.
  - by rewrite app_nil_r.
  - destruct (get_dir_step _ _ _ _ _ H) as [cs1 H1].
    rewrite (stat_physical _ _ _ H1) by done.
    replace (done ++ c :: p) with ((done ++ [c]) ++ p) in * by by rewrite <- app_assoc.
    by apply (IH _ _ cs).
Qed.

(** [mkdirSync] of a new name in an existing directory: an empty
    directory is written there and that is all. *)
Lemma mkdirSync_child h d l nm :
  get (fs h) d = Some (Dir l) → assoc nm l = None →
  ∃ f', put (fs h) (d ++ [nm]) (Dir []) = Some f'
        ∧ mkdirSync (d ++ [nm]) h = Ret tt (with_fs h f').
Proof.
  intros Hd Hnm. destruct (put_is_Some (fs h) d nm l (Dir []) Hd) as [f' Hp].
  exists f'. split; [done|]. unfold mkdirSync.
  rewrite (mkdir_from_dirs h d [] [nm] l Hd). simpl.
  rewrite (stat_absent _ d nm [] l Hd Hnm).
  rewrite (lstat_physical _ _ _ _ Hd), get_snoc, Hd, Hnm.
  rewrite (location_physical _ _ _ _ Hd). unfold bind, store. by rewrite Hp.
Qed.

Lemma ensureDir_child h d l nm :
  get (fs h) d = Some (Dir l) → assoc nm l = None →
  ∃ f', put (fs h) (d ++ [nm]) (Dir []) = Some f'
        ∧ BuildPlatform.ensureDir (d ++ [nm]) h = Ret tt (with_fs h f').
Proof.
  intros Hd Hnm. destruct (mkdirSync_child h d l nm Hd Hnm) as (f' & Hp & Hmk).
  exists f'. split; [done|]. unfold BuildPlatform.ensureDir, bind, existsSync.
  rewrite (stat_absent _ d nm [] l Hd Hnm).
  rewrite bool_decide_eq_false_2 by by intros []. exact Hmk.
Qed.

Lemma get_prefix_some f p q x : get f q = Some x → p `prefix_of` q → is_Some (get f p).
Proof.
  intros H [r ->]. rewrite get_app in H. destruct (get f p); [eauto | done].
Qed.

Lemma symlinkSync_fresh t d nm cs h f2 :
  get (fs h) d = Some (Dir cs) → get (fs h) (d ++ [nm]) = None →
  put (fs h) (d ++ [nm]) (Symlink t) = Some f2 →
  symlinkSync t (d ++ [nm]) h = Ret tt (with_fs h f2).
Proof.
  intros Hd Hn Hp. unfold symlinkSync.
  rewrite (location_physical _ _ _ _ Hd), Hn. unfold store. by rewrite Hp.
Qed.

Lemma copyDir_S k src dest h :
  BuildPlatform.copyDir (S k) src dest h
  = (BuildPlatform.ensureDir dest ;;
     let* entries := readdirSync src in
     for_of entries (copy_entry k src dest)) h.
Proof. reflexivity. Qed.

Lemma snoc_unrelated {A} (a b : list A) c :
  ¬ a `prefix_of` b → ¬ b `prefix_of` a → ¬ (a ++ [c]) `prefix_of` (b ++ [c]).
Proof.
  intros Hab Hba H. apply prefix_snoc_inv in H as [H|H].
  - apply Hab. etrans; [|exact H]. by apply prefix_app_r.
  - apply app_inj_tail in H as [-> _]. by apply Hab.
Qed.

Lemma prefix_snoc_l {A} (a q : list A) c : (a ++ [c]) `prefix_of` q → a `prefix_of` q.
Proof. intros H. etrans; [|exact H]. by apply prefix_app_r. Qed.

Section CopyLoop.
Context (k : nat).
Context (IH : ∀ src dd nm h cs l,
  get (fs h) src = Some (Dir cs) → wf (Dir cs) = true → height (Dir cs) ≤ k →
  get (fs h) dd = Some (Dir l) → assoc nm l = None →
  ¬ src `prefix_of` dd ++ [nm] →
  (∀ q, (dd ++ [nm]) `prefix_of` q → chmod_denied h q = false) →
  ∃ f', put (fs h) (dd ++ [nm]) (Dir cs) = Some f'
        ∧ BuildPlatform.copyDir k src (dd ++ [nm]) h = Ret tt (with_fs h f')).

(** One entry: what the source directory holds under the name is written
    under the same name of the destination. *)
Lemma copy_entry_step h src dest cs l1 c ch :
  get (fs h) src = Some (Dir cs) → assoc c cs = Some ch →
  wf ch = true → height ch ≤ k →
  get (fs h) dest = Some (Dir l1) → assoc c l1 = None →
  ¬ src `prefix_of` dest → ¬ dest `prefix_of` src →
  (∀ q, dest `prefix_of` q → chmod_denied h q = false) →
  ∃ f2, put (fs h) (dest ++ [c]) ch = Some f2
        ∧ copy_entry k src dest (c, kind_of ch) h = Ret tt (with_fs h f2).
Proof using IH.
  intros Hs Hc Hwf Hh Hd Hn Hsd Hds Hden.
  assert (Hsc : get (fs h) (src ++ [c]) = Some ch) by by rewrite get_snoc, Hs.
  assert (Hdc : get (fs h) (dest ++ [c]) = None) by by rewrite get_snoc, Hd.
  destruct ch as [c0 m|t|cs0].
  - destruct (put_is_Some (fs h) dest c l1 (File c0 m) Hd) as [f2 Hp].
    exists f2. split; [done|].
    unfold copy_entry, join_name. simpl. unfold bind at 1.
    rewrite (copyFileSync_fresh (src ++ [c]) dest c l1 c0 m h f2
               (stat_physical _ _ _ Hsc eq_refl) Hd Hdc Hp).
    assert (Hsc2 : get f2 (src ++ [c]) = Some (File c0 m)).
    { rewrite (put_get_frame _ _ _ _ (src ++ [c]) Hp); [done| |];
        by apply snoc_unrelated. }
    unfold bind. rewrite (statSync_physical (src ++ [c]) (with_fs h f2) _ Hsc2 eq_refl).
    simpl mode_of.
    rewrite (chmodSync_physical (dest ++ [c]) c0 m m (with_fs h f2)
               (put_get_same _ _ _ _ Hp)).
    change (chmod_denied (with_fs h f2)) with (chmod_denied h).
    rewrite Hden by by apply prefix_app_r.
    change (fs (with_fs h f2)) with f2.
    by rewrite (put_same _ _ _ (put_get_same _ _ _ _ Hp)).
  - destruct (put_is_Some (fs h) dest c l1 (Symlink t) Hd) as [f2 Hp].
    exists f2. split; [done|].
    unfold copy_entry, join_name. simpl. unfold bind.
    rewrite (readlinkSync_physical _ _ _ _ _ Hs Hc).
    by apply (symlinkSync_fresh t dest c l1).
  - destruct (IH (src ++ [c]) dest c h cs0 l1 Hsc Hwf Hh Hd Hn) as (f2 & Hp & Hrun).
    + by apply snoc_unrelated.
    + intros q Hq. apply Hden. by eapply prefix_snoc_l.
    + exists f2. split; [done|]. exact Hrun.
Qed.

Lemma copy_loop h0 src dest cs :
  get (fs h0) src = Some (Dir cs) → wf (Dir cs) = true → height (Dir cs) ≤ S k →
  get (fs h0) dest = None →
  ¬ src `prefix_of` dest →
  (∀ q, dest `prefix_of` q → chmod_denied h0 q = false) →
  ∀ l2 l1 f1,
    cs = l1 ++ l2 → put (fs h0) dest (Dir l1) = Some f1 →
    ∃ f', put (fs h0) dest (Dir cs) = Some f'
          ∧ for_of (map (λ e, (e.1, kind_of e.2)) l2) (copy_entry k src dest)
              (with_fs h0 f1) = Ret tt (with_fs h0 f').
Proof using IH.
  intros Hs Hwf Hh Hd Hsd Hden. destruct (wf_Dir cs Hwf) as [Hnd Hch].
  assert (Hds : ¬ dest `prefix_of` src).
  { intros Hp. destruct (get_prefix_some _ _ _ _ Hs Hp) as [x Hx]. congruence. }
  induction l2 as [|[c ch] l2 IHl]; intros l1 f1 Hcs Hp1.
  { rewrite app_nil_r in Hcs. subst l1. exists f1. done. }
  assert (Hin : (c, ch) ∈ cs).
  { rewrite Hcs. apply elem_of_app. right. left. }
  pose proof (assoc_elem_of _ _ _ Hnd Hin) as Hc.
  assert (Hn1 : assoc c l1 = None).
  { apply assoc_None_notin. rewrite Hcs, map_app in Hnd.
    apply NoDup_app in Hnd as (_ & Hdis & _). intros Hin1.
    apply (Hdis c Hin1). simpl. left. }
  assert (Hs1 : get f1 src = Some (Dir cs)).
  { by rewrite (put_get_frame _ _ _ _ src Hp1). }
  destruct (copy_entry_step (with_fs h0 f1) src dest cs l1 c ch Hs1 Hc)
    as (f2 & Hp2 & Hstep); try done.
  - by eapply Hch.
  - pose proof (height_child _ _ _ Hc). lia.
  - by apply (put_get_same _ _ _ _ Hp1).
  - change (fs (with_fs h0 f1)) with f1 in Hp2.
    rewrite (put_put_snoc dest (fs h0) f1 l1 c ch Hp1 Hn1) in Hp2.
    destruct (IHl (l1 ++ [(c, ch)]) f2) as (f' & Hp' & Hrun); [|done|].
    { by rewrite <- app_assoc. }
    exists f'. split; [done|]. simpl. unfold bind. rewrite Hstep. exact Hrun.
Qed.

End CopyLoop.

Lemma copyDir_exact k : ∀ src dd nm h cs l,
  get (fs h) src = Some (Dir cs) → wf (Dir cs) = true → height (Dir cs) ≤ k →
  get (fs h) dd = Some (Dir l) → assoc nm l = None →
  ¬ src `prefix_of` dd ++ [nm] →
  (∀ q, (dd ++ [nm]) `prefix_of` q → chmod_denied h q = false) →
  ∃ f', put (fs h) (dd ++ [nm]) (Dir cs) = Some f'
        ∧ BuildPlatform.copyDir k src (dd ++ [nm]) h = Ret tt (with_fs h f').
Proof.
  induction k as [|k IH]; intros src dd nm h cs l Hs Hwf Hh Hd Hn Hsd Hden.
  { simpl in Hh. lia. }
  assert (Hdest : get (fs h) (dd ++ [nm]) = None) by by rewrite get_snoc, Hd.
  destruct (ensureDir_child h dd l nm Hd Hn) as (f0 & Hp0 & Hmk).
  destruct (copy_loop k IH h src (dd ++ [nm]) cs Hs Hwf Hh Hdest Hsd Hden cs [] f0
              eq_refl Hp0) as (f' & Hp' & Hrun).
  exists f'. split; [done|].
  rewrite copyDir_S. unfold bind at 1. rewrite Hmk. unfold bind.
  assert (Hs0 : get f0 src = Some (Dir cs)).
  { rewrite (put_get_frame _ _ _ _ src Hp0); [done| |done].
    intros Hp. destruct (get_prefix_some _ _ _ _ Hs Hp) as [x Hx]. congruence. }
  rewrite (readdirSync_physical src (with_fs h f0) cs Hs0). exact Hrun.
Qed.

(** X13. [copyDir] into a new name of an existing directory makes a verbatim
    copy: when the source is a real directory that lists no name twice,
    does not contain the destination, and the modes of the new files may
    be set, the call returns and the destination holds what the source
    holds: the same names in the same order, the same bytes and modes,
    every link with the target it had. The source and everything beside
    the destination are as they were. *)
Theorem copyDir_copies_verbatim fuel src dd nm cs l h :
  get (fs h) src = Some (Dir cs) → wf (Dir cs) = true → height (Dir cs) ≤ fuel →
  get (fs h) dd = Some (Dir l) → assoc nm l = None →
  ¬ src `prefix_of` dd ++ [nm] →
  (∀ q, (dd ++ [nm]) `prefix_of` q → chmod_denied h q = false) →
  ∃ h', BuildPlatform.copyDir fuel src (dd ++ [nm]) h = Ret tt h'
        ∧ h' = with_fs h (fs h')
        ∧ get (fs h') (dd ++ [nm]) = Some (Dir cs)
        ∧ get (fs h') src = Some (Dir cs)
        ∧ ∀ q, ¬ (dd ++ [nm]) `prefix_of` q → ¬ q `prefix_of` (dd ++ [nm]) →
               get (fs h') q = get (fs h) q.
Proof.
  intros Hs Hwf Hh Hd Hn Hsd Hden.
  destruct (copyDir_exact fuel src dd nm h cs l Hs Hwf Hh Hd Hn Hsd Hden)
    as (f' & Hp & Hrun).
  exists (with_fs h f'). split; [done|]. split; [done|].
  change (fs (with_fs h f')) with f'.
  split; [by apply (put_get_same _ _ _ _ Hp)|].
  assert (Hds : ¬ (dd ++ [nm]) `prefix_of` src).
  { intros Hpre. destruct (get_prefix_some _ _ _ _ Hs Hpre) as [x Hx].
    rewrite get_snoc, Hd, Hn in Hx. done. }
  split; [by rewrite (put_get_frame _ _ _ _ src Hp)|].
  intros q H1 H2. by apply (put_get_frame _ _ _ _ q Hp).
Qed.

Lemma copyDir_copies_verbatim_witness :
  ∃ h', BuildPlatform.copyDir 2 ["tmp"; "libexec"] ["dist"; "pkg"; "libexec"]
          (bare_host "linux" "x64" tree_xpack) = Ret tt h'
    ∧ get (fs h') ["dist"; "pkg"; "libexec"] = get tree_xpack ["tmp"; "libexec"].
Proof.
  destruct (copyDir_copies_verbatim 2 ["tmp"; "libexec"] ["dist"; "pkg"] "libexec"
              [ ("libfoo.so", Symlink "libfoo.so.1");
                ("libfoo.so.1", File (Raw "SO") mode_755);
                ("plugins", Dir [("p.cfg", File (Raw "cfg") mode_644)]) ]
              [("bin", Dir [])] (bare_host "linux" "x64" tree_xpack))
    as (h' & Hrun & _ & Hcopy & _);
    [reflexivity | reflexivity | simpl; lia | reflexivity | reflexivity
    | intros [r Hr]; discriminate Hr | done |].
  exists h'. split; [exact Hrun | exact Hcopy].
Defined.

(** The links make a second run fail: the first link of the source finds
    its name taken in the destination. *)
Example copyDir_twice_fails_on_link :
  ∃ h1 h2,
    BuildPlatform.copyDir 2 ["tmp"; "libexec"] ["dist"; "pkg"; "libexec"]
      (bare_host "linux" "x64" tree_xpack) = Ret tt h1
    ∧ BuildPlatform.copyDir 2 ["tmp"; "libexec"] ["dist"; "pkg"; "libexec"] h1
      = Throw (FsError EEXIST ["dist"; "pkg"; "libexec"; "libfoo.so"]) h2.
Proof.
  eexists. eexists. split.
  - vm_compute. reflexivity.
  - vm_compute. reflexivity.
Qed.

(** X14. [ensureDir] on a path that names a directory, or that [mkdir -p] can
    create through real directories, returns with a directory at the
    path, leaves what was below the path as it was, and a second call
    changes nothing. On a path that names a regular file it returns at
    once: the file stays, and no directory is made. *)
Theorem ensureDir_idempotent d h :
  (dir_or_fresh (fs h) d = true →
   ∃ h', BuildPlatform.ensureDir d h = Ret tt h'
     ∧ (∃ cs, get (fs h') d = Some (Dir cs))
     ∧ (∀ nm r, get (fs h') (d ++ nm :: r) = get (fs h) (d ++ nm :: r))
     ∧ BuildPlatform.ensureDir d h' = Ret tt h')
  ∧ (∀ c m, get (fs h) d = Some (File c m) → BuildPlatform.ensureDir d h = Ret tt h).
Proof.
  split.
  - intros Hf.
    assert (Hagain : ∀ h' cs, get (fs h') d = Some (Dir cs) →
                       BuildPlatform.ensureDir d h' = Ret tt h').
    { intros h' cs Hd. unfold BuildPlatform.ensureDir, bind.
      by rewrite (existsSync_physical _ _ _ Hd eq_refl). }
    destruct (fresh_split d (fs h) Hf) as [[cs Hd]|(p1 & c & p2 & cs & -> & H1 & H2)].
    + exists h. split; [by eapply Hagain|]. split; [eauto|]. split; [done|].
      by eapply Hagain.
    + destruct (mkdir_from_fresh (p1 ++ c :: p2) [] h (fs h) eq_refl Hf)
        as (h' & Hmk & [cs' Hd'] & Hfr).
      exists h'. split.
      { unfold BuildPlatform.ensureDir, bind, existsSync.
        rewrite (stat_absent _ p1 c p2 cs H1 H2).
        rewrite bool_decide_eq_false_2 by by intros []. exact Hmk. }
      split; [eauto|]. split; [exact Hfr|]. by eapply Hagain.
  - intros c m Hd. unfold BuildPlatform.ensureDir, bind.
    by rewrite (existsSync_physical _ _ _ Hd eq_refl).
Qed.

Lemma ensureDir_idempotent_witness :
  ∃ h', BuildPlatform.ensureDir ["dist"; "pkg"; "libexec"; "deep"]
          (bare_host "linux" "x64" tree_xpack) = Ret tt h'
    ∧ (∃ cs, get (fs h') ["dist"; "pkg"; "libexec"; "deep"] = Some (Dir cs))
    ∧ BuildPlatform.ensureDir ["dist"; "pkg"; "libexec"; "deep"] h' = Ret tt h'.
Proof.
  destruct (proj1 (ensureDir_idempotent ["dist"; "pkg"; "libexec"; "deep"]
                     (bare_host "linux" "x64" tree_xpack)) eq_refl)
    as (h' & H1 & H2 & _ & H3).
  exists h'. done.
Defined.

(** ** build-platform.js: [copyFile] *)

Lemma put_fresh_keeps_files f L x f' q c m :
  put f L x = Some f' → get f L = None →
  get f q = Some (File c m) → get f' q = Some (File c m).
Proof.
  intros Hp Hn Hq. rewrite (put_get_frame _ _ _ _ q Hp); [done| |].
  - intros Hpre. destruct (get_prefix_some _ _ _ _ Hq Hpre). congruence.
  - intros [[|c' r] ->].
    + rewrite app_nil_r in Hn. congruence.
    + destruct (put_get_above _ _ _ _ _ _ Hp) as (cs & _ & H & _). congruence.
Qed.

Lemma mkdir_from_keeps_files rest : ∀ done h h',
  mkdir_from done rest h = Ret tt h' →
  ∀ q c m, get (fs h) q = Some (File c m) → get (fs h') q = Some (File c m).
Proof.
  induction rest as [|c0 rest IH]; intros done h h' Hrun q c m Hq.
  { simpl in Hrun. unfold ret in Hrun. by simplify_eq. }
  simpl in Hrun. destruct (stat (fs h) (done ++ [c0])) as [[| |]|]; try done.
  { by eapply IH. }
  unfold lstat in Hrun. destruct (location (fs h) (done ++ [c0])) as [L|]; [|done].
  destruct (get (fs h) L) eqn:HL; [done|].
  unfold bind, store in Hrun.
  destruct (put (fs h) L (Dir [])) as [f1|] eqn:Hp; [|done].
  eapply IH; [exact Hrun|]. simpl.
  by eapply put_fresh_keeps_files.
Qed.

Lemma ensureDir_keeps_files d h h' :
  BuildPlatform.ensureDir d h = Ret tt h' →
  ∀ q c m, get (fs h) q = Some (File c m) → get (fs h') q = Some (File c m).
Proof.
  unfold BuildPlatform.ensureDir, bind, existsSync.
  destruct (bool_decide _); simpl; [unfold ret; by intros; simplify_eq|].
  apply mkdir_from_keeps_files.
Qed.

Lemma ensureDir_fresh d h :
  dir_or_fresh (fs h) d = true →
  ∃ h', BuildPlatform.ensureDir d h = Ret tt h'
    ∧ same_env h h'
    ∧ (∃ cs, get (fs h') d = Some (Dir cs))
    ∧ (∀ nm r, get (fs h') (d ++ nm :: r) = get (fs h) (d ++ nm :: r)).
Proof.
  intros Hf.
  destruct (fresh_split d (fs h) Hf) as [[cs Hd]|(p1 & c & p2 & cs & -> & H1 & H2)].
  - exists h. split; [|split; [apply same_env_refl | eauto]].
    unfold BuildPlatform.ensureDir, bind.
    by rewrite (existsSync_physical _ _ _ Hd eq_refl).
  - destruct (mkdir_from_fresh (p1 ++ c :: p2) [] h (fs h) eq_refl Hf)
      as (h' & Hmk & Hd' & Hfr).
    exists h'. split; [|split; [|eauto]].
    + unfold BuildPlatform.ensureDir, bind, existsSync.
      rewrite (stat_absent _ p1 c p2 cs H1 H2).
      rewrite bool_decide_eq_false_2 by by intros []. exact Hmk.
    + apply (preserves_after same_env (mkdir_from [] (p1 ++ c :: p2)) h h');
        [apply mkdir_from_same_env | by rewrite Hmk].
Qed.

(** X15. [copyFile] makes the directories that lead to the destination when
    they are missing and copies the file: when the source is a regular
    file and the destination names nothing or a regular file, the call
    returns, the destination holds the bytes and the mode of the source,
    and the source is as it was. *)
Theorem copyFile_creates_parents src dd nm c m h :
  get (fs h) src = Some (File c m) →
  dir_or_fresh (fs h) dd = true →
  (get (fs h) (dd ++ [nm]) = None
   ∨ ∃ c0 m0, get (fs h) (dd ++ [nm]) = Some (File c0 m0)) →
  ∃ h', BuildPlatform.copyFile src (dd ++ [nm]) h = Ret tt h'
    ∧ get (fs h') (dd ++ [nm]) = Some (File c m)
    ∧ get (fs h') src = Some (File c m)
    ∧ ∃ cs, get (fs h') dd = Some (Dir cs).
Proof.
  intros Hs Hf Hdest.
  destruct (ensureDir_fresh dd h Hf) as (h1 & Hen & _ & [cs1 Hd1] & Hfr).
  pose proof (ensureDir_keeps_files dd h h1 Hen _ _ _ Hs) as Hs1.
  specialize (Hfr nm []). rewrite <- Hfr in Hdest.
  destruct (put_is_Some (fs h1) dd nm cs1 (File c m) Hd1) as [f2 Hp].
  exists (with_fs h1 f2).
  assert (Hrun : BuildPlatform.copyFile src (dd ++ [nm]) h = Ret tt (with_fs h1 f2)).
  { unfold BuildPlatform.copyFile, path_dirname. rewrite removelast_last.
    unfold bind. rewrite Hen. unfold copyFileSync.
    rewrite (stat_physical _ _ _ Hs1 eq_refl). unfold write_location.
    rewrite (location_physical _ _ _ _ Hd1).
    destruct Hdest as [->|(c0 & m0 & ->)]; unfold store; by rewrite Hp. }
  split; [exact Hrun|]. change (fs (with_fs h1 f2)) with f2.
  split; [by apply (put_get_same _ _ _ _ Hp)|]. split.
  - destruct (decide (src = dd ++ [nm])) as [->|Hne].
    { by apply (put_get_same _ _ _ _ Hp). }
    destruct Hdest as [Hn|(c0 & m0 & H0)].
    + by eapply put_fresh_keeps_files.
    + destruct (files_incomparable _ _ _ _ _ _ _ Hs1 H0 Hne) as [H1 H2].
      by rewrite (put_get_frame _ _ _ _ src Hp).
  - destruct (put_get_above _ _ _ dd nm [] Hp) as (_ & cs' & _ & H). eauto.
Qed.

Lemma copyFile_creates_parents_witness :
  ∃ h', BuildPlatform.copyFile ["tmp"; "libexec"; "libfoo.so.1"]
          ["dist"; "pkg"; "lib"; "x"; "libfoo.so.1"]
          (bare_host "linux" "x64" tree_xpack) = Ret tt h'
    ∧ get (fs h') ["dist"; "pkg"; "lib"; "x"; "libfoo.so.1"]
      = Some (File (Raw "SO") mode_755).
Proof.
  destruct (copyFile_creates_parents ["tmp"; "libexec"; "libfoo.so.1"]
              ["dist"; "pkg"; "lib"; "x"] "libfoo.so.1" (Raw "SO") mode_755
              (bare_host "linux" "x64" tree_xpack) eq_refl eq_refl (or_introl eq_refl))
    as (h' & Hrun & Hd & _).
  exists h'. done.
Defined.

(** ** The default cache directory of a version *)

Lemma split_slash_plain s : has_slash s = false → split_slash s = [s].
Proof.
  induction s as [|c s IH]; simpl; [done|].
  case_bool_decide; [done|]. simpl. intros Hs. by rewrite (IH Hs).
Qed.

Lemma CACHE_DIR_normal h :
  normalize (homedir h) = homedir h →
  Python.CACHE_DIR h = homedir h ++ [".xspect-build"; "python"]
  ∧ normalize (Python.CACHE_DIR h) = Python.CACHE_DIR h.
Proof.
  intros Hn.
  assert (H : Python.CACHE_DIR h = homedir h ++ [".xspect-build"; "python"]).
  { unfold Python.CACHE_DIR, path_join. simpl concat.
    apply normalize_app; [done|]. repeat constructor; done. }
  split; [done|]. rewrite H at 1. rewrite H.
  apply normalize_app; [done|]. repeat constructor; done.
Qed.

(** X16. Without a destination, [extract] works in
    [~/.xspect-build/python/<version>] for a version that is one plain
    path component, and two such versions never share a path: nothing
    below the directory of one, its marker included, lies below the
    directory of the other. *)
Theorem default_cache_dirs_disjoint h v1 v2 :
  normalize (homedir h) = homedir h →
  has_slash v1 = false → plain_name v1 →
  has_slash v2 = false → plain_name v2 →
  v1 ≠ v2 →
  Python.destPath_of h None v1 = homedir h ++ [".xspect-build"; "python"; v1]
  ∧ Python.markerFile_of (Python.destPath_of h None v1)
    = homedir h ++ [".xspect-build"; "python"; v1; "package.json"]
  ∧ ∀ rel1 rel2, Python.destPath_of h None v1 ++ rel1
                 ≠ Python.destPath_of h None v2 ++ rel2.
Proof.
  intros Hn Hs1 Hp1 Hs2 Hp2 Hne.
  destruct (CACHE_DIR_normal h Hn) as [Hc Hcn].
  assert (Hd : ∀ v, has_slash v = false → plain_name v →
            Python.destPath_of h None v = homedir h ++ [".xspect-build"; "python"; v]).
  { intros v Hs Hp. unfold Python.destPath_of, path_join. simpl concat.
    rewrite app_nil_r, (split_slash_plain v Hs).
    rewrite (normalize_app _ [v] Hcn) by (constructor; [exact Hp | constructor]).
    rewrite Hc, <- app_assoc. done. }
  rewrite !Hd by done. split; [done|]. split.
  - unfold Python.markerFile_of, path_join. simpl concat. rewrite ?app_nil_r.
    change (homedir h ++ [".xspect-build"; "python"; v1])
      with (homedir h ++ [".xspect-build"; "python"] ++ [v1]).
    rewrite app_assoc, <- Hc, <- app_assoc.
    rewrite (normalize_app _ ([v1] ++ ["package.json"]) Hcn).
    + rewrite Hc, <- app_assoc. done.
    + constructor; [exact Hp1|]. repeat constructor; done.
  - intros rel1 rel2 H. rewrite <- !app_assoc in H.
    apply app_inv_head in H. simpl in H. by simplify_eq.
Qed.

Lemma default_cache_dirs_disjoint_witness :
  Python.destPath_of host_npm None "3.9.13"
  = ["home"; "u"; ".xspect-build"; "python"; "3.9.13"]
  ∧ ∀ rel1 rel2, Python.destPath_of host_npm None "3.9.13" ++ rel1
                 ≠ Python.destPath_of host_npm None "3.10.0" ++ rel2.
Proof.
  destruct (default_cache_dirs_disjoint host_npm "3.9.13" "3.10.0") as (H1 & _ & H2);
    try done.
Defined.

(** A version that is not a plain component leaves the cache directory:
    [..] names the directory above it. *)
Example version_dotdot_escapes :
  Python.destPath_of host_npm None ".." = ["home"; "u"; ".xspect-build"]
  ∧ Python.destPath_of host_npm None "a/../3.9.13"
    = Python.destPath_of host_npm None "3.9.13".
Proof. split; reflexivity. Qed.

(** ** build-platform.js: the platform argument *)

Lemma split_dash_nonempty s : BuildPlatform.split_dash s ≠ [].
Proof.
  destruct s as [|c s]; simpl; [done|].
  case_bool_decide; [done|]. by destruct (BuildPlatform.split_dash s).
Qed.

Lemma split_dash_plain s : has_dash s = false → BuildPlatform.split_dash s = [s].
Proof.
  induction s as [|c s IH]; simpl; [done|].
  case_bool_decide; [done|]. simpl. intros Hs. by rewrite (IH Hs).
Qed.

Lemma split_dash_app a b :
  has_dash a = false →
  BuildPlatform.split_dash (a +:+ "-" +:+ b) = a :: BuildPlatform.split_dash b.
Proof.
  induction a as [|c a IH]; intros Ha.
  - rewrite append_nil, append_cons, append_nil. simpl. done.
  - simpl in Ha. apply orb_false_iff in Ha as [Hc Ha].
    rewrite append_cons. simpl. rewrite Hc. by rewrite (IH Ha).
Qed.

Lemma split_dash_no_dash s : Forall (λ x, has_dash x = false) (BuildPlatform.split_dash s).
Proof.
  induction s as [|c s IH]; simpl; [by repeat constructor|].
  case_bool_decide as Hc; [by constructor|].
  pose proof (split_dash_nonempty s) as Hne.
  destruct (BuildPlatform.split_dash s) as [|x l]; [done|].
  apply Forall_cons in IH as [Hx Hl]. constructor; [|done].
  simpl. rewrite Hx. by rewrite bool_decide_eq_false_2.
Qed.

(** X19. The build script reads back the key the packages compute at run
    time: for an operating system and a CPU name that are not empty and
    hold no "-", the platform [<os>-<cpu>] is split into exactly these
    two, and so is any longer [<os>-<cpu>-<more>]: what follows a second
    "-" is ignored. A platform the script accepts has both parts not
    empty and free of "-". *)
Theorem parsePlatform_platformKey os cpu :
  os ≠ "" → cpu ≠ "" → has_dash os = false → has_dash cpu = false →
  BuildPlatform.parsePlatform (os +:+ "-" +:+ cpu) = Some (os, cpu)
  ∧ (∀ more, BuildPlatform.parsePlatform (os +:+ "-" +:+ cpu +:+ "-" +:+ more)
             = Some (os, cpu))
  ∧ (∀ p os' cpu', BuildPlatform.parsePlatform p = Some (os', cpu') →
       os' ≠ "" ∧ cpu' ≠ "" ∧ has_dash os' = false ∧ has_dash cpu' = false).
Proof.
  intros Ho Hc Hdo Hdc. split; [|split].
  - unfold BuildPlatform.parsePlatform.
    rewrite (split_dash_app os cpu Hdo), (split_dash_plain cpu Hdc).
    by rewrite !bool_decide_eq_false_2.
  - intros more. unfold BuildPlatform.parsePlatform.
    rewrite (split_dash_app os _ Hdo), (split_dash_app cpu more Hdc).
    pose proof (split_dash_nonempty more).
    destruct (BuildPlatform.split_dash more); [done|].
    by rewrite !bool_decide_eq_false_2.
  - intros p os' cpu'. unfold BuildPlatform.parsePlatform.
    pose proof (split_dash_no_dash p) as Hnd.
    destruct (BuildPlatform.split_dash p) as [|a [|b l]]; [done..|].
    case_bool_decide; [done|]. case_bool_decide; [done|]. simpl.
    intros ?; simplify_eq.
    apply Forall_cons in Hnd as [Ha Hnd]. apply Forall_cons in Hnd as [Hb _]. done.
Qed.

Lemma parsePlatform_platformKey_witness :
  BuildPlatform.parsePlatform (Patchelf.platformKey host_postinstall)
  = Some (platform host_postinstall, arch host_postinstall).
Proof.
  by destruct (parsePlatform_platformKey "linux" "x64") as [H _].
Defined.

(** ** Termination *)

(** X17. [replaceSymlinks] goes no deeper than the directory is: it descends
    into the real directories it lists, never into a link nor into a copy
    it has made. On a real directory that lists no name twice, a bound as
    large as the depth of the directory is never reached: the call
    returns or throws. *)
Theorem replaceSymlinks_terminates fuel root cs h :
  get (fs h) root = Some (Dir cs) → wf (Dir cs) = true → height (Dir cs) ≤ fuel →
  (∃ h', BuildPython.replaceSymlinks fuel root h = Ret tt h')
  ∨ (∃ e h', BuildPython.replaceSymlinks fuel root h = Throw e h').
Proof.
  intros Hd Hwf Hh.
  pose proof (replaceSymlinks_bounded fuel root h (Dir cs) Hd eq_refl Hwf Hh) as Hb.
  destruct (BuildPython.replaceSymlinks fuel root h) as [[] h'|e h'|]; [eauto..|done].
Qed.

Lemma replaceSymlinks_terminates_witness :
  ∃ e h', BuildPython.replaceSymlinks 2 ["py"] (bare_host "linux" "x64" tree_self_link)
          = Throw e h'.
Proof.
  destruct (replaceSymlinks_terminates 2 ["py"] _ (bare_host "linux" "x64" tree_self_link)
              eq_refl eq_refl) as [[h' H]|H].
  - simpl. lia.
  - vm_compute in H. discriminate H.
  - exact H.
Defined.

Lemma fix_loop_returns k dir h0 cs :
  (∀ d h n, erase (fs h) = erase (fs h0) → get (fs h0) d = Some n →
            isDirectory n = true → wf n = true → height n ≤ k →
            ∃ h', Python.fixPermissions k d h = Ret tt h') →
  get (fs h0) dir = Some (Dir cs) → wf (Dir cs) = true →
  ∀ l h,
    erase (fs h) = erase (fs h0) →
    (∀ nm ch, (nm, ch) ∈ l → (nm, ch) ∈ cs ∧ height ch ≤ k) →
    ∃ h', for_of (map (λ e, (e.1, kind_of e.2)) l) (fix_entry k dir) h = Ret tt h'.
Proof.
  intros IH Hd Hwf. destruct (wf_Dir cs Hwf) as [Hnd Hch].
  induction l as [|[nm ch] l IHl]; intros h E Hl; [by exists h|].
  destruct (Hl nm ch) as [Hin Hh]; [left|].
  pose proof (assoc_elem_of _ _ _ Hnd Hin) as Hc.
  assert (Hstep : ∃ h1, fix_entry k dir (nm, kind_of ch) h = Ret tt h1).
  { destruct ch as [c m|t|cs0].
    - apply fix_entry_file_returns.
    - by exists h.
    - unfold fix_entry, join_name. simpl.
      apply (IH _ _ (Dir cs0)); [done| |done| |done].
      + by rewrite get_snoc, Hd.
      + by eapply Hch. }
  destruct Hstep as [h1 Hstep].
  destruct (IHl h1) as [h' Hrest].
  - destruct (preserves_after _ _ h h1 (fix_entry_modes_only k dir (nm, kind_of ch)))
      as [_ [<- _]]; [by rewrite Hstep | done].
  - intros nm' ch' Hin'. apply Hl. by right.
  - exists h'. simpl. unfold bind. by rewrite Hstep.
Qed.

Lemma fixPermissions_returns k : ∀ dir h0 h n,
  erase (fs h) = erase (fs h0) →
  get (fs h0) dir = Some n → isDirectory n = true → wf n = true → height n ≤ k →
  ∃ h', Python.fixPermissions k dir h = Ret tt h'.
Proof.
  induction k as [|k IH]; intros dir h0 h n E Hd Hdir Hwf Hk.
  { destruct n; simpl in *; try done; lia. }
  destruct n as [| |cs]; [done..|].
  destruct (get_shape_dir _ _ _ _ (eq_sym E) Hd) as (cs' & Hd' & Hkinds).
  destruct (fix_loop_returns k dir h0 cs) with (l := cs) (h := h) as [h' Hrun];
    [|done..| |].
  - intros d h1 n1 E1. by apply IH.
  - intros nm ch Hin. split; [done|].
    destruct (wf_Dir cs Hwf) as [Hnd _].
    pose proof (height_child _ _ _ (assoc_elem_of _ _ _ Hnd Hin)). lia.
  - exists h'. rewrite fixPermissions_S. unfold bind.
    rewrite (existsSync_physical _ _ _ Hd') by done. simpl. unfold bind.
    by rewrite (readdirSync_physical _ _ _ Hd'), Hkinds.
Qed.

(** X18. On a real directory that lists no name twice, [fixPermissions] always
    returns: it descends into real directories only, follows no link and
    swallows every failure to change a mode, so nothing in it can throw,
    and it goes no deeper than the directory is. *)
Theorem fixPermissions_returns_on_directory fuel dir cs h :
  get (fs h) dir = Some (Dir cs) → wf (Dir cs) = true → height (Dir cs) ≤ fuel →
  ∃ h', Python.fixPermissions fuel dir h = Ret tt h'.
Proof.
  intros Hd Hwf Hh.
  exact (fixPermissions_returns fuel dir h h (Dir cs) eq_refl Hd eq_refl Hwf Hh).
Qed.

Lemma fixPermissions_returns_on_directory_witness :
  ∃ h', Python.fixPermissions 2 ["py"] (bare_host "linux" "x64" tree_self_link)
        = Ret tt h'.
Proof.
  apply (fixPermissions_returns_on_directory 2 ["py"] _
           (bare_host "linux" "x64" tree_self_link) eq_refl eq_refl).
  simpl. lia.
Defined.
